(** * pulsar.utils.config: settings registry, validators and Config

    A shallow embedding of [pulsar/utils/config.py].  Python objects that
    the module mutates (Setting instances) live in a store and are named by
    their location; classes, strings, integers and the other immutable
    values are plain Rocq values.  Failures are Python exceptions, kept in
    structured form: the exception class, the format string of the message
    and the operands of its [%] operator.

    The builtins follow Python 3 ([int(s, 0)], [str.strip], [str.lower],
    insertion-ordered dictionaries, attribute lookup with data descriptors
    and the [__getattr__] fallback); strings are ASCII text. *)

From Stdlib Require Import ZArith String Ascii List Bool Lia Sorted Permutation.
From stdpp Require Import base list strings gmap.

Import ListNotations.
Local Open Scope string_scope.
Local Open Scope Z_scope.
Local Open Scope list_scope.

(* ===================================================================== *)
(** ** Python values and exceptions *)
(* ===================================================================== *)

(** Identity of an object in the store. *)
Definition loc := nat.

(** The values settings hold and validators receive.  A list carries the
    identity of its list object: two values with one identity denote one
    mutable object (nothing in this module mutates a list, so the items
    travel with the reference).  [PFun isfunction nparams] is a callable:
    [isfunction] is [inspect.isfunction(val)] and [nparams] is
    [len(inspect.getargspec(cval)[0])] for the [cval] the arity validator
    inspects ([val] itself for a function, [val.__call__] otherwise). *)
#[warnings="-register-all"]
Inductive pyval : Type :=
| PNone
| PBool (b : bool)
| PInt (z : Z)
| PStr (s : string)
| PList (id : loc) (items : list pyval)
| PFun (isfunction : bool) (nparams : nat).

Inductive exn_kind : Set :=
| TypeError | ValueError | AttributeError | KeyError | NameError
| RecursionError | SystemError | ArgumentError.

(** [raise Kind(fmt % operands)]. *)
Record exn : Type := Exn {
  exn_class : exn_kind;
  exn_fmt : string;
  exn_operands : list pyval
}.

Inductive result (A : Type) : Type :=
| Ok (a : A)
| Raise (e : exn).
Arguments Ok {A} a.
Arguments Raise {A} e.

Definition rbind {A B} (r : result A) (k : A -> result B) : result B :=
  match r with
  | Ok a => k a
  | Raise e => Raise e
  end.

(** [bool(val)]. *)
Definition truthy (v : pyval) : bool :=
  match v with
  | PNone => false
  | PBool b => b
  | PInt z => negb (z =? 0)
  | PStr s => negb (String.eqb s "")
  | PList _ items => match items with [] => false | _ => true end
  | PFun _ _ => true
  end.

(** Truth value of an attribute that is [None] or a string. *)
Definition truthy_str (o : option string) : bool :=
  match o with
  | Some s => negb (String.eqb s "")
  | None => false
  end.

(** [a or b] on such attributes. *)
Definition or_str (a b : option string) : option string :=
  if truthy_str a then a else b.

(* ===================================================================== *)
(** ** String builtins *)
(* ===================================================================== *)

(** [str.isspace] on one ASCII character: tab, newline, vertical tab,
    form feed, carriage return, the four separators 0x1c-0x1f, space. *)
Definition is_space (a : ascii) : bool :=
  let n := nat_of_ascii a in
  ((9 <=? n)%nat && (n <=? 13)%nat) || ((28 <=? n)%nat && (n <=? 32)%nat).

Fixpoint lstrip_chars (cs : list ascii) : list ascii :=
  match cs with
  | c :: cs' => if is_space c then lstrip_chars cs' else cs
  | [] => []
  end.

Definition strip_chars (cs : list ascii) : list ascii :=
  rev (lstrip_chars (rev (lstrip_chars cs))).

(** [s.strip()]. *)
Definition strip (s : string) : string :=
  string_of_list_ascii (strip_chars (list_ascii_of_string s)).

Definition lower_char (a : ascii) : ascii :=
  let n := nat_of_ascii a in
  if ((65 <=? n)%nat && (n <=? 90)%nat) then ascii_of_nat (n + 32) else a.

(** [s.lower()]. *)
Fixpoint lower (s : string) : string :=
  match s with
  | EmptyString => EmptyString
  | String a s' => String (lower_char a) (lower s')
  end.

(** Value of a character as a digit, in any base up to 36. *)
Definition digit_value (a : ascii) : option Z :=
  let n := nat_of_ascii a in
  if ((48 <=? n)%nat && (n <=? 57)%nat) then Some (Z.of_nat n - 48)
  else if ((97 <=? n)%nat && (n <=? 122)%nat) then Some (Z.of_nat n - 87)
  else if ((65 <=? n)%nat && (n <=? 90)%nat) then Some (Z.of_nat n - 55)
  else None.

Definition is_underscore (a : ascii) : bool := Ascii.eqb a "_"%char.

(** The digit loop of [int]: digits of the base, single underscores
    between them, no trailing underscore, at least one digit. *)
Fixpoint scan_digits (base : Z) (prev_us : bool) (ndigits : nat) (acc : Z)
    (cs : list ascii) : option Z :=
  match cs with
  | [] => if prev_us then None
          else match ndigits with O => None | S _ => Some acc end
  | c :: cs' =>
      if is_underscore c then
        if prev_us then None else scan_digits base true ndigits acc cs'
      else
        match digit_value c with
        | Some d =>
            if d <? base
            then scan_digits base false (S ndigits) (acc * base + d) cs'
            else None
        | None => None
        end
  end.

(** A literal body: it may not start with an underscore. *)
Definition int_digits (base : Z) (cs : list ascii) : option Z :=
  match cs with
  | c :: _ => if is_underscore c then None else scan_digits base false 0 0 cs
  | [] => None
  end.

(** After a base prefix one underscore is allowed. *)
Definition int_prefixed (base : Z) (cs : list ascii) : option Z :=
  match cs with
  | c :: cs' => if is_underscore c then int_digits base cs' else int_digits base cs
  | [] => None
  end.

(** A decimal body with a leading zero is accepted only when it is zero
    (the old C-style octal literals are invalid). *)
Definition int_leading_zero (cs : list ascii) : option Z :=
  match int_digits 10 cs with
  | Some 0 => Some 0
  | _ => None
  end.

Definition int_unsigned (cs : list ascii) : option Z :=
  match cs with
  | "0"%char :: c :: cs' =>
      if Ascii.eqb c "x"%char || Ascii.eqb c "X"%char then int_prefixed 16 cs'
      else if Ascii.eqb c "o"%char || Ascii.eqb c "O"%char then int_prefixed 8 cs'
      else if Ascii.eqb c "b"%char || Ascii.eqb c "B"%char then int_prefixed 2 cs'
      else int_leading_zero cs
  | "0"%char :: [] => int_leading_zero cs
  | _ => int_digits 10 cs
  end.

(** The white space [int] skips around a literal.  On an ASCII string
    it is the set of the C locale, tab to carriage return and the
    space: the separators 0x1c-0x1f, which [str.strip] removes, are not
    in it. *)
Definition is_int_space (a : ascii) : bool :=
  let n := nat_of_ascii a in
  ((9 <=? n)%nat && (n <=? 13)%nat) || (n =? 32)%nat.

Fixpoint lstrip_int (cs : list ascii) : list ascii :=
  match cs with
  | c :: cs' => if is_int_space c then lstrip_int cs' else cs
  | [] => []
  end.

Definition strip_int (cs : list ascii) : list ascii :=
  rev (lstrip_int (rev (lstrip_int cs))).

(** [int(s, 0)] on a string: surrounding whitespace, an optional sign,
    then a literal whose prefix selects the base.  [None] is the
    [ValueError] of the builtin. *)
Definition int_base0 (s : string) : option Z :=
  match strip_int (list_ascii_of_string s) with
  | "-"%char :: cs => option_map Z.opp (int_unsigned cs)
  | "+"%char :: cs => int_unsigned cs
  | cs => int_unsigned cs
  end.

(* ===================================================================== *)
(** ** Validators *)
(* ===================================================================== *)

Definition validate_bool (val : pyval) : result pyval :=
  match val with
  | PBool _ => Ok val
  | PStr s =>
      if String.eqb (strip (lower s)) "true" then Ok (PBool true)
      else if String.eqb (strip (lower s)) "false" then Ok (PBool false)
      else Raise (Exn ValueError "Invalid boolean: %s" [val])
  | _ => Raise (Exn TypeError "Invalid type for casting: %s" [val])
  end.

(** The conversion at the head of [validate_pos_int]: [int(val, 0)] for
    what is not an integer, [int(val)] for integers and booleans. *)
Definition pos_int_convert (val : pyval) : result Z :=
  match val with
  | PInt z => Ok z
  | PBool b => Ok (if b then 1 else 0)
  | PStr s =>
      match int_base0 s with
      | Some z => Ok z
      | None =>
          Raise (Exn ValueError "invalid literal for int() with base 0: %r" [val])
      end
  | _ => Raise (Exn TypeError "int() can't convert non-string with explicit base" [])
  end.

Definition validate_pos_int (val : pyval) : result pyval :=
  rbind (pos_int_convert val) (fun z =>
    if z <? 0 then Raise (Exn ValueError "Value must be positive: %s" [PInt z])
    else Ok (PInt z)).

Definition validate_string (val : pyval) : result pyval :=
  match val with
  | PNone => Ok PNone
  | PStr s => Ok (PStr (strip s))
  | _ => Raise (Exn TypeError "Not a string: %s" [val])
  end.

Definition isinstance_list (val : pyval) : bool :=
  match val with PList _ _ => true | _ => false end.

Definition validate_list (val : pyval) : result pyval :=
  if truthy val && negb (isinstance_list val)
  then Raise (Exn TypeError "Not a list: %s" [val])
  else Ok val.

Definition validate_callable (arity : Z) (val : pyval) : result pyval :=
  match val with
  | PFun isfunction nparams =>
      let discount := if isfunction then 0 else 1 in
      if negb (arity =? Z.of_nat nparams - discount)
      then Raise (Exn TypeError "Value must have an arity of: %s" [PInt arity])
      else Ok val
  | _ => Raise (Exn TypeError "Value is not callable: %s" [val])
  end.

(* ===================================================================== *)
(** ** The Setting class family *)
(* ===================================================================== *)

(** The [type] attribute of a setting: the builtin [int] or a name such
    as ["callable"]. *)
Inductive argtype : Type :=
| py_int
| type_name (s : string).

Definition truthy_type (t : option argtype) : bool :=
  match t with
  | Some py_int => true
  | Some (type_name s) => negb (String.eqb s "")
  | None => false
  end.

Definition truthy_cli (c : option (list string)) : bool :=
  match c with
  | Some (_ :: _) => true
  | _ => false
  end.

Definition str_val (o : option string) : pyval :=
  match o with
  | Some s => PStr s
  | None => PNone
  end.

Module Setting.

(** A class of the family: its attributes after inheritance.  A
    validator is represented by what calling it does; [None] is an
    attribute without [__call__] (the [validator = None] of the base
    class).  [order] exists on registered classes only, the only ones
    that are ever instantiated. *)
Record class : Type := Class {
  classname : string;
  nargs : pyval;
  app : option string;
  name : option string;
  value : pyval;
  section : option string;
  cli : option (list string);
  validator : option (pyval -> result pyval);
  type : option argtype;
  meta : option string;
  action : option string;
  default : pyval;
  short : option string;
  desc : option string;
  order : nat
}.

(** An instance: its class and its own [__dict__], where only [value],
    [short] and [desc] are ever bound. *)
Record object : Type := Object {
  cls : class;
  own_value : option pyval;
  own_short : option (option string);
  own_desc : option (option string)
}.

(** Attribute reads on an instance: own dictionary, then the class. *)
Definition get_value (o : object) : pyval :=
  match own_value o with Some v => v | None => value (cls o) end.
Definition get_short (o : object) : option string :=
  match own_short o with Some v => v | None => short (cls o) end.
Definition get_desc (o : object) : option string :=
  match own_desc o with Some v => v | None => desc (cls o) end.

Definition with_value (o : object) (v : pyval) : object :=
  Object (cls o) (Some v) (own_short o) (own_desc o).
Definition with_short (o : object) (v : option string) : object :=
  Object (cls o) (own_value o) (Some v) (own_desc o).
Definition with_desc (o : object) (v : option string) : object :=
  Object (cls o) (own_value o) (own_short o) (Some v).

End Setting.

(** The class [Setting] itself ([virtual]: never registered). *)
Definition Setting_class : Setting.class :=
  {| Setting.classname := "Setting";
     Setting.nargs := PNone; Setting.app := None; Setting.name := None;
     Setting.value := PNone; Setting.section := None; Setting.cli := None;
     Setting.validator := None; Setting.type := None; Setting.meta := None;
     Setting.action := None; Setting.default := PNone;
     Setting.short := None; Setting.desc := None; Setting.order := 0 |}.

(* ===================================================================== *)
(** ** Module state and the monad of the module's functions *)
(* ===================================================================== *)

(** The two module globals and the store of Setting instances. *)
Record world : Type := World {
  KNOWN_SETTINGS : list Setting.class;
  KNOWN_SETTINGS_SET : list string;
  store : list Setting.object
}.

(** A computation returns or raises, and leaves a state either way. *)
Definition M (A : Type) : Type := world -> result A * world.

#[global] Instance M_ret : MRet M := fun A a w => (Ok a, w).
#[global] Instance M_bind : MBind M := fun A B k m w =>
  match m w with
  | (Ok a, w') => k a w'
  | (Raise e, w') => (Raise e, w')
  end.

Definition raise {A} (e : exn) : M A := fun w => (Raise e, w).
Definition lift {A} (r : result A) : M A := fun w => (r, w).
Definition get_world : M world := fun w => (Ok w, w).

(** Store access.  A location outside the store has no counterpart in a
    Python program; the model reports it as [SystemError]. *)
Definition read (l : loc) : M Setting.object := fun w =>
  match store w !! l with
  | Some o => (Ok o, w)
  | None => (Raise (Exn SystemError "dangling reference" []), w)
  end.

Definition write (l : loc) (o : Setting.object) : M unit := fun w =>
  (Ok tt, World (KNOWN_SETTINGS w) (KNOWN_SETTINGS_SET w) (<[l := o]> (store w))).

Definition alloc (o : Setting.object) : M loc := fun w =>
  (Ok (length (store w)),
   World (KNOWN_SETTINGS w) (KNOWN_SETTINGS_SET w) (store w ++ [o])).

(* ===================================================================== *)
(** ** Setting methods *)
(* ===================================================================== *)

(** [Setting.set]: the check on the validator, then the validator's
    result is bound to [self.value].  The validators are wrapped by
    [wrap_method], so [self.validator(val)] is [func(val)]. *)
Definition Setting_set (self : loc) (val : pyval) : M unit :=
  o ← read self;
  match Setting.validator (Setting.cls o) with
  | None =>
      raise (Exn TypeError "Invalid validator: %s"
                 [str_val (Setting.name (Setting.cls o))])
  | Some func =>
      v ← lift (func val);
      write self (Setting.with_value o v)
  end.

(** [Setting.get]. *)
Definition Setting_get (self : loc) : M pyval :=
  o ← read self;
  mret (Setting.get_value o).

(** [Setting.copy]: [copy.copy(self)], a new object of the same class
    whose [__dict__] holds the same bindings (a shallow copy). *)
Definition Setting_copy (self : loc) : M loc :=
  o ← read self;
  alloc o.

Definition is_none (v : pyval) : bool :=
  match v with PNone => true | _ => false end.

(** [Setting.__init__]. *)
Definition Setting_init (self : loc) : M unit :=
  o ← read self;
  _ ← (if negb (is_none (Setting.default (Setting.cls o)))
       then Setting_set self (Setting.default (Setting.cls o))
       else mret tt);
  o ← read self;
  _ ← write self (Setting.with_short o
                    (or_str (Setting.get_short o) (Setting.get_desc o)));
  o ← read self;
  write self (Setting.with_desc o
                (or_str (Setting.get_desc o) (Setting.get_short o))).

(** [s()]: a new instance with an empty [__dict__], then [__init__]. *)
Definition Setting_new (s : Setting.class) : M loc :=
  self ← alloc (Setting.Object s None None None);
  _ ← Setting_init self;
  mret self.

(* ===================================================================== *)
(** ** SettingMeta: class creation and registration *)
(* ===================================================================== *)

(** One binding of a class body (the [attrs] of [SettingMeta.__new__]). *)
Inductive attr : Type :=
| a_virtual (b : bool)
| a_nargs (v : pyval)
| a_app (v : option string)
| a_name (v : option string)
| a_value (v : pyval)
| a_section (v : option string)
| a_cli (v : option (list string))
| a_validator (func : pyval -> result pyval)
| a_type (v : option argtype)
| a_meta (v : option string)
| a_action (v : option string)
| a_default (v : pyval)
| a_short (v : option string)
| a_desc (v : option string)
| a_order (n : nat).

(** [attrs.get(key)]: the last binding of the key wins. *)
Definition attrs_get {A} (sel : attr -> option A) (attrs : list attr) : option A :=
  fold_left (fun acc a => match sel a with Some v => Some v | None => acc end)
            attrs None.

Definition sel_virtual a := match a with a_virtual b => Some b | _ => None end.
Definition sel_nargs a := match a with a_nargs v => Some v | _ => None end.
Definition sel_app a := match a with a_app v => Some v | _ => None end.
Definition sel_name a := match a with a_name v => Some v | _ => None end.
Definition sel_value a := match a with a_value v => Some v | _ => None end.
Definition sel_section a := match a with a_section v => Some v | _ => None end.
Definition sel_cli a := match a with a_cli v => Some v | _ => None end.
Definition sel_validator a := match a with a_validator f => Some f | _ => None end.
Definition sel_type a := match a with a_type v => Some v | _ => None end.
Definition sel_meta a := match a with a_meta v => Some v | _ => None end.
Definition sel_action a := match a with a_action v => Some v | _ => None end.
Definition sel_default a := match a with a_default v => Some v | _ => None end.
Definition sel_short a := match a with a_short v => Some v | _ => None end.
Definition sel_desc a := match a with a_desc v => Some v | _ => None end.
Definition sel_order a := match a with a_order n => Some n | _ => None end.

(** An attribute of the new class: the body's binding, else the base's. *)
Definition inherit {A} (sel : attr -> option A) (attrs : list attr) (inherited : A) : A :=
  match attrs_get sel attrs with
  | Some v => v
  | None => inherited
  end.

(** [super_new(cls, name, bases, attrs)] for a class with one base of the
    family: the attributes of the body over those of the base. *)
Definition super_new (classname : string) (base : Setting.class)
    (attrs : list attr) : Setting.class :=
  {| Setting.classname := classname;
     Setting.nargs := inherit sel_nargs attrs (Setting.nargs base);
     Setting.app := inherit sel_app attrs (Setting.app base);
     Setting.name := inherit sel_name attrs (Setting.name base);
     Setting.value := inherit sel_value attrs (Setting.value base);
     Setting.section := inherit sel_section attrs (Setting.section base);
     Setting.cli := inherit sel_cli attrs (Setting.cli base);
     Setting.validator :=
       match attrs_get sel_validator attrs with
       | Some func => Some func
       | None => Setting.validator base
       end;
     Setting.type := inherit sel_type attrs (Setting.type base);
     Setting.meta := inherit sel_meta attrs (Setting.meta base);
     Setting.action := inherit sel_action attrs (Setting.action base);
     Setting.default := inherit sel_default attrs (Setting.default base);
     Setting.short := inherit sel_short attrs (Setting.short base);
     Setting.desc := inherit sel_desc attrs (Setting.desc base);
     Setting.order := inherit sel_order attrs (Setting.order base) |}.

(** [wrap_method(func)]: the wrapper drops the instance it is called on. *)
Definition wrap_method (func : pyval -> result pyval) : pyval -> result pyval :=
  fun val => func val.

Definition is_linebreak (a : ascii) : bool :=
  let n := nat_of_ascii a in
  ((10 <=? n)%nat && (n <=? 13)%nat) || ((28 <=? n)%nat && (n <=? 30)%nat).

Definition line_of (rev_chars : list ascii) : string :=
  string_of_list_ascii (rev rev_chars).

Fixpoint splitlines_chars (cur : list ascii) (cs : list ascii) : list string :=
  match cs with
  | [] => match cur with [] => [] | _ => [line_of cur] end
  | c :: cs' =>
      if Ascii.eqb c "013"%char then
        match cs' with
        | c' :: cs'' =>
            if Ascii.eqb c' "010"%char
            then line_of cur :: splitlines_chars [] cs''
            else line_of cur :: splitlines_chars [] cs'
        | [] => line_of cur :: splitlines_chars [] cs'
        end
      else if is_linebreak c then line_of cur :: splitlines_chars [] cs'
      else splitlines_chars (c :: cur) cs'
  end.

(** [s.splitlines()]. *)
Definition splitlines (s : string) : list string :=
  splitlines_chars [] (list_ascii_of_string s).

Definition set_desc_short (c : Setting.class) (d s : option string) : Setting.class :=
  {| Setting.classname := Setting.classname c;
     Setting.nargs := Setting.nargs c; Setting.app := Setting.app c;
     Setting.name := Setting.name c; Setting.value := Setting.value c;
     Setting.section := Setting.section c; Setting.cli := Setting.cli c;
     Setting.validator := Setting.validator c; Setting.type := Setting.type c;
     Setting.meta := Setting.meta c; Setting.action := Setting.action c;
     Setting.default := Setting.default c;
     Setting.short := s; Setting.desc := d;
     Setting.order := Setting.order c |}.

Section Registration.

(** [textwrap.dedent], from the standard library. *)
Variable dedent : string -> string.

(** [SettingMeta.fmt_desc]. *)
Definition fmt_desc (c : Setting.class) (desc : string) : Setting.class :=
  let desc := strip (dedent desc) in
  let lines := splitlines desc in
  set_desc_short c (Some desc)
    (Some (match lines with [] => "" | l :: _ => l end)).

(** [KNOWN_SETTINGS.append(new_class)] and, for a class with a name,
    [KNOWN_SETTINGS_SET.add(new_class.name)]. *)
Definition register (new_class : Setting.class) : M unit := fun w =>
  (Ok tt,
   World (KNOWN_SETTINGS w ++ [new_class])
         (if truthy_str (Setting.name new_class)
          then match Setting.name new_class with
               | Some n =>
                   if bool_decide (n ∈ KNOWN_SETTINGS_SET w)
                   then KNOWN_SETTINGS_SET w
                   else KNOWN_SETTINGS_SET w ++ [n]
               | None => KNOWN_SETTINGS_SET w
               end
          else KNOWN_SETTINGS_SET w)
         (store w)).

(** [SettingMeta.__new__(cls, name, bases, attrs)] for a class statement
    whose base is a class of the family (so [parents] is not empty). *)
Definition SettingMeta_new (classname : string) (base : Setting.class)
    (attrs : list attr) : M Setting.class :=
  if match attrs_get sel_virtual attrs with Some b => b | None => false end
  then mret (super_new classname base attrs)
  else
    w ← get_world;
    let attrs := attrs ++ [a_order (length (KNOWN_SETTINGS w))] in
    let attrs :=
      attrs ++ [a_validator (wrap_method
                  (match attrs_get sel_validator attrs with
                   | Some func => func
                   | None => validate_string
                   end))] in
    let new_class := super_new classname base attrs in
    match attrs_get sel_desc attrs with
    | None => raise (Exn KeyError "%r" [PStr "desc"])
    | Some d =>
        let new_class :=
          fmt_desc new_class (if truthy_str d then default "" d else "") in
        _ ← register new_class;
        mret new_class
    end.

End Registration.

(* ===================================================================== *)
(** ** make_settings *)
(* ===================================================================== *)

(** A dictionary of settings: name to Setting instance, in insertion
    order.  The key is the [name] attribute, which may be [None]. *)
Definition settings_dict := list (option string * loc).

Fixpoint dict_get (k : option string) (d : settings_dict) : option loc :=
  match d with
  | [] => None
  | (k', v) :: d' => if bool_decide (k' = k) then Some v else dict_get k d'
  end.

(** [d[k] = v]: an existing key keeps its position. *)
Fixpoint dict_set (k : option string) (v : loc) (d : settings_dict) : settings_dict :=
  match d with
  | [] => [(k, v)]
  | (k', v') :: d' =>
      if bool_decide (k' = k) then (k', v) :: d' else (k', v') :: dict_set k v d'
  end.

Definition dict_keys (d : settings_dict) : list (option string) := map fst d.

(** [name in names] for a name attribute and a sequence of strings. *)
Definition name_in (n : option string) (names : list string) : bool :=
  match n with
  | Some s => bool_decide (s ∈ names)
  | None => false
  end.

Definition truthy_names (l : option (list string)) : bool :=
  match l with
  | Some (_ :: _) => true
  | _ => false
  end.

Fixpoint make_settings_loop (app : option string) (include : option (list string))
    (exclude : list string) (known : list Setting.class)
    (settings : settings_dict) : M settings_dict :=
  match known with
  | [] => mret settings
  | s :: known' =>
      setting ← Setting_new s;
      o ← read setting;
      let c := Setting.cls o in
      if truthy_str (Setting.app c) && negb (bool_decide (Setting.app c = app))
      then make_settings_loop app include exclude known' settings
      else if truthy_names include
              && negb (name_in (Setting.name c) (default [] include))
              && negb (truthy_str (Setting.app c))
      then make_settings_loop app include exclude known' settings
      else if name_in (Setting.name c) exclude
      then make_settings_loop app include exclude known' settings
      else
        copied ← Setting_copy setting;
        make_settings_loop app include exclude known'
          (dict_set (Setting.name c) copied settings)
  end.

Definition make_settings (app : option string) (include exclude : option (list string))
    : M settings_dict :=
  let exclude := if truthy_names exclude then default [] exclude else [] in
  w ← get_world;
  make_settings_loop app include exclude (KNOWN_SETTINGS w) [].

(* ===================================================================== *)
(** ** The argument parser and Setting.add_argument *)
(* ===================================================================== *)

(** A keyword argument of a parser call. *)
Inductive kwarg : Type :=
| kw_str (v : option string)
| kw_val (v : pyval)
| kw_type (t : argtype)
| kw_fmt (fmt : string) (operands : list pyval).

Definition kwargs := list (string * kwarg).

Fixpoint kwargs_set (k : string) (v : kwarg) (d : kwargs) : kwargs :=
  match d with
  | [] => [(k, v)]
  | (k', v') :: d' =>
      if String.eqb k' k then (k', v) :: d' else (k', v') :: kwargs_set k v d'
  end.

Definition kwargs_update (d new : kwargs) : kwargs :=
  fold_left (fun acc kv => kwargs_set (fst kv) (snd kv) acc) new d.

Definition kwargs_pop (k : string) (d : kwargs) : kwargs :=
  List.filter (fun kv => negb (String.eqb (fst kv) k)) d.

(** One call of [add_argument] (or of [optparse.make_option]): the
    positional arguments and the keyword arguments. *)
Definition cli_argument : Type := list string * kwargs.

Definition type_is_not_string (t : option argtype) : bool :=
  match t with
  | Some (type_name s) => negb (String.eqb s "string")
  | _ => true
  end.

Definition is_store (a : option string) : bool :=
  match a with
  | Some s => String.eqb s "store"
  | None => false
  end.

(** The call [Setting.add_argument] makes on the parser; [None] when the
    setting is not added to the parser. *)
Definition add_argument_call (o : Setting.object) : option cli_argument :=
  let c := Setting.cls o in
  let kw : kwargs :=
    if truthy_type (Setting.type c) && type_is_not_string (Setting.type c)
    then match Setting.type c with
         | Some t => [("type", kw_type t)]
         | None => []
         end
    else [] in
  if truthy_cli (Setting.cli c) then
    let action := or_str (Setting.action c) (Some "store") in
    let kw := kwargs_update kw
      [("dest", kw_str (Setting.name c));
       ("action", kw_str action);
       ("default", kw_val PNone);
       ("help", kw_fmt "%s [%s]"
                  [str_val (Setting.get_short o); Setting.default c])] in
    let kw := if negb (is_store action) then kwargs_pop "type" kw else kw in
    Some (default [] (Setting.cli c), kw)
  else if truthy (Setting.nargs c) && truthy_str (Setting.name c) then
    let kw := kwargs_update kw
      [("nargs", kw_val (Setting.nargs c));
       ("metavar", kw_str (or_str (Setting.meta c) None));
       ("help", kw_str (Setting.get_short o))] in
    Some ([default "" (Setting.name c)], kw)
  else None.

(* ===================================================================== *)
(** ** Sorting by (section, order) *)
(* ===================================================================== *)

(** The key of the [sorter] of [Config.parser] and [make_options]. *)
Definition sort_key : Type := option string * nat.

Definition sorter_of (o : Setting.object) : sort_key :=
  (Setting.section (Setting.cls o), Setting.order (Setting.cls o)).

(** Tuple comparison on keys whose sections are both strings or both
    [None]: the sections decide unless they are equal. *)
Definition key_le (a b : sort_key) : bool :=
  match fst a, fst b with
  | Some s, Some t =>
      match String.compare s t with
      | Lt => true
      | Eq => (snd a <=? snd b)%nat
      | Gt => false
      end
  | _, _ => (snd a <=? snd b)%nat
  end.

Fixpoint insert_by_key {A} (x : sort_key * A) (l : list (sort_key * A))
    : list (sort_key * A) :=
  match l with
  | [] => [x]
  | y :: l' => if key_le (fst x) (fst y) then x :: l else y :: insert_by_key x l'
  end.

Fixpoint sort_by_key {A} (l : list (sort_key * A)) : list (sort_key * A) :=
  match l with
  | [] => []
  | x :: l' => insert_by_key x (sort_by_key l')
  end.

Definition has_none_section {A} (l : list (sort_key * A)) : bool :=
  existsb (fun x => match fst (fst x) with None => true | Some _ => false end) l.
Definition has_str_section {A} (l : list (sort_key * A)) : bool :=
  existsb (fun x => match fst (fst x) with None => false | Some _ => true end) l.

(** [sorted(items, key=...)] on decorated items: the stable sort, unless
    a [None] section meets a string, which [<] does not compare (the two
    type names in the message come in the order the sort meets them). *)
Definition sorted {A} (l : list (sort_key * A)) : result (list A) :=
  if has_none_section l && has_str_section l
  then Raise (Exn TypeError "'<' not supported between instances" [])
  else Ok (map snd (sort_by_key l)).

(* ===================================================================== *)
(** ** Config *)
(* ===================================================================== *)

(** What an attribute of a Config instance holds: the settings
    dictionary, or a plain value. *)
Inductive slot : Type :=
| Settings (d : settings_dict)
| Value (v : pyval).

(** A Config instance is its [__dict__]. *)
Definition instance : Type := gmap string slot.

(** The read-only properties of the class. *)
Inductive property : Set :=
| worker_class | workers | address | uid | gid | proc_name.

(** What the class (with [object] behind it) provides under a name: a
    property, one of the data descriptors every instance has, or a
    method or plain class attribute (which an entry of the instance
    [__dict__] shadows). *)
Inductive class_member : Set :=
| Property (p : property)
| ObjectSlot
| NonData.

Definition Config_methods : list string :=
  ["__init__"; "__getstate__"; "__setstate__"; "__getattr__"; "__setattr__";
   "set"; "parser"; "__module__"; "__doc__"; "__delattr__"; "__dir__";
   "__eq__"; "__format__"; "__ge__"; "__getattribute__"; "__gt__";
   "__hash__"; "__init_subclass__"; "__le__"; "__lt__"; "__ne__"; "__new__";
   "__reduce__"; "__reduce_ex__"; "__repr__"; "__sizeof__"; "__str__";
   "__subclasshook__"].

Definition Config_class (name : string) : option class_member :=
  if String.eqb name "worker_class" then Some (Property worker_class)
  else if String.eqb name "workers" then Some (Property workers)
  else if String.eqb name "address" then Some (Property address)
  else if String.eqb name "uid" then Some (Property uid)
  else if String.eqb name "gid" then Some (Property gid)
  else if String.eqb name "proc_name" then Some (Property proc_name)
  else if bool_decide (name ∈ ["__class__"; "__dict__"; "__weakref__"])
  then Some ObjectSlot
  else if bool_decide (name ∈ Config_methods) then Some NonData
  else None.

(** The result of reading an attribute: what the instance holds, or what
    the class provides (a bound method, the class itself, ...). *)
Inductive attribute : Type :=
| Attr (s : slot)
| ClassAttr (name : string).

(** [self.settings] inside the methods: the instance [__dict__]; without
    the entry, [__getattr__] would call itself without end. *)
Definition self_settings (self : instance) : result slot :=
  match self !! "settings" with
  | Some s => Ok s
  | None => Raise (Exn RecursionError "maximum recursion depth exceeded" [])
  end.

Fixpoint is_substring (a b : string) : bool :=
  String.prefix a b ||
  match b with
  | EmptyString => false
  | String _ b' => is_substring a b'
  end.

Definition is_str (name : string) (v : pyval) : bool :=
  match v with
  | PStr s => String.eqb s name
  | _ => false
  end.

(** [name in self.settings]. *)
Definition contains (name : string) (s : slot) : result bool :=
  match s with
  | Settings d => Ok (bool_decide (Some name ∈ dict_keys d))
  | Value (PStr t) => Ok (is_substring name t)
  | Value (PList _ items) => Ok (existsb (is_str name) items)
  | Value v => Raise (Exn TypeError "argument of type '%s' is not iterable" [v])
  end.

(** [self.settings[name]]. *)
Definition getitem (name : string) (s : slot) : result loc :=
  match s with
  | Settings d =>
      match dict_get (Some name) d with
      | Some l => Ok l
      | None => Raise (Exn KeyError "%r" [PStr name])
      end
  | Value v => Raise (Exn TypeError "'%s' object is not subscriptable" [v])
  end.

(** [self.settings.get(name)]. *)
Definition getdefault (name : string) (s : slot) : result (option loc) :=
  match s with
  | Settings d => Ok (dict_get (Some name) d)
  | Value v => Raise (Exn AttributeError "'%s' object has no attribute 'get'" [v])
  end.

(** [Config.__getattr__], which Python calls when the normal lookup of
    the attribute fails. *)
Definition Config_getattr (self : instance) (name : string) : M pyval :=
  s ← lift (self_settings self);
  known ← lift (contains name s);
  if negb known then
    w ← get_world;
    if bool_decide (name ∈ KNOWN_SETTINGS_SET w) then mret PNone
    else raise (Exn AttributeError "No configuration setting for: %s" [PStr name])
  else
    s ← lift (self_settings self);
    l ← lift (getitem name s);
    Setting_get l.

(** [object.__setattr__]: a data descriptor of the class decides, else
    the instance [__dict__] takes the binding. *)
Definition object_setattr (self : instance) (name : string) (value : pyval)
    : result instance :=
  match Config_class name with
  | Some (Property _) => Raise (Exn AttributeError "can't set attribute" [])
  | Some ObjectSlot =>
      if String.eqb name "__weakref__"
      then Raise (Exn AttributeError "attribute '%s' is not writable" [PStr name])
      else Raise (Exn TypeError "%s must be set to a class or dictionary" [PStr name])
  | _ => Ok (<[name := Value value]> self)
  end.

(** [Config.__setattr__]. *)
Definition Config_setattr (self : instance) (name : string) (value : pyval)
    : M instance :=
  taken ← (if negb (String.eqb name "settings")
           then s ← lift (self_settings self); lift (contains name s)
           else mret false : M bool);
  if negb taken then lift (object_setattr self name value)
  else raise (Exn AttributeError "Invalid access!" []).

(** [self.settings = d]: for the name ["settings"] the guard of
    [__setattr__] is skipped and [object.__setattr__] stores the
    dictionary. *)
Definition Config_setattr_settings (self : instance) (d : settings_dict) : instance :=
  <["settings" := Settings d]> self.

(** [Config.set]. *)
Definition Config_set (self : instance) (name : string) (value : pyval) : M unit :=
  s ← lift (self_settings self);
  known ← lift (contains name s);
  if negb known
  then raise (Exn AttributeError "No configuration setting for: %s" [PStr name])
  else
    s ← lift (self_settings self);
    l ← lift (getitem name s);
    Setting_set l value.

(** [Config.__init__]. *)
Definition Config_init (description epilog : pyval) (app : option string)
    (include exclude : option (list string)) : M instance :=
  d ← make_settings app include exclude;
  let self := Config_setattr_settings ∅ d in
  self ← Config_setattr self "description"
           (if truthy description then description else PStr "Pulsar server");
  Config_setattr self "epilog"
    (if truthy epilog then epilog else PStr "Have fun!").

(** The collaborators of [pulsar.utils.system] and [py2py3] the derived
    views call; they live outside this module. *)
Record System : Type := {
  load_worker_class : pyval -> result pyval;
  has_setup_class : pyval -> bool;
  setup_class : pyval -> result unit;
  parse_address : pyval -> result pyval;
  get_uid : pyval -> result pyval;
  get_gid : pyval -> result pyval;
  to_bytestring : pyval -> result pyval
}.

Definition settings_get_value (name : string) (s : slot) : M (option pyval) :=
  o ← lift (getdefault name s);
  match o with
  | Some l => v ← Setting_get l; mret (Some v)
  | None => mret None
  end.

(** The getters of the properties. *)
Definition Config_property (system : System) (p : property) (self : instance)
    : M pyval :=
  match p with
  | workers =>
      s ← lift (self_settings self);
      l ← lift (getitem "workers" s);
      Setting_get l
  | worker_class =>
      s ← lift (self_settings self);
      l ← lift (getitem "worker_class" s);
      uri ← Setting_get l;
      wc ← lift (load_worker_class system uri);
      _ ← (if has_setup_class system wc then lift (setup_class system wc)
           else mret tt);
      mret wc
  | address =>
      s ← lift (self_settings self);
      l ← lift (getitem "bind" s);
      v ← Setting_get l;
      b ← lift (to_bytestring system v);
      lift (parse_address system b)
  | uid =>
      s ← lift (self_settings self);
      user ← settings_get_value "user" s;
      match user with
      | Some v => lift (get_uid system v)
      | None => mret PNone
      end
  | gid =>
      s ← lift (self_settings self);
      group ← settings_get_value "group" s;
      match group with
      | Some v => lift (get_gid system v)
      | None => mret PNone
      end
  | proc_name =>
      s ← lift (self_settings self);
      pn ← settings_get_value "proc_name" s;
      if negb (is_none (default PNone pn)) then mret (default PNone pn)
      else
        s ← lift (self_settings self);
        pn ← settings_get_value "default_proc_name" s;
        mret (default PNone pn)
  end.

(** Reading [self.name]: a data descriptor of the class, the instance
    [__dict__], the other class attributes, and [__getattr__] when all
    of them fail (also when a property getter raises [AttributeError]). *)
Definition Config_getattribute (system : System) (self : instance) (name : string)
    : M attribute :=
  match Config_class name with
  | Some (Property p) => fun w =>
      match Config_property system p self w with
      | (Ok v, w') => (Ok (Attr (Value v)), w')
      | (Raise e, w') =>
          match exn_class e with
          | AttributeError =>
              (v ← Config_getattr self name; mret (Attr (Value v))) w'
          | _ => (Raise e, w')
          end
      end
  | Some ObjectSlot => mret (ClassAttr name)
  | member =>
      match self !! name with
      | Some s => mret (Attr s)
      | None =>
          match member with
          | Some NonData => mret (ClassAttr name)
          | _ => v ← Config_getattr self name; mret (Attr (Value v))
          end
      end
  end.

(** An [argparse.ArgumentParser], as the calls it has received: the
    constructor's keywords and the [add_argument] calls in order. *)
Record parser : Type := Parser {
  parser_description : attribute;
  parser_epilog : attribute;
  parser_arguments : list cli_argument
}.

(** [argparse], from the standard library, as [parser.add_argument]
    behaves: given the calls the parser has accepted so far and a new
    call, it accepts the call or raises ([ArgumentError] for an option
    string the parser has already, [ValueError] for a type that is not
    callable or an option string without its prefix, ...).  The library
    lives outside this module: the functions below take its behaviour
    as it is. *)
Definition argparse_library : Type :=
  list cli_argument -> cli_argument -> result unit.

(** [setting.add_argument(parser)] seen from the parser: the call of
    [parser.add_argument] when the setting makes one, which the parser
    accepts and records, or refuses. *)
Definition parser_add_argument (argparse : argparse_library) (p : parser)
    (a : option cli_argument) : result parser :=
  match a with
  | Some call =>
      rbind (argparse (parser_arguments p) call) (fun _ =>
        Ok (Parser (parser_description p) (parser_epilog p)
              (parser_arguments p ++ [call])))
  | None => Ok p
  end.

Fixpoint mapM {A B} (f : A -> M B) (l : list A) : M (list B) :=
  match l with
  | [] => mret []
  | x :: l' => y ← f x; ys ← mapM f l'; mret (y :: ys)
  end.

Fixpoint foldM {A B} (f : B -> A -> M B) (l : list A) (b : B) : M B :=
  match l with
  | [] => mret b
  | x :: l' => b' ← f b x; foldM f l' b'
  end.

Definition dict_getitem (k : option string) (d : settings_dict) : result loc :=
  match dict_get k d with
  | Some l => Ok l
  | None => Raise (Exn KeyError "%r" [str_val k])
  end.

Section Parser.

Variable system : System.
Variable argparse : argparse_library.
(** [pulsar.__version__]. *)
Variable version : string.

(** [Config.parser]. *)
Definition Config_parser (self : instance) : M parser :=
  description ← Config_getattribute system self "description";
  epilog ← Config_getattribute system self "epilog";
  let p := Parser description epilog [] in
  p ← lift (parser_add_argument argparse p
              (Some (["--version"],
                     [("action", kw_str (Some "version"));
                      ("version", kw_str (Some version))])));
  s ← lift (self_settings self);
  match s with
  | Value v =>
      raise (Exn AttributeError "'%s' object has no attribute 'keys'" [v])
  | Settings d =>
      decorated ← mapM (fun k =>
                          l ← lift (dict_getitem k d);
                          o ← read l;
                          mret (sorter_of o, k)) (dict_keys d);
      ks ← lift (sorted decorated);
      foldM (fun p k =>
               l ← lift (dict_getitem k d);
               o ← read l;
               lift (parser_add_argument argparse p (add_argument_call o))) ks p
  end.

End Parser.

(* ===================================================================== *)
(** ** make_options *)
(* ===================================================================== *)

(** The binding of the global name [optparse] that [make_options]
    reads: [None] when the module namespace has no such name, else what
    [optparse.make_option] does with a call. *)
Definition optparse_binding : Type := option (cli_argument -> result cli_argument).

(** The binding in this module.  Its import block names [copy],
    [inspect], [argparse], [os], [textwrap], [types], [__version__],
    [SERVER_NAME] and [system]; the star import of [py2py3], whose
    source is not at hand, is taken to bring in its compatibility
    helpers only ([string_type], [int_type], [to_string], ...).  No
    statement binds [optparse]. *)
Definition module_optparse : optparse_binding := None.

Definition make_option_call (o : Setting.object) : cli_argument :=
  let c := Setting.cls o in
  let action := or_str (Setting.action c) (Some "store") in
  let kw : kwargs :=
    [("dest", kw_str (Setting.name c));
     ("metavar", kw_str (or_str (Setting.meta c) None));
     ("action", kw_str action);
     ("type", kw_type (if truthy_type (Setting.type c)
                       then default (type_name "string") (Setting.type c)
                       else type_name "string"));
     ("default", kw_val PNone);
     ("help", kw_fmt "%s [%s]"
                [str_val (Setting.get_short o); Setting.default c])] in
  let kw := if negb (is_store action) then kwargs_pop "type" kw else kw in
  (default [] (Setting.cli c), kw).

Definition make_options (optparse : optparse_binding) : M (list cli_argument) :=
  g_settings ← make_settings None None (Some ["version"]);
  foldM (fun opts k =>
           l ← lift (dict_getitem k g_settings);
           setting ← read l;
           if negb (truthy_cli (Setting.cli (Setting.cls setting))) then mret opts
           else
             match optparse with
             | None =>
                 raise (Exn NameError "name '%s' is not defined" [PStr "optparse"])
             | Some make_option =>
                 opt ← lift (make_option (make_option_call setting));
                 mret (opts ++ [opt])
             end)
        (dict_keys g_settings) [].

(* ===================================================================== *)
(** ** The settings declared by the module *)
(* ===================================================================== *)

(** The double quote character, for the help texts that contain it. *)
Definition dq : string := String (ascii_of_nat 34%nat) EmptyString.

(** The default hooks: plain functions of one or two parameters. *)
Definition def_start_server : pyval := PFun true 1.
Definition def_pre_exec : pyval := PFun true 1.
Definition default_process : pyval := PFun true 1.
Definition def_pre_request : pyval := PFun true 2.
Definition def_post_request : pyval := PFun true 2.
Definition def_worker_exit : pyval := PFun true 1.

Section ModuleBody.

Variable dedent : string -> string.
(** [pulsar.SERVER_NAME], a string. *)
Variable SERVER_NAME : string.

Definition ConfigFile_attrs : list attr :=
  [a_name (Some "config");
   a_section (Some "Config File");
   a_cli (Some ["-c"; "--config"]);
   a_meta (Some "FILE");
   a_validator validate_string;
   a_default (PStr "config.py");
   a_desc (Some "        The path to a Pulsar config file.
        
        Only has an effect when specified on the command line or as part of an
        application specific configuration.    
        ")].

Definition Workers_attrs : list attr :=
  [a_name (Some "workers");
   a_section (Some "Worker Processes");
   a_cli (Some ["-w"; "--workers"]);
   a_validator validate_pos_int;
   a_type (Some py_int);
   a_default (PInt 1);
   a_desc (Some "        The number of worker process for handling requests.
        
If you are using a multi-process concurrency, a number in the
the 2-4 x $(NUM_CORES) range should be good. If you are using threads this
number can be higher.")].

Definition Concurrency_attrs : list attr :=
  [a_name (Some "concurrency");
   a_section (Some "Worker Processes");
   a_cli (Some ["--concurrency"]);
   a_default (PStr "process");
   a_desc (Some "        The type of concurrency to use: ``process`` or ``thread``.
        ")].

Definition MaxRequests_attrs : list attr :=
  [a_name (Some "max_requests");
   a_section (Some "Worker Processes");
   a_cli (Some ["--max-requests"]);
   a_validator validate_pos_int;
   a_type (Some py_int);
   a_default (PInt 0);
   a_desc (Some "        The maximum number of requests a worker will process before restarting.
        
        Any value greater than zero will limit the number of requests a work
        will process before automatically restarting. This is a simple method
        to help limit the damage of memory leaks.
        
        If this is set to zero (the default) then the automatic worker
        restarts are disabled.
        ")].

Definition Timeout_attrs : list attr :=
  [a_name (Some "timeout");
   a_section (Some "Worker Processes");
   a_cli (Some ["-t"; "--timeout"]);
   a_validator validate_pos_int;
   a_type (Some py_int);
   a_default (PInt 30);
   a_desc (Some "        Workers silent for more than this many seconds are killed and restarted.
        
        Generally set to thirty seconds. Only set this noticeably higher if
        you're sure of the repercussions for sync workers. For the non sync
        workers it just means that the worker process is still communicating and
        is not tied to the length of time required to handle a single request.
        ")].

Definition Keepalive_attrs : list attr :=
  [a_name (Some "keepalive");
   a_section (Some "Worker Processes");
   a_cli (Some ["--keep-alive"]);
   a_validator validate_pos_int;
   a_type (Some py_int);
   a_default (PInt 2);
   a_desc (Some "        The number of seconds to wait for requests on a Keep-Alive connection.
        
        Generally set in the 1-5 seconds range.    
        ")].

Definition HttpProxyServer_attrs : list attr :=
  [a_name (Some "http_proxy");
   a_section (Some "Http Client");
   a_cli (Some ["--http-proxy"]);
   a_default (PStr "");
   a_desc (Some "        The HTTP proxy server to use with HttpClient.    
        ")].

Definition Debug_attrs : list attr :=
  [a_name (Some "debug");
   a_section (Some "Debugging");
   a_cli (Some ["--debug"]);
   a_validator validate_bool;
   a_action (Some "store_true");
   a_default (PBool false);
   a_desc (Some "        Turn on debugging in the server.
        
        This limits the number of worker processes to 1 and changes some error
        handling that's sent to clients.
        ")].

Definition Daemon_attrs : list attr :=
  [a_name (Some "daemon");
   a_section (Some "Server Mechanics");
   a_cli (Some ["-D"; "--daemon"]);
   a_validator validate_bool;
   a_action (Some "store_true");
   a_default (PBool false);
   a_desc (Some "        Daemonize the Pulsar process.
        
        Detaches the server from the controlling terminal and enters the
        background.
        ")].

Definition Pidfile_attrs : list attr :=
  [a_name (Some "pidfile");
   a_section (Some "Server Mechanics");
   a_cli (Some ["-p"; "--pid"]);
   a_meta (Some "FILE");
   a_validator validate_string;
   a_default (PNone);
   a_desc (Some "        A filename to use for the PID file.
        
        If not set, no PID file will be written.
        ")].

Definition User_attrs : list attr :=
  [a_name (Some "user");
   a_section (Some "Server Mechanics");
   a_cli (Some ["-u"; "--user"]);
   a_meta (Some "USER");
   a_validator validate_string;
   a_default (PNone);
   a_desc (Some "        Switch worker processes to run as this user.
        
        A valid user id (as an integer) or the name of a user that can be
        retrieved with a call to pwd.getpwnam(value) or None to not change
        the worker process user.
        ")].

Definition Group_attrs : list attr :=
  [a_name (Some "group");
   a_section (Some "Server Mechanics");
   a_cli (Some ["-g"; "--group"]);
   a_meta (Some "GROUP");
   a_validator validate_string;
   a_default (PNone);
   a_desc (Some "        Switch worker process to run as this group.
        
        A valid group id (as an integer) or the name of a user that can be
        retrieved with a call to pwd.getgrnam(value) or None to not change
        the worker processes group.
        ")].

Definition Umask_attrs : list attr :=
  [a_name (Some "umask");
   a_section (Some "Server Mechanics");
   a_cli (Some ["-m"; "--umask"]);
   a_validator validate_pos_int;
   a_type (Some py_int);
   a_default (PInt 0);
   a_desc (Some ("        A bit mask for the file mode on files written by Gunicorn.
        
        Note that this affects unix socket permissions.
        
        A valid value for the os.umask(mode) call or a string compatible with
        int(value, 0) (0 means Python guesses the base, so values like " ++ dq ++ "0" ++ dq ++ ",
        " ++ dq ++ "0xFF" ++ dq ++ ", " ++ dq ++ "0022" ++ dq ++ " are valid for decimal, hex, and octal representations)
        ")%string)].

Definition TmpUploadDir_attrs : list attr :=
  [a_name (Some "tmp_upload_dir");
   a_section (Some "Server Mechanics");
   a_meta (Some "DIR");
   a_validator validate_string;
   a_default (PNone);
   a_desc (Some "        Directory to store temporary request data as they are read.
        
        This may disappear in the near future.
        
        This path should be writable by the process permissions set for Gunicorn
        workers. If not specified, Gunicorn will choose a system generated
        temporary directory.
        ")].

Definition Loglevel_attrs : list attr :=
  [a_name (Some "loglevel");
   a_section (Some "Logging");
   a_cli (Some ["--log-level"]);
   a_meta (Some "LEVEL");
   a_validator validate_string;
   a_default (PStr "info");
   a_desc (Some "The granularity of log outputs.
        
Valid level names are:

 * debug
 * info
 * warning
 * error
 * critical
 ")].

Definition LogEvery_attrs : list attr :=
  [a_name (Some "logevery");
   a_section (Some "Logging");
   a_cli (Some ["--log-every"]);
   a_validator validate_pos_int;
   a_default (PInt 0);
   a_desc (Some "Log information every n seconds")].

Definition LogConfig_attrs : list attr :=
  [a_name (Some "logconfig");
   a_section (Some "Logging");
   a_default (PNone);
   a_desc (Some "
    The logging configuration dictionary.
    
    This settings can only be specified on a config file
    ")].

Definition Procname_attrs : list attr :=
  [a_name (Some "proc_name");
   a_section (Some "Process Naming");
   a_cli (Some ["-n"; "--name"]);
   a_meta (Some "STRING");
   a_validator validate_string;
   a_default (PNone);
   a_desc (Some "        A base to use with setproctitle for process naming.
        
        This affects things like ``ps`` and ``top``. If you're going to be
        running more than one instance of Pulsar you'll probably want to set a
        name to tell them apart. This requires that you install the setproctitle
        module.
        
        It defaults to 'pulsar'.
        ")].

Definition DefaultProcName_attrs : list attr :=
  [a_name (Some "default_proc_name");
   a_section (Some "Process Naming");
   a_validator validate_string;
   a_default (PStr SERVER_NAME);
   a_desc (Some "        Internal setting that is adjusted for each type of application.
        ")].

Definition WhenReady_attrs : list attr :=
  [a_name (Some "when_ready");
   a_section (Some "Server Hooks");
   a_validator (validate_callable 1);
   a_type (Some (type_name "callable"));
   a_default (def_start_server);
   a_desc (Some "        Called just after the server is started.
        
        The callable needs to accept a single instance variable for the Arbiter.
        ")].

Definition Prefork_attrs : list attr :=
  [a_name (Some "pre_fork");
   a_section (Some "Server Hooks");
   a_validator (validate_callable 1);
   a_default (default_process);
   a_type (Some (type_name "callable"));
   a_desc (Some "        Called just before a worker is forked.
        
        The callable needs to accept two instance variables for the Arbiter and
        new Worker.
        ")].

Definition Postfork_attrs : list attr :=
  [a_name (Some "post_fork");
   a_section (Some "Server Hooks");
   a_validator (validate_callable 1);
   a_type (Some (type_name "callable"));
   a_default (default_process);
   a_desc (Some "        Called just after a worker has been forked.
        
        The callable needs to accept two instance variables for the Arbiter and
        new Worker.
        ")].

Definition PreExec_attrs : list attr :=
  [a_name (Some "pre_exec");
   a_section (Some "Server Hooks");
   a_validator (validate_callable 1);
   a_type (Some (type_name "callable"));
   a_default (def_pre_exec);
   a_desc (Some "        Called just before a new master process is forked.
        
        The callable needs to accept a single instance variable for the Arbiter.
        ")].

Definition PreRequest_attrs : list attr :=
  [a_name (Some "pre_request");
   a_section (Some "Server Hooks");
   a_validator (validate_callable 2);
   a_type (Some (type_name "callable"));
   a_default (def_pre_request);
   a_desc (Some "        Called just before a worker processes the request.
        
        The callable needs to accept two instance variables for the Worker and
        the Request.
        ")].

Definition PostRequest_attrs : list attr :=
  [a_name (Some "post_request");
   a_section (Some "Server Hooks");
   a_validator (validate_callable 2);
   a_type (Some (type_name "callable"));
   a_default (def_post_request);
   a_desc (Some "        Called after a worker processes the request.

        The callable needs to accept two instance variables for the Worker and
        the Request.
        ")].

Definition WorkerExit_attrs : list attr :=
  [a_name (Some "worker_exit");
   a_section (Some "Server Hooks");
   a_validator (validate_callable 1);
   a_type (Some (type_name "callable"));
   a_default (def_worker_exit);
   a_desc (Some "        Called just after a worker has been exited.

        The callable needs to accept two instance variables for the Arbiter and
        the just-exited Worker.
        ")].

Definition module_classes : list (string * list attr) :=
  [("ConfigFile", ConfigFile_attrs);
   ("Workers", Workers_attrs);
   ("Concurrency", Concurrency_attrs);
   ("MaxRequests", MaxRequests_attrs);
   ("Timeout", Timeout_attrs);
   ("Keepalive", Keepalive_attrs);
   ("HttpProxyServer", HttpProxyServer_attrs);
   ("Debug", Debug_attrs);
   ("Daemon", Daemon_attrs);
   ("Pidfile", Pidfile_attrs);
   ("User", User_attrs);
   ("Group", Group_attrs);
   ("Umask", Umask_attrs);
   ("TmpUploadDir", TmpUploadDir_attrs);
   ("Loglevel", Loglevel_attrs);
   ("LogEvery", LogEvery_attrs);
   ("LogConfig", LogConfig_attrs);
   ("Procname", Procname_attrs);
   ("DefaultProcName", DefaultProcName_attrs);
   ("WhenReady", WhenReady_attrs);
   ("Prefork", Prefork_attrs);
   ("Postfork", Postfork_attrs);
   ("PreExec", PreExec_attrs);
   ("PreRequest", PreRequest_attrs);
   ("PostRequest", PostRequest_attrs);
   ("WorkerExit", WorkerExit_attrs)].

(** Before the first class statement: [KNOWN_SETTINGS = []],
    [KNOWN_SETTINGS_SET = set()]. *)
Definition empty_world : world := World [] [] [].

(** The class statements of the module, in order; each one subclasses
    [Setting]. *)
Definition declare_module : M unit :=
  foldM (fun _ c =>
           _ ← SettingMeta_new dedent (fst c) Setting_class (snd c);
           mret tt)
        module_classes tt.

(** The module state once the module is imported. *)
Definition module_world : world := snd (declare_module empty_world).

End ModuleBody.

(* ===================================================================== *)
(** ** Notions used in the statements: integer literals *)
(* ===================================================================== *)

(** A character is a digit of the base. *)
Definition is_digit_of (base : Z) (c : ascii) : bool :=
  match digit_value c with
  | Some d => d <? base
  | None => false
  end.

(** The number a sequence of digits denotes in the base. *)
Definition digits_value (base : Z) (ds : list ascii) : Z :=
  fold_left (fun acc c => acc * base + default 0 (digit_value c)) ds 0.

(** The base prefixes of integer literals. *)
Definition base_prefixes : list (string * Z) :=
  [("0x", 16); ("0X", 16); ("0o", 8); ("0O", 8); ("0b", 2); ("0B", 2)].

(* ===================================================================== *)
(** ** Notions used in the statements: what make_settings keeps *)
(* ===================================================================== *)

(** A descriptor is scoped to an application: its [app] is set. *)
Definition app_scoped (c : Setting.class) : bool := truthy_str (Setting.app c).

(** The conditions under which the loop of [make_settings] keeps a
    class: its [app] is unset or is the requested one; when [include]
    is given and not empty, its name is in it or the class is
    app-scoped; its name is not excluded. *)
Definition selected (app : option string) (include : option (list string))
    (exclude : list string) (c : Setting.class) : bool :=
  (negb (app_scoped c) || bool_decide (Setting.app c = app))
  && (negb (truthy_names include)
      || name_in (Setting.name c) (default [] include)
      || app_scoped c)
  && negb (name_in (Setting.name c) exclude).

(** The same conditions as the specification words them: [include]
    filters as soon as it is given. *)
Definition selected_as_specified (app : option string)
    (include : option (list string)) (exclude : list string)
    (c : Setting.class) : bool :=
  (negb (app_scoped c) || bool_decide (Setting.app c = app))
  && match include with
     | Some names => name_in (Setting.name c) names || app_scoped c
     | None => true
     end
  && negb (name_in (Setting.name c) exclude).

(** The last registered class of a given name that is selected. *)
Definition last_selected (app : option string) (include : option (list string))
    (exclude : list string) (k : option string) (known : list Setting.class)
    : option Setting.class :=
  last (List.filter (fun c => selected app include exclude c
                         && bool_decide (Setting.name c = k)) known).

(** The value [__init__] binds: none for a default of [None], else the
    validator's output on the default. *)
Definition init_value (c : Setting.class) : result (option pyval) :=
  if is_none (Setting.default c) then Ok None
  else match Setting.validator c with
       | Some func => rbind (func (Setting.default c)) (fun v => Ok (Some v))
       | None => Raise (Exn TypeError "Invalid validator: %s"
                            [str_val (Setting.name c)])
       end.

(** A class can be instantiated: [__init__] does not raise. *)
Definition instantiable (c : Setting.class) : bool :=
  match init_value c with
  | Ok _ => true
  | Raise _ => false
  end.

(** The instance [__init__] leaves behind. *)
Definition new_object (c : Setting.class) (v : option pyval) : Setting.object :=
  let o0 := Setting.Object c v None None in
  let o1 := Setting.with_short o0 (or_str (Setting.get_short o0) (Setting.get_desc o0)) in
  Setting.with_desc o1 (or_str (Setting.get_desc o1) (Setting.get_short o1)).

Definition initialised (c : Setting.class) : Setting.object :=
  new_object c (match init_value c with Ok v => v | Raise _ => None end).

(** A state with another store. *)
Definition with_store (w : world) (s : list Setting.object) : world :=
  World (KNOWN_SETTINGS w) (KNOWN_SETTINGS_SET w) s.

(** What the loop of [make_settings] computes when every class can be
    instantiated, as plain functions: each class takes one location for
    its instance and, when it is kept, the next one for the copy that
    goes into the dictionary. *)
Fixpoint loop_dict (keep : Setting.class -> bool) (known : list Setting.class)
    (settings : settings_dict) (n : nat) : settings_dict :=
  match known with
  | [] => settings
  | c :: known' =>
      if keep c
      then loop_dict keep known' (dict_set (Setting.name c) (S n) settings) (S (S n))
      else loop_dict keep known' settings (S n)
  end.

Fixpoint loop_store (keep : Setting.class -> bool) (known : list Setting.class)
    : list Setting.object :=
  match known with
  | [] => []
  | c :: known' =>
      (if keep c then [initialised c; initialised c] else [initialised c])
      ++ loop_store keep known'
  end.

(** Some registered class that the call [make_settings(exclude=('version',))]
    of [make_options] keeps under the name [k] has command-line flags. *)
Definition kept_with_flags (w : world) (k : option string) : bool :=
  match last_selected None None ["version"] k (KNOWN_SETTINGS w) with
  | Some c => truthy_cli (Setting.cli c)
  | None => false
  end.

(** The body of a class statement does not ask for a virtual class. *)
Definition not_virtual (attrs : list attr) : bool :=
  negb (match attrs_get sel_virtual attrs with Some b => b | None => false end).

(* ===================================================================== *)
(** ** Notions used in the statements: bound settings, attributes and the parser *)
(* ===================================================================== *)

(** The object a dictionary binds to a key, and its sorting key. *)
Definition bound_object (w : world) (d : settings_dict) (k : option string)
    : option Setting.object :=
  match dict_get k d with
  | Some l => store w !! l
  | None => None
  end.

Definition bound_key (w : world) (d : settings_dict) (k : option string) : sort_key :=
  match bound_object w d k with
  | Some o => sorter_of o
  | None => (None, 0%nat)
  end.

(** The argument a bound setting adds to the parser, if any. *)
Definition bound_argument (w : world) (d : settings_dict) (k : option string)
    : option cli_argument :=
  match bound_object w d k with
  | Some o => add_argument_call o
  | None => None
  end.

(** The current value of the setting a dictionary binds to a name. *)
Definition setting_value (w : world) (d : settings_dict) (n : string) : option pyval :=
  match dict_get (Some n) d with
  | Some l => option_map Setting.get_value (store w !! l)
  | None => None
  end.

(** The class and the value of the object a dictionary binds to a name. *)
Definition bound_class_value (w : world) (d : settings_dict) (n : string)
    : option (string * pyval) :=
  match dict_get (Some n) d with
  | Some l =>
      option_map (fun o => (Setting.classname (Setting.cls o), Setting.get_value o))
                 (store w !! l)
  | None => None
  end.

(** The identity of the list object a value refers to. *)
Definition list_identity (v : pyval) : option loc :=
  match v with
  | PList id _ => Some id
  | _ => None
  end.

(** The class has no data descriptor under the name: no property and
    none of the descriptors every instance has. *)
Definition no_data_descriptor (name : string) : bool :=
  match Config_class name with
  | Some (Property _) | Some ObjectSlot => false
  | _ => true
  end.

(** The call that adds the version flag. *)
Definition version_call (version : string) : cli_argument :=
  (["--version"],
   [("action", kw_str (Some "version")); ("version", kw_str (Some version))]).

(** Calls offered to a parser one after the other, up to the first
    one it refuses: the calls it has accepted in the end, or the
    failure of the call it refused. *)
Fixpoint offer (argparse : argparse_library) (accepted calls : list cli_argument)
    : result (list cli_argument) :=
  match calls with
  | [] => Ok accepted
  | call :: rest =>
      rbind (argparse accepted call) (fun _ =>
        offer argparse (accepted ++ [call]) rest)
  end.

(** The parser accepts every call of a sequence in its turn. *)
Definition accepts_all (argparse : argparse_library) (calls : list cli_argument)
    : Prop :=
  forall before call after,
    calls = before ++ call :: after -> argparse before call = Ok tt.

(** The keys are ordered by their sorting keys. *)
Definition keys_le (w : world) (d : settings_dict) (a b : option string) : Prop :=
  key_le (bound_key w d a) (bound_key w d b) = true.

(** Decorated items are ordered by their keys. *)
Definition le_by_key {A} (x y : sort_key * A) : Prop :=
  key_le (fst x) (fst y) = true.

(** No [None] section meets a string section among the bound settings. *)
Definition sections_comparable (w : world) (d : settings_dict) : bool :=
  negb (existsb (fun k => match fst (bound_key w d k) with None => true | Some _ => false end)
                (dict_keys d)
        && existsb (fun k => match fst (bound_key w d k) with None => false | Some _ => true end)
                   (dict_keys d)).

(** Every key of the dictionary is bound to an object of the store. *)
Definition objects_in_store (w : world) (d : settings_dict) : bool :=
  forallb (fun k => match bound_object w d k with Some _ => true | None => false end)
          (dict_keys d).

(** A setting has a place on the command line: flags, or an arity and
    a name. *)
Definition has_cli_surface (o : Setting.object) : bool :=
  truthy_cli (Setting.cli (Setting.cls o))
  || (truthy (Setting.nargs (Setting.cls o))
      && truthy_str (Setting.name (Setting.cls o))).

(** The calls a parser built by [Config.parser] has received. *)
Definition parser_calls (system : System) (argparse : argparse_library)
    (version : string) (self : instance) (w : world)
    : option (list cli_argument) :=
  match fst (Config_parser system argparse version self w) with
  | Ok p => Some (parser_arguments p)
  | Raise _ => None
  end.

(** The option strings of a call: its positional arguments, unless the
    call has a single one that does not start with a dash (which names
    a positional argument of the command line). *)
Definition starts_with_dash (s : string) : bool :=
  match s with
  | String c _ => Ascii.eqb c "-"%char
  | EmptyString => false
  end.

Definition option_strings (call : cli_argument) : list string :=
  match fst call with
  | [a] => if starts_with_dash a then [a] else []
  | args => args
  end.

(** The option strings a new parser has already: those of its help
    flag. *)
Definition help_flags : list string := ["-h"; "--help"].

(** A parser for the examples: it refuses an option string it has
    already, as [argparse] does, and accepts every other call. *)
Definition sample_argparse : argparse_library := fun accepted call =>
  match List.filter (fun a => bool_decide
                         (a ∈ help_flags ++ concat (map option_strings accepted)))
                    (option_strings call) with
  | [] => Ok tt
  | conflicts =>
      Raise (Exn ArgumentError "conflicting option string(s): %s"
               (map PStr conflicts))
  end.

(** The first flag of each call, in order. *)
Definition first_flags (calls : list cli_argument) : list string :=
  map (fun call => hd "" (fst call)) calls.

(** The failure of a read of the unbound global [optparse]. *)
Definition NameError_optparse : exn :=
  Exn NameError "name '%s' is not defined" [PStr "optparse"].

(** [optparse] bound to a [make_option] that records its call. *)
Definition recording_optparse : optparse_binding := Some (fun call => Ok call).

(* ===================================================================== *)
(** ** Sample states *)
(* ===================================================================== *)

(** What a computation returns, or a fallback when it raises. *)
Definition returned {A} (fallback : A) (r : result A * world) : A :=
  match fst r with
  | Ok a => a
  | Raise _ => fallback
  end.

(** The module state for one choice of the two names the module takes
    from outside: no dedenting and the server name ["pulsar"]. *)
Definition sample_world : world := module_world (fun s => s) "pulsar".

(** Collaborators that hand back what they are given. *)
Definition sample_system : System :=
  {| load_worker_class := fun v => Ok v;
     has_setup_class := fun _ => false;
     setup_class := fun _ => Ok tt;
     parse_address := fun v => Ok v;
     get_uid := fun v => Ok v;
     get_gid := fun v => Ok v;
     to_bytestring := fun v => Ok v |}.

(** The registered class of a given name (the first one). *)
Definition class_named (w : world) (n : string) : option Setting.class :=
  find (fun c => bool_decide (Setting.name c = Some n)) (KNOWN_SETTINGS w).

(** The class names registered under a setting name, in order. *)
Definition classes_named (w : world) (n : string) : list string :=
  map Setting.classname
      (List.filter (fun c => bool_decide (Setting.name c = Some n)) (KNOWN_SETTINGS w)).

(** What a class statement produced: the class name, the setting name
    and the order of the new class, when the statement did not raise. *)
Definition declared (r : result Setting.class * world)
    : option (string * option string * nat) :=
  match fst r with
  | Ok c => Some (Setting.classname c, Setting.name c, Setting.order c)
  | Raise _ => None
  end.

(** [s().set(raw)] for the registered class [s] of the given name: what
    the call returns or raises. *)
Definition set_on_new (w : world) (n : string) (raw : pyval) : option (result unit) :=
  match class_named w n with
  | Some c =>
      match Setting_new c w with
      | (Ok l, w1) => Some (fst (Setting_set l raw w1))
      | (Raise e, _) => Some (Raise e)
      end
  | None => None
  end.

(** A registry that holds the class [Workers] alone, and [Config()] on
    it: the instance, the state after, and the object bound to
    ["workers"]. *)
Definition workers_world : world :=
  snd (SettingMeta_new (fun s => s) "Workers" Setting_class Workers_attrs empty_world).
Definition workers_config : instance :=
  returned ∅ (Config_init PNone PNone None None None workers_world).
Definition workers_config_world : world :=
  snd (Config_init PNone PNone None None None workers_world).
Definition workers_object : Setting.object :=
  nth 1 (store workers_config_world) (Setting.Object Setting_class None None None).

(** [Config()] on the module state. *)
Definition module_config : instance :=
  returned ∅ (Config_init PNone PNone None None None sample_world).
Definition module_config_world : world :=
  snd (Config_init PNone PNone None None None sample_world).

(** The bound settings of [Config()] on the module state. *)
Definition module_settings : settings_dict :=
  returned [] (make_settings None None None sample_world).

(** [Config(exclude=["workers", "debug"])] on the module state: the
    dictionary of bound settings, the instance and the state after. *)
Definition excluded_settings : settings_dict :=
  returned [] (make_settings None None (Some ["workers"; "debug"]) sample_world).
Definition excluded_config : instance :=
  returned ∅ (Config_init PNone PNone None None (Some ["workers"; "debug"])
                sample_world).
Definition excluded_config_world : world :=
  snd (Config_init PNone PNone None None (Some ["workers"; "debug"]) sample_world).

(** A second [Config()] on the module's registry, after the first, then
    [set("timeout", 10)] on the first and [set("timeout", 60)] on the
    second. *)
Definition second_config : instance :=
  returned ∅ (Config_init PNone PNone None None None module_config_world).
Definition second_config_world : world :=
  snd (Config_init PNone PNone None None None module_config_world).
Definition timeout_after : world :=
  snd (Config_set second_config "timeout" (PInt 60)
         (snd (Config_set module_config "timeout" (PInt 10) second_config_world))).

(** A descriptor with a list default, as an application declares one
    with [validate_list]; the list object has identity 7. *)
Definition Hosts_attrs : list attr :=
  [a_name (Some "hosts");
   a_section (Some "Hosts");
   a_validator validate_list;
   a_default (PList 7%nat [PStr "localhost"]);
   a_desc (Some "Hosts to serve.")].

Definition hosts_world : world :=
  snd (SettingMeta_new (fun s => s) "Hosts" Setting_class Hosts_attrs empty_world).

(** Two calls of [make_settings] on that registry: the dictionaries and
    the state after both. *)
Definition hosts_first : settings_dict :=
  returned [] (make_settings None None None hosts_world).
Definition hosts_second : settings_dict :=
  returned [] (make_settings None None None
                 (snd (make_settings None None None hosts_world))).
Definition hosts_after : world :=
  snd (make_settings None None None
         (snd (make_settings None None None hosts_world))).

(** A second class that declares the name ["workers"], after the
    module's own, and the state once it is declared. *)
Definition Workers2_attrs : list attr :=
  [a_name (Some "workers");
   a_section (Some "Worker Processes");
   a_validator validate_pos_int;
   a_default (PInt 8);
   a_desc (Some "A second declaration of workers.")].

Definition redeclared : result Setting.class * world :=
  SettingMeta_new (fun s => s) "Workers2" Setting_class Workers2_attrs sample_world.

(* ===================================================================== *)
(** ** Further notions: validators *)
(* ===================================================================== *)

(** The validators the module defines. *)
Inductive module_validator : (pyval -> result pyval) -> Prop :=
| mv_bool : module_validator validate_bool
| mv_pos_int : module_validator validate_pos_int
| mv_string : module_validator validate_string
| mv_list : module_validator validate_list
| mv_callable (arity : Z) : module_validator (validate_callable arity).

(** A sequence of characters has no whitespace at either end. *)
Definition trimmed_chars (cs : list ascii) : bool :=
  match cs with [] => true | c :: _ => negb (is_space c) end
  && match rev cs with [] => true | c :: _ => negb (is_space c) end.

Definition trimmed (s : string) : bool := trimmed_chars (list_ascii_of_string s).

(* ===================================================================== *)
(** ** Further notions: the registry *)
(* ===================================================================== *)

(** [KNOWN_SETTINGS_SET.add(n)] on the set kept as a list. *)
Definition set_add (n : string) (names : list string) : list string :=
  if bool_decide (n ∈ names) then names else names ++ [n].

(** The names a sequence of registrations has put into
    [KNOWN_SETTINGS_SET]: the names that are not empty, once each. *)
Definition registered_names (known : list Setting.class) : list string :=
  fold_left (fun names c =>
               match Setting.name c with
               | Some n => if String.eqb n "" then names else set_add n names
               | None => names
               end) known [].

Definition is_some {A} (o : option A) : bool :=
  match o with Some _ => true | None => false end.

(** A value that is no container and cannot be iterated: [None], a
    boolean, an integer or a plain function.  (Strings, lists, and
    the dictionaries, tuples and sets the model leaves out, are
    containers; an object called through [__call__] may be one.) *)
Definition not_a_container (v : pyval) : bool :=
  match v with
  | PNone | PBool _ | PInt _ | PFun true _ => true
  | _ => false
  end.

(** The registry is as class statements leave it: the order of each
    class is its position, each class has a callable validator and its
    help texts, and [KNOWN_SETTINGS_SET] holds the registered names. *)
Definition registry_wf (w : world) : bool :=
  bool_decide (map Setting.order (KNOWN_SETTINGS w)
               = seq 0 (length (KNOWN_SETTINGS w)))
  && forallb (fun c => is_some (Setting.validator c)
                       && is_some (Setting.desc c)
                       && is_some (Setting.short c)) (KNOWN_SETTINGS w)
  && bool_decide (KNOWN_SETTINGS_SET w = registered_names (KNOWN_SETTINGS w)).

(** A descriptor whose default does not pass its validator, declared
    after the module's own, and the state once it is declared. *)
Definition Broken_attrs : list attr :=
  [a_name (Some "broken");
   a_section (Some "Broken");
   a_validator validate_pos_int;
   a_default (PInt (-1));
   a_desc (Some "A default that is not valid.")].

Definition broken_class : Setting.class :=
  returned Setting_class
    (SettingMeta_new (fun s => s) "Broken" Setting_class Broken_attrs sample_world).

Definition broken_world : world :=
  snd (SettingMeta_new (fun s => s) "Broken" Setting_class Broken_attrs sample_world).

(** A descriptor named like an attribute [Config.__init__] assigns,
    declared after [Workers]; the settings [Config()] builds then. *)
Definition Description_attrs : list attr :=
  [a_name (Some "description");
   a_section (Some "Naming");
   a_validator validate_string;
   a_default (PStr "a server");
   a_desc (Some "A text about the server.")].

Definition description_world : world :=
  snd (SettingMeta_new (fun s => s) "Description" Setting_class Description_attrs
         workers_world).

Definition description_settings : settings_dict :=
  returned [] (make_settings None None None description_world).

(** The value an instance holds of its own is one its validator has
    returned; a state is validated when every instance of the store is. *)
Definition validated_value (o : Setting.object) : Prop :=
  match Setting.own_value o with
  | None => True
  | Some v =>
      exists func raw,
        Setting.validator (Setting.cls o) = Some func /\ func raw = Ok v
  end.

Definition validated (w : world) : Prop := Forall validated_value (store w).

(** A computation keeps the store validated, whether it returns or
    raises, and what it returns satisfies [Q]. *)
Definition keeps {A} (Q : A -> Prop) (m : M A) : Prop :=
  forall w, validated w ->
    validated (snd (m w)) /\ forall a, fst (m w) = Ok a -> Q a.

Definition anything {A} (a : A) : Prop := True.

(** [Config.__getstate__]: a copy of the instance [__dict__], a new
    dictionary with the same entries. *)
Definition Config_getstate (self : instance) : instance := self.

(** [state[key]] on the dictionary handed to [__setstate__]. *)
Definition state_getitem (key : string) (state : instance) : result slot :=
  match state !! key with
  | Some s => Ok s
  | None => Raise (Exn KeyError "%r" [PStr key])
  end.

(** [Config.__setstate__]: three stores into [self.__dict__], past
    [__setattr__]; the instance is returned as the call leaves it, also
    when a key is missing. *)
Definition Config_setstate (self state : instance) : result unit * instance :=
  match state_getitem "settings" state with
  | Raise e => (Raise e, self)
  | Ok s =>
      let self := <["settings" := s]> self in
      match state_getitem "description" state with
      | Raise e => (Raise e, self)
      | Ok v =>
          let self := <["description" := v]> self in
          match state_getitem "epilog" state with
          | Raise e => (Raise e, self)
          | Ok v => (Ok tt, <["epilog" := v]> self)
          end
      end
  end.

(** An instance as unpickling makes it before [__setstate__] runs. *)
Definition blank : instance := ∅.

Definition state_keys : list string := ["settings"; "description"; "epilog"].

(** [kwargs.get(k)] on the keyword arguments of a parser call. *)
Fixpoint kwargs_get (k : string) (d : kwargs) : option kwarg :=
  match d with
  | [] => None
  | (k', v) :: d' => if String.eqb k' k then Some v else kwargs_get k d'
  end.

(** The [type] keyword [add_argument] starts from. *)
Definition type_keyword (c : Setting.class) : option kwarg :=
  if truthy_type (Setting.type c) && type_is_not_string (Setting.type c)
  then option_map kw_type (Setting.type c)
  else None.

(** The first line of a text, as [fmt_desc] takes it:
    [lines[0]], or the empty string when there is no line. *)
Definition first_line (s : string) : string :=
  match splitlines s with
  | [] => ""
  | l :: _ => l
  end.

Definition no_linebreak (s : string) : bool :=
  forallb (fun c => negb (is_linebreak c)) (list_ascii_of_string s).

(** A descriptor whose class body gives no section, declared after
    [Workers], and [Config()] on that registry. *)
Definition Plain_attrs : list attr :=
  [a_name (Some "plain");
   a_desc (Some "A setting without a section.")].

Definition mixed_world : world :=
  snd (SettingMeta_new (fun s => s) "Plain" Setting_class Plain_attrs workers_world).

Definition mixed_config : instance :=
  returned ∅ (Config_init PNone PNone None None None mixed_world).

Definition mixed_config_world : world :=
  snd (Config_init PNone PNone None None None mixed_world).

Definition mixed_settings : settings_dict :=
  [(Some "workers", 1%nat); (Some "plain", 3%nat)].

(** A flag: one dash or more, and a name after them. *)
Fixpoint after_dashes (s : string) : string :=
  match s with
  | String c s' => if Ascii.eqb c "-"%char then after_dashes s' else s
  | EmptyString => EmptyString
  end.

Definition is_flag (s : string) : bool :=
  starts_with_dash s && negb (String.eqb (after_dashes s) "").

(** A call of the kind the settings of this module make on a parser,
    and the call for the version flag: flags as positional arguments
    and, as keywords, either [action='version'] with the version, or a
    destination that is a name, an action that is ['store'] or
    ['store_true'], [None] as default and a help text, with the builtin
    [int] as type before them, or no type. *)
Definition flag_keywords (kw : kwargs) : bool :=
  match map fst kw, kwargs_get "action" kw, kwargs_get "dest" kw,
        kwargs_get "default" kw, kwargs_get "type" kw with
  | ["action"; "version"], Some (kw_str (Some a)), None, None, None =>
      String.eqb a "version"
  | ["dest"; "action"; "default"; "help"], Some (kw_str (Some a)),
    Some (kw_str (Some n)), Some (kw_val PNone), None =>
      (String.eqb a "store" || String.eqb a "store_true")
      && negb (String.eqb n "")
  | ["type"; "dest"; "action"; "default"; "help"], Some (kw_str (Some a)),
    Some (kw_str (Some n)), Some (kw_val PNone), Some (kw_type py_int) =>
      String.eqb a "store" && negb (String.eqb n "")
  | _, _, _, _, _ => false
  end.

Definition flag_call (call : cli_argument) : bool :=
  match fst call with
  | [] => false
  | args => forallb is_flag args
  end
  && flag_keywords (snd call).

(** None of the option strings of the call is one the parser has
    already. *)
Definition fresh_flags (accepted : list cli_argument) (call : cli_argument)
    : bool :=
  forallb (fun a => negb (bool_decide
                            (a ∈ help_flags ++ flat_map option_strings accepted)))
          (option_strings call).

(** What the theorems on the module's own registry ask of [argparse]:
    that it accepts a call of this kind whose option strings it has not
    yet. *)
Definition accepts_flag_calls (argparse : argparse_library) : Prop :=
  forall accepted call,
    flag_call call = true ->
    fresh_flags accepted call = true ->
    argparse accepted call = Ok tt.

(** The call an instance of a registered class makes on the parser, and
    its option strings. *)
Definition class_call (c : Setting.class) : option cli_argument :=
  add_argument_call (initialised c).

Definition class_flags (c : Setting.class) : list string :=
  match class_call c with
  | Some call => option_strings call
  | None => []
  end.

(* ===================================================================== *)
(** * Properties *)
(* ===================================================================== *)

(** Unfolding of the monad and of the store operations. *)
Ltac munfold :=
  unfold mbind, M_bind, mret, M_ret, lift, raise, get_world, read, write, alloc.

(** A conjunction of closed equations, each settled by evaluation. *)
Ltac by_computation :=
  repeat match goal with
         | |- _ /\ _ => split; [vm_compute; reflexivity|]
         end;
  vm_compute; reflexivity.

(** ** Integer literals and validate_pos_int *)

Lemma digit_not_underscore base c :
  is_digit_of base c = true -> is_underscore c = false.
Proof.
  unfold is_digit_of, digit_value, is_underscore.
  destruct c as [[] [] [] [] [] [] [] []]; vm_compute; congruence.
Qed.

Lemma digit_value_is_digit base c :
  is_digit_of base c = true ->
  exists d, digit_value c = Some d /\ (d <? base) = true.
Proof.
  unfold is_digit_of. destruct (digit_value c) as [d|]; [eauto | discriminate].
Qed.

Lemma scan_digits_plain base ds : forall n acc,
  forallb (is_digit_of base) ds = true ->
  (ds <> [] \/ n <> O) ->
  scan_digits base false n acc ds
  = Some (fold_left (fun a c => a * base + default 0 (digit_value c)) ds acc).
Proof.
  induction ds as [|c ds IH]; intros n acc Hall Hne; simpl.
  - destruct Hne as [H|H]; [congruence|]. destruct n; congruence.
  - simpl in Hall. apply andb_true_iff in Hall as [Hc Hds].
    rewrite (digit_not_underscore _ _ Hc).
    destruct (digit_value_is_digit _ _ Hc) as (d & Hd & Hlt).
    rewrite Hd, Hlt. simpl. apply IH; [exact Hds | right; discriminate].
Qed.

Lemma int_digits_plain base ds :
  forallb (is_digit_of base) ds = true -> ds <> [] ->
  int_digits base ds = Some (digits_value base ds).
Proof.
  intros Hall Hne. destruct ds as [|c ds]; [congruence|].
  unfold int_digits. simpl in Hall. pose proof Hall as Hall'.
  apply andb_true_iff in Hall as [Hc _].
  rewrite (digit_not_underscore _ _ Hc).
  apply scan_digits_plain; [exact Hall' | left; discriminate].
Qed.

Lemma int_prefixed_plain base ds :
  forallb (is_digit_of base) ds = true -> ds <> [] ->
  int_prefixed base ds = Some (digits_value base ds).
Proof.
  intros Hall Hne. destruct ds as [|c ds]; [congruence|].
  unfold int_prefixed. pose proof Hall as Hall'. simpl in Hall.
  apply andb_true_iff in Hall as [Hc _].
  rewrite (digit_not_underscore _ _ Hc).
  apply int_digits_plain; [exact Hall' | discriminate].
Qed.

Lemma digit_not_int_space base c :
  is_digit_of base c = true -> is_int_space c = false.
Proof.
  unfold is_digit_of, digit_value, is_int_space.
  destruct c as [[] [] [] [] [] [] [] []]; vm_compute; congruence.
Qed.

Lemma lstrip_int_head c cs :
  is_int_space c = false -> lstrip_int (c :: cs) = c :: cs.
Proof. intros H. simpl. now rewrite H. Qed.

Lemma lstrip_int_rev_digits base ds pre :
  forallb (is_digit_of base) ds = true -> ds <> [] ->
  lstrip_int (rev (pre ++ ds)) = rev (pre ++ ds).
Proof.
  intros Hall Hne.
  destruct (exists_last Hne) as (ds' & c & ->).
  rewrite forallb_app in Hall. apply andb_true_iff in Hall as [_ Hc].
  simpl in Hc. rewrite andb_true_r in Hc.
  rewrite app_assoc, rev_unit.
  apply lstrip_int_head. eapply digit_not_int_space; eauto.
Qed.

Lemma strip_int_prefixed base c1 c2 ds :
  is_int_space c1 = false ->
  forallb (is_digit_of base) ds = true -> ds <> [] ->
  strip_int (c1 :: c2 :: ds) = c1 :: c2 :: ds.
Proof.
  intros H1 Hall Hne. unfold strip_int.
  rewrite (lstrip_int_head _ _ H1).
  change (c1 :: c2 :: ds) with ([c1; c2] ++ ds).
  rewrite (lstrip_int_rev_digits base ds [c1; c2] Hall Hne).
  apply rev_involutive.
Qed.

Lemma strip_int_literal base c2 ds :
  forallb (is_digit_of base) ds = true -> ds <> [] ->
  strip_int
    (list_ascii_of_string (String "0" (String c2 (string_of_list_ascii ds))))
  = "0"%char :: c2 :: ds.
Proof.
  intros Hall Hne.
  change (list_ascii_of_string (String "0" (String c2 (string_of_list_ascii ds))))
    with ("0"%char :: c2 :: list_ascii_of_string (string_of_list_ascii ds)).
  rewrite list_ascii_of_string_of_list_ascii.
  now apply (strip_int_prefixed base).
Qed.

Lemma int_base0_prefixed p base ds :
  In (p, base) base_prefixes ->
  forallb (is_digit_of base) ds = true -> ds <> [] ->
  int_base0 (p ++ string_of_list_ascii ds)%string = Some (digits_value base ds).
Proof.
  intros Hin Hall Hne. unfold int_base0.
  simpl in Hin.
  repeat (destruct Hin as [Hin|Hin];
    [ injection Hin as <- <-;
      match goal with
      | |- context [(String "0" (String ?c EmptyString) ++ ?s)%string] =>
          change (String "0" (String c EmptyString) ++ s)%string
            with (String "0" (String c s))
      end;
      rewrite (strip_int_literal _ _ _ Hall Hne);
      cbn; apply int_prefixed_plain; assumption | ]).
  destruct Hin.
Qed.

Lemma validate_pos_int_negative val z :
  pos_int_convert val = Ok z -> z < 0 ->
  validate_pos_int val = Raise (Exn ValueError "Value must be positive: %s" [PInt z]).
Proof.
  intros Hc Hz. unfold validate_pos_int. rewrite Hc. simpl.
  destruct (z <? 0) eqn:E; [reflexivity | apply Z.ltb_ge in E; lia].
Qed.

Lemma validate_pos_int_nonnegative val z :
  pos_int_convert val = Ok z -> 0 <= z ->
  validate_pos_int val = Ok (PInt z).
Proof.
  intros Hc Hz. unfold validate_pos_int. rewrite Hc. simpl.
  destruct (z <? 0) eqn:E; [apply Z.ltb_lt in E; lia | reflexivity].
Qed.

Lemma digits_value_nonneg base ds : 0 <= base -> 0 <= digits_value base ds.
Proof.
  intros Hb. unfold digits_value.
  assert (H : forall acc, 0 <= acc ->
    0 <= fold_left (fun a c => a * base + default 0 (digit_value c)) ds acc).
  { induction ds as [|c ds IH]; intros acc Hacc; simpl; [exact Hacc|].
    apply IH. assert (0 <= default 0 (digit_value c)).
    { unfold digit_value.
      destruct c as [[] [] [] [] [] [] [] []]; vm_compute; congruence. }
    nia. }
  apply H. lia.
Qed.

(** C8: [validate_pos_int] rejects ["-1"] and turns ["0x10"] into 16;
    a string made of a base prefix (0x, 0o, 0b, in either case) and
    digits of that base yields the number the digits denote; whenever
    the conversion yields a negative number the validator raises
    [ValueError], and what it returns is never negative. *)
Theorem validate_pos_int_literals :
  validate_pos_int (PStr "-1")
    = Raise (Exn ValueError "Value must be positive: %s" [PInt (-1)])
  /\ validate_pos_int (PStr "0x10") = Ok (PInt 16)
  /\ (forall p base ds,
        In (p, base) base_prefixes ->
        forallb (is_digit_of base) ds = true -> ds <> [] ->
        validate_pos_int (PStr (p ++ string_of_list_ascii ds)%string)
          = Ok (PInt (digits_value base ds)))
  /\ (forall val z,
        pos_int_convert val = Ok z -> z < 0 ->
        exists e, validate_pos_int val = Raise e /\ exn_class e = ValueError)
  /\ (forall val v,
        validate_pos_int val = Ok v -> exists z, v = PInt z /\ 0 <= z).
Proof.
  split; [reflexivity|]. split; [reflexivity|]. split; [|split].
  - intros p base ds Hin Hall Hne.
    apply validate_pos_int_nonnegative.
    + simpl. now rewrite (int_base0_prefixed p base ds Hin Hall Hne).
    + apply digits_value_nonneg.
      simpl in Hin. intuition (try congruence);
        match goal with H : (_, _) = (_, _) |- _ => injection H as <- <-; lia end.
  - intros val z Hc Hz. eexists. split.
    + apply validate_pos_int_negative; eassumption.
    + reflexivity.
  - intros val v H. unfold validate_pos_int in H.
    destruct (pos_int_convert val) as [z|e]; simpl in H; [|discriminate].
    destruct (z <? 0) eqn:E; [discriminate|].
    injection H as <-. exists z. split; [reflexivity|]. now apply Z.ltb_ge.
Qed.

Lemma validate_pos_int_literals_witness :
  validate_pos_int (PStr "0o17") = Ok (PInt 15)
  /\ (exists e, validate_pos_int (PStr " -0b101 ") = Raise e
                /\ exn_class e = ValueError)
  /\ (exists z, PInt 7 = PInt z /\ 0 <= z).
Proof.
  destruct validate_pos_int_literals as (_ & _ & Hp & Hn & Hr).
  split; [|split].
  - apply (Hp "0o" 8 ["1"%char; "7"%char]).
    + simpl. right. right. left. reflexivity.
    + reflexivity.
    + discriminate.
  - apply (Hn (PStr " -0b101 ") (-5)); [reflexivity | lia].
  - apply (Hr (PStr "+7") (PInt 7)). reflexivity.
Defined.

(** ** Setting.set *)

Lemma Setting_get_ok w self o :
  store w !! self = Some o ->
  Setting_get self w = (Ok (Setting.get_value o), w).
Proof. intros H. unfold Setting_get. munfold. now rewrite H. Qed.

Lemma Setting_set_ok w self o func raw v :
  store w !! self = Some o ->
  Setting.validator (Setting.cls o) = Some func ->
  func raw = Ok v ->
  Setting_set self raw w
  = (Ok tt, World (KNOWN_SETTINGS w) (KNOWN_SETTINGS_SET w)
              (<[self := Setting.with_value o v]> (store w))).
Proof.
  intros H Hf Hv. unfold Setting_set. munfold. rewrite H, Hf, Hv. reflexivity.
Qed.

Lemma Setting_set_raise w self o func raw e :
  store w !! self = Some o ->
  Setting.validator (Setting.cls o) = Some func ->
  func raw = Raise e ->
  Setting_set self raw w = (Raise e, w).
Proof.
  intros H Hf Hv. unfold Setting_set. munfold. rewrite H, Hf, Hv. reflexivity.
Qed.

Lemma validate_bool_failure raw e :
  validate_bool raw = Raise e -> exn_operands e = [raw].
Proof.
  unfold validate_bool. destruct raw; try (intros [= <-]; reflexivity); try discriminate.
  destruct (String.eqb _ _); [discriminate|].
  destruct (String.eqb _ _); [discriminate|]. intros [= <-]. reflexivity.
Qed.

(** C4 (as amended): [set(raw)] runs the validator on [raw].  When the
    validator returns, the stored value becomes its output and nothing
    else in the store or the registry changes.  When the validator
    raises, the whole state is left as it was and the failure raised is
    the validator's own, unchanged: nothing of the setting is added to
    it.  A failure of [validate_bool] carries the raw input. *)
Theorem Setting_set_validates (w : world) (self : loc) (o : Setting.object)
    (func : pyval -> result pyval) (raw : pyval) :
  store w !! self = Some o ->
  Setting.validator (Setting.cls o) = Some func ->
  (forall v, func raw = Ok v ->
     exists w', Setting_set self raw w = (Ok tt, w')
                /\ Setting_get self w' = (Ok v, w')
                /\ KNOWN_SETTINGS w' = KNOWN_SETTINGS w
                /\ forall l, l <> self -> store w' !! l = store w !! l)
  /\ (forall e, func raw = Raise e -> Setting_set self raw w = (Raise e, w))
  /\ (forall e, validate_bool raw = Raise e -> exn_operands e = [raw]).
Proof.
  intros H Hf. split; [|split].
  - intros v Hv. eexists. split; [eapply Setting_set_ok; eauto|].
    assert (Hlt : (self < length (store w))%nat) by (eapply lookup_lt_Some; eauto).
    split; [|split].
    + rewrite (Setting_get_ok _ self (Setting.with_value o v)); [reflexivity|].
      simpl. now apply list_lookup_insert_eq.
    + reflexivity.
    + intros l Hl. simpl. now apply list_lookup_insert_ne.
  - intros e He. eapply Setting_set_raise; eauto.
  - apply validate_bool_failure.
Qed.

(** C4 (counterexample): the settings [debug] and [daemon] of the module
    both answer [set("yes")] with the same failure, [ValueError] with
    the message ["Invalid boolean: %s" % "yes"]; it names neither. *)
Lemma Setting_set_failure_names_no_setting :
  set_on_new sample_world "debug" (PStr "yes")
    = Some (Raise (Exn ValueError "Invalid boolean: %s" [PStr "yes"]))
  /\ set_on_new sample_world "daemon" (PStr "yes")
    = Some (Raise (Exn ValueError "Invalid boolean: %s" [PStr "yes"])).
Proof. by_computation. Qed.

Lemma Setting_set_validates_witness :
  let c := super_new "Debug" Setting_class Debug_attrs in
  let o := Setting.Object c None None None in
  let w := World [] [] [o] in
  (forall v, validate_bool (PStr "true") = Ok v ->
     exists w', Setting_set 0%nat (PStr "true") w = (Ok tt, w')
                /\ Setting_get 0%nat w' = (Ok v, w')
                /\ KNOWN_SETTINGS w' = KNOWN_SETTINGS w
                /\ forall l, l <> 0%nat -> store w' !! l = store w !! l)
  /\ (forall e, validate_bool (PStr "true") = Raise e ->
       Setting_set 0%nat (PStr "true") w = (Raise e, w))
  /\ (forall e, validate_bool (PStr "true") = Raise e ->
       exn_operands e = [PStr "true"]).
Proof.
  intros c o w.
  apply (Setting_set_validates w 0%nat o validate_bool (PStr "true"));
    reflexivity.
Defined.

(** ** Config.set and the workers round trip *)

Lemma dict_get_Some_keys k d l : dict_get k d = Some l -> k ∈ dict_keys d.
Proof.
  induction d as [|[k' v] d IH]; simpl; [discriminate|].
  case_bool_decide as E.
  - intros _. subst. apply list_elem_of_here.
  - intros H. apply list_elem_of_further. now apply IH.
Qed.

Lemma dict_get_None_keys k d : dict_get k d = None -> k ∉ dict_keys d.
Proof.
  induction d as [|[k' v] d IH]; simpl.
  - intros _ H. inversion H.
  - case_bool_decide as E; [discriminate|].
    intros H Hin. apply IH in H. inversion Hin; subst; contradiction.
Qed.

Lemma contains_bound name d l :
  dict_get (Some name) d = Some l -> contains name (Settings d) = Ok true.
Proof.
  intros H. simpl. f_equal. apply bool_decide_eq_true.
  eapply dict_get_Some_keys; eauto.
Qed.

Lemma Config_set_bound w self d name l raw :
  self !! "settings" = Some (Settings d) ->
  dict_get (Some name) d = Some l ->
  Config_set self name raw w = Setting_set l raw w.
Proof.
  intros Hs Hd. unfold Config_set, self_settings. munfold.
  rewrite Hs, (contains_bound _ _ _ Hd). simpl. now rewrite Hd.
Qed.

(** C7: on a Config whose bound settings contain ["workers"], with the
    validator the module declares for it, [set("workers", "4")] returns
    and reading [workers] afterwards yields the integer 4. *)
Theorem Config_set_workers_roundtrip (system : System) (w : world)
    (self : instance) (d : settings_dict) (l : loc) (o : Setting.object) :
  self !! "settings" = Some (Settings d) ->
  dict_get (Some "workers") d = Some l ->
  store w !! l = Some o ->
  Setting.validator (Setting.cls o) = Some (wrap_method validate_pos_int) ->
  exists w',
    Config_set self "workers" (PStr "4") w = (Ok tt, w')
    /\ Config_getattribute system self "workers" w'
       = (Ok (Attr (Value (PInt 4))), w').
Proof.
  intros Hs Hd Ho Hv.
  exists (World (KNOWN_SETTINGS w) (KNOWN_SETTINGS_SET w)
            (<[l := Setting.with_value o (PInt 4)]> (store w))).
  split.
  - rewrite (Config_set_bound _ _ _ _ _ _ Hs Hd).
    now apply (Setting_set_ok w l o (wrap_method validate_pos_int)).
  - unfold Config_getattribute. simpl. unfold self_settings. munfold.
    rewrite Hs. simpl. rewrite Hd.
    rewrite (Setting_get_ok _ l (Setting.with_value o (PInt 4))); [reflexivity|].
    simpl. apply list_lookup_insert_eq. eapply lookup_lt_Some; eauto.
Qed.

Lemma Config_set_workers_roundtrip_witness :
  exists w',
    Config_set workers_config "workers" (PStr "4") workers_config_world = (Ok tt, w')
    /\ Config_getattribute sample_system workers_config "workers" w'
       = (Ok (Attr (Value (PInt 4))), w').
Proof.
  apply (Config_set_workers_roundtrip sample_system workers_config_world
           workers_config [(Some "workers", 1%nat)] 1%nat workers_object);
    reflexivity.
Defined.
(** ** Instantiation *)

Lemma lookup_snoc {A} (l : list A) (x : A) : (l ++ [x]) !! length l = Some x.
Proof. now apply list_lookup_middle. Qed.

Lemma insert_snoc {A} (l : list A) (x y : A) :
  <[length l := y]> (l ++ [x]) = l ++ [y].
Proof. induction l as [|a l IH]; simpl; [reflexivity | now rewrite IH]. Qed.

Lemma Setting_new_ok c w v :
  init_value c = Ok v ->
  Setting_new c w
  = (Ok (length (store w)), with_store w (store w ++ [new_object c v])).
Proof.
  unfold init_value, Setting_new, Setting_init, Setting_set, with_store.
  munfold. simpl. intros H.
  rewrite lookup_snoc. simpl.
  destruct (is_none (Setting.default c)); simpl.
  - injection H as <-. rewrite lookup_snoc. simpl.
    rewrite insert_snoc, lookup_snoc. simpl. rewrite insert_snoc. reflexivity.
  - rewrite lookup_snoc. simpl.
    destruct (Setting.validator c) as [func|]; [|discriminate].
    destruct (func (Setting.default c)) as [v'|e]; simpl in H; [|discriminate].
    injection H as <-. simpl.
    rewrite insert_snoc, lookup_snoc. simpl.
    rewrite insert_snoc, lookup_snoc. simpl. rewrite insert_snoc. reflexivity.
Qed.

Lemma Setting_new_raise c w e :
  init_value c = Raise e -> exists w', Setting_new c w = (Raise e, w').
Proof.
  unfold init_value, Setting_new, Setting_init, Setting_set.
  munfold. simpl. intros H.
  rewrite lookup_snoc. simpl.
  destruct (is_none (Setting.default c)); simpl; [discriminate|].
  rewrite lookup_snoc. simpl.
  destruct (Setting.validator c) as [func|].
  - destruct (func (Setting.default c)) as [v'|e']; simpl in H; [discriminate|].
    injection H as <-. eauto.
  - injection H as <-. eauto.
Qed.

Lemma instantiable_init c :
  instantiable c = true -> init_value c = Ok (Setting.own_value (initialised c)).
Proof.
  unfold instantiable, initialised.
  destruct (init_value c); [reflexivity | discriminate].
Qed.

(** ** The loop of make_settings *)

Lemma selected_tests app include exclude c :
  selected app include exclude c
  = negb (truthy_str (Setting.app c) && negb (bool_decide (Setting.app c = app)))
    && negb (truthy_names include
             && negb (name_in (Setting.name c) (default [] include))
             && negb (truthy_str (Setting.app c)))
    && negb (name_in (Setting.name c) exclude).
Proof.
  unfold selected, app_scoped.
  destruct (truthy_str (Setting.app c)), (bool_decide (Setting.app c = app)),
    (truthy_names include), (name_in (Setting.name c) (default [] include)),
    (name_in (Setting.name c) exclude); reflexivity.
Qed.

Lemma make_settings_loop_ok app include exclude known : forall settings w,
  forallb instantiable known = true ->
  make_settings_loop app include exclude known settings w
  = (Ok (loop_dict (selected app include exclude) known settings (length (store w))),
     with_store w (store w ++ loop_store (selected app include exclude) known)).
Proof.
  induction known as [|c known IH]; intros settings w Hall; simpl.
  - unfold with_store. rewrite app_nil_r. destruct w; reflexivity.
  - apply andb_true_iff in Hall as [Hc Hall].
    unfold mbind at 1, M_bind at 1.
    rewrite (Setting_new_ok _ _ _ (instantiable_init _ Hc)).
    fold (initialised c).
    unfold mbind at 1, M_bind at 1, read at 1. simpl.
    rewrite lookup_snoc. simpl.
    rewrite (selected_tests app include exclude c).
    destruct (truthy_str (Setting.app c) && negb (bool_decide (Setting.app c = app))); simpl.
    { rewrite IH by assumption. simpl. rewrite length_app. simpl.
      rewrite Nat.add_1_r. unfold with_store. simpl. now rewrite <- app_assoc. }
    destruct (truthy_names include
             && negb (name_in (Setting.name c) (default [] include))
             && negb (truthy_str (Setting.app c))); simpl.
    { rewrite IH by assumption. simpl. rewrite length_app. simpl.
      rewrite Nat.add_1_r. unfold with_store. simpl. now rewrite <- app_assoc. }
    destruct (name_in (Setting.name c) exclude); simpl.
    { rewrite IH by assumption. simpl. rewrite length_app. simpl.
      rewrite Nat.add_1_r. unfold with_store. simpl. now rewrite <- app_assoc. }
    unfold mbind at 1, M_bind at 1, Setting_copy. munfold. simpl.
    rewrite lookup_snoc. simpl.
    rewrite IH by assumption. simpl. rewrite !length_app. simpl.
    rewrite !Nat.add_1_r. unfold with_store. simpl.
    now rewrite <- !app_assoc.
Qed.

Lemma dict_get_set k k' v d :
  dict_get k (dict_set k' v d)
  = if bool_decide (k' = k) then Some v else dict_get k d.
Proof.
  induction d as [|[k0 v0] d IH]; simpl.
  - reflexivity.
  - destruct (bool_decide (k0 = k')) eqn:E0; simpl.
    + apply bool_decide_eq_true in E0. subst k0.
      destruct (bool_decide (k' = k)); reflexivity.
    + apply bool_decide_eq_false in E0.
      destruct (bool_decide (k0 = k)) eqn:E1.
      * apply bool_decide_eq_true in E1. subst k0.
        now rewrite bool_decide_eq_false_2.
      * exact IH.
Qed.

Lemma last_snoc_or {A} (x : A) (l : list A) :
  last (x :: l) = match last l with Some y => Some y | None => Some x end.
Proof.
  destruct l as [|y l]; [reflexivity|].
  change (last (x :: y :: l)) with (last (y :: l)).
  destruct (last (y :: l)) eqn:E; [reflexivity|].
  apply last_None in E. discriminate.
Qed.

Lemma last_filter_cons {A} (P : A -> bool) (x : A) (l : list A) :
  last (List.filter P (x :: l))
  = match last (List.filter P l) with
    | Some y => Some y
    | None => if P x then Some x else None
    end.
Proof.
  simpl. destruct (P x).
  - apply last_snoc_or.
  - destruct (last (List.filter P l)); reflexivity.
Qed.

Lemma loop_dict_get keep known : forall settings prefix k,
  let P := fun c => keep c && bool_decide (Setting.name c = k) in
  match dict_get k (loop_dict keep known settings (length prefix)) with
  | Some l =>
      (exists c, (prefix ++ loop_store keep known) !! l = Some (initialised c)
                 /\ last (List.filter P known) = Some c
                 /\ (length prefix <= l)%nat)
      \/ (last (List.filter P known) = None /\ dict_get k settings = Some l)
  | None => last (List.filter P known) = None /\ dict_get k settings = None
  end.
Proof.
  induction known as [|c known IH]; intros settings prefix k P.
  - simpl. destruct (dict_get k settings); [right|]; split; reflexivity.
  - rewrite last_filter_cons. cbn [loop_dict loop_store].
    destruct (keep c) eqn:Hk.
    + assert (HP : P c = bool_decide (Setting.name c = k))
        by (unfold P; now rewrite Hk).
      rewrite HP. clear HP.
      specialize (IH (dict_set (Setting.name c) (S (length prefix)) settings)
                     (prefix ++ [initialised c; initialised c]) k).
      rewrite length_app in IH. simpl in IH.
      replace (length prefix + 2)%nat with (S (S (length prefix))) in IH by lia.
      rewrite <- app_assoc in IH. fold P in IH.
      rewrite dict_get_set in IH.
      destruct (dict_get k (loop_dict keep known _ _)) as [l|].
      * destruct IH as [(c' & Hl & Hlast & Hle) | (Hlast & Hget)].
        -- left. exists c'. rewrite Hlast. repeat split; [exact Hl | lia].
        -- rewrite Hlast.
           destruct (bool_decide (Setting.name c = k)).
           ++ injection Hget as <-. left. exists c. repeat split; [|lia].
              rewrite lookup_app_r by lia.
              replace (S (length prefix) - length prefix)%nat with 1%nat by lia.
              reflexivity.
           ++ right. split; [reflexivity | exact Hget].
      * destruct IH as (Hlast & Hget). rewrite Hlast.
        destruct (bool_decide (Setting.name c = k)); [discriminate|].
        split; [reflexivity | exact Hget].
    + assert (HP : P c = false) by (unfold P; now rewrite Hk).
      rewrite HP. clear HP.
      specialize (IH settings (prefix ++ [initialised c]) k).
      rewrite length_app in IH. simpl in IH.
      replace (length prefix + 1)%nat with (S (length prefix)) in IH by lia.
      rewrite <- app_assoc in IH. fold P in IH.
      destruct (dict_get k (loop_dict keep known _ _)) as [l|].
      * destruct IH as [(c' & Hl & Hlast & Hle) | (Hlast & Hget)].
        -- left. exists c'. rewrite Hlast. repeat split; [exact Hl | lia].
        -- right. rewrite Hlast. split; [reflexivity | exact Hget].
      * destruct IH as (Hlast & Hget). rewrite Hlast. split; [reflexivity | exact Hget].
Qed.

Lemma loop_store_length keep known :
  (length (loop_store keep known) <= 2 * length known)%nat.
Proof.
  induction known as [|c known IH]; simpl; [lia|].
  rewrite length_app. destruct (keep c); simpl; lia.
Qed.

Lemma last_filter_Some {A} (P : A -> bool) (l : list A) (x : A) :
  last (List.filter P l) = Some x -> In x l /\ P x = true.
Proof.
  intros H. apply last_Some_elem_of in H. apply list_elem_of_In in H.
  now apply filter_In in H.
Qed.

Lemma last_filter_None {A} (P : A -> bool) (l : list A) :
  last (List.filter P l) = None -> forall x, In x l -> P x = false.
Proof.
  intros H x Hin. apply last_None in H.
  destruct (P x) eqn:E; [|reflexivity].
  assert (Hx : In x (List.filter P l)) by (apply filter_In; auto).
  rewrite H in Hx. destruct Hx.
Qed.

Lemma exclude_or_empty exclude :
  (if truthy_names exclude then default [] exclude else []) = default [] exclude.
Proof. destruct exclude as [[|x l]|]; reflexivity. Qed.

Lemma make_settings_ok app include exclude w :
  forallb instantiable (KNOWN_SETTINGS w) = true ->
  make_settings app include exclude w
  = (Ok (loop_dict (selected app include (default [] exclude)) (KNOWN_SETTINGS w)
           [] (length (store w))),
     with_store w (store w ++ loop_store (selected app include (default [] exclude))
                                (KNOWN_SETTINGS w))).
Proof.
  intros H. unfold make_settings. rewrite exclude_or_empty.
  unfold mbind, M_bind, get_world. now apply make_settings_loop_ok.
Qed.

Lemma make_settings_entries (w : world) (app : option string)
    (include exclude : option (list string)) :
  forallb instantiable (KNOWN_SETTINGS w) = true ->
  exists d w',
    make_settings app include exclude w = (Ok d, w')
    /\ KNOWN_SETTINGS w' = KNOWN_SETTINGS w
    /\ forall k,
         match dict_get k d with
         | Some l =>
             exists c, store w' !! l = Some (initialised c)
                       /\ last_selected app include (default [] exclude) k
                            (KNOWN_SETTINGS w) = Some c
         | None =>
             last_selected app include (default [] exclude) k (KNOWN_SETTINGS w)
             = None
         end.
Proof.
  intros H. do 2 eexists. split; [now apply make_settings_ok|].
  split; [reflexivity|]. intros k.
  pose proof (loop_dict_get (selected app include (default [] exclude))
                (KNOWN_SETTINGS w) [] (store w) k) as Hk.
  cbv zeta in Hk. unfold last_selected. simpl.
  destruct (dict_get k (loop_dict _ _ _ _)) as [l|].
  - destruct Hk as [(c & Hl & Hlast & _) | (_ & Hget)]; [|discriminate].
    exists c. split; assumption.
  - apply Hk.
Qed.


(** C3 (counterexample): with [include=[]] the module's registry is
    returned whole, all 26 names, although no descriptor is in
    [include] and none is app-scoped.  And once a second class has
    declared the name ["workers"], all 27 registered descriptors satisfy
    the conditions of a call without filters, while the mapping has 26
    entries: the first [Workers] is not in it. *)
Lemma make_settings_empty_include_keeps_all :
  dict_keys (returned [] (make_settings None (Some []) None sample_world))
    = map Setting.name (KNOWN_SETTINGS sample_world)
  /\ length (KNOWN_SETTINGS sample_world) = 26%nat
  /\ List.filter (selected_as_specified None (Some []) [])
       (KNOWN_SETTINGS sample_world) = []
  /\ length (List.filter (selected_as_specified None None [])
               (KNOWN_SETTINGS (snd redeclared))) = 27%nat
  /\ length (returned [] (make_settings None None None (snd redeclared))) = 26%nat
  /\ bound_class_value (snd (make_settings None None None (snd redeclared)))
       (returned [] (make_settings None None None (snd redeclared))) "workers"
     = Some ("Workers2", PInt 8).
Proof. by_computation. Qed.

(** Every entry of the mapping is a registered, selected descriptor
    under its own name: no name of [exclude], no other application. *)
Lemma make_settings_sound w app include exclude d w' k l :
  forallb instantiable (KNOWN_SETTINGS w) = true ->
  make_settings app include exclude w = (Ok d, w') ->
  dict_get k d = Some l ->
  exists c, store w' !! l = Some (initialised c)
            /\ In c (KNOWN_SETTINGS w)
            /\ Setting.name c = k
            /\ name_in k (default [] exclude) = false
            /\ (app_scoped c = true -> Setting.app c = app)
            /\ selected app include (default [] exclude) c = true.
Proof.
  intros Hall Hm Hk.
  destruct (make_settings_entries w app include exclude Hall)
    as (d0 & w0 & Hm0 & _ & Hsel).
  rewrite Hm in Hm0. injection Hm0 as <- <-.
  specialize (Hsel k). rewrite Hk in Hsel. destruct Hsel as (c & Hl & Hlast).
  apply last_filter_Some in Hlast as [Hin HP].
  apply andb_true_iff in HP as [Hsel Hname].
  apply bool_decide_eq_true in Hname.
  exists c. repeat split; try assumption.
  - unfold selected in Hsel. apply andb_true_iff in Hsel as [_ Hex].
    rewrite Hname in Hex. now apply negb_true_iff in Hex.
  - intros Hs. unfold selected in Hsel.
    apply andb_true_iff in Hsel as [Hsel _].
    apply andb_true_iff in Hsel as [Happ _]. rewrite Hs in Happ. simpl in Happ.
    now apply bool_decide_eq_true in Happ.
Qed.

(** Every selected descriptor has its name in the mapping. *)
Lemma make_settings_complete w app include exclude d w' c :
  forallb instantiable (KNOWN_SETTINGS w) = true ->
  make_settings app include exclude w = (Ok d, w') ->
  In c (KNOWN_SETTINGS w) ->
  selected app include (default [] exclude) c = true ->
  exists l, dict_get (Setting.name c) d = Some l.
Proof.
  intros Hall Hm Hin Hc.
  destruct (make_settings_entries w app include exclude Hall)
    as (d0 & w0 & Hm0 & _ & Hsel).
  rewrite Hm in Hm0. injection Hm0 as <- <-.
  specialize (Hsel (Setting.name c)).
  destruct (dict_get (Setting.name c) d) as [l|]; [eauto|].
  apply last_filter_None with (x := c) in Hsel; [|exact Hin].
  rewrite Hc in Hsel. simpl in Hsel.
  now rewrite bool_decide_eq_true_2 in Hsel.
Qed.

(** C3 (as amended): when every registered descriptor can be
    instantiated, [make_settings] returns a mapping and leaves the
    registry as it was.  Under each name the mapping holds a copy of the
    instance of the last registered descriptor of that name that
    satisfies: its app is unset or is the requested app; if [include] is
    given and not empty, its name is in [include] or it is app-scoped;
    its name is not in [exclude].  A name with no such descriptor is not
    in the mapping.  So every entry is a registered descriptor that
    satisfies the three conditions, under its own name, which is not in
    [exclude], and an app-scoped entry has the requested app; and every
    registered descriptor that satisfies them has its name in the
    mapping. *)
Theorem make_settings_selection (w : world) (app : option string)
    (include exclude : option (list string)) :
  forallb instantiable (KNOWN_SETTINGS w) = true ->
  exists d w',
    make_settings app include exclude w = (Ok d, w')
    /\ KNOWN_SETTINGS w' = KNOWN_SETTINGS w
    /\ (forall k,
          match dict_get k d with
          | Some l =>
              exists c, store w' !! l = Some (initialised c)
                        /\ last_selected app include (default [] exclude) k
                             (KNOWN_SETTINGS w) = Some c
          | None =>
              last_selected app include (default [] exclude) k (KNOWN_SETTINGS w)
              = None
          end)
    /\ (forall k l,
          dict_get k d = Some l ->
          exists c, store w' !! l = Some (initialised c)
                    /\ In c (KNOWN_SETTINGS w)
                    /\ Setting.name c = k
                    /\ name_in k (default [] exclude) = false
                    /\ (app_scoped c = true -> Setting.app c = app)
                    /\ selected app include (default [] exclude) c = true)
    /\ (forall c,
          In c (KNOWN_SETTINGS w) ->
          selected app include (default [] exclude) c = true ->
          exists l, dict_get (Setting.name c) d = Some l).
Proof.
  intros Hall.
  destruct (make_settings_entries w app include exclude Hall)
    as (d & w' & Hm & HK & Hent).
  exists d, w'. split; [exact Hm|]. split; [exact HK|].
  split; [exact Hent|]. split.
  - intros k l Hk. now apply (make_settings_sound w app include exclude d w' k l).
  - intros c Hin Hc.
    now apply (make_settings_complete w app include exclude d w' c).
Qed.

Lemma make_settings_selection_witness :
  exists d w',
    make_settings None (Some ["workers"]) (Some ["debug"]) sample_world = (Ok d, w')
    /\ KNOWN_SETTINGS w' = KNOWN_SETTINGS sample_world
    /\ (forall k,
          match dict_get k d with
          | Some l =>
              exists c, store w' !! l = Some (initialised c)
                        /\ last_selected None (Some ["workers"]) ["debug"] k
                             (KNOWN_SETTINGS sample_world) = Some c
          | None =>
              last_selected None (Some ["workers"]) ["debug"] k
                (KNOWN_SETTINGS sample_world) = None
          end)
    /\ (forall k l,
          dict_get k d = Some l ->
          exists c, store w' !! l = Some (initialised c)
                    /\ In c (KNOWN_SETTINGS sample_world)
                    /\ Setting.name c = k
                    /\ name_in k ["debug"] = false
                    /\ (app_scoped c = true -> Setting.app c = None)
                    /\ selected None (Some ["workers"]) ["debug"] c = true)
    /\ (forall c,
          In c (KNOWN_SETTINGS sample_world) ->
          selected None (Some ["workers"]) ["debug"] c = true ->
          exists l, dict_get (Setting.name c) d = Some l).
Proof.
  apply (make_settings_selection sample_world None (Some ["workers"])
           (Some ["debug"])).
  vm_compute. reflexivity.
Defined.

(** ** Copies and their independence *)

(** C5 (counterexample): for a descriptor with a list default, the value
    of the copy handed out by a first call of [make_settings], the value
    of the copy handed out by a second call and the default of the
    registered class are one and the same list object. *)
Lemma copies_share_list_default :
  hosts_first = [(Some "hosts", 1%nat)]
  /\ hosts_second = [(Some "hosts", 3%nat)]
  /\ setting_value hosts_after hosts_first "hosts" ≫= list_identity = Some 7%nat
  /\ setting_value hosts_after hosts_second "hosts" ≫= list_identity = Some 7%nat
  /\ (Setting.default <$> class_named hosts_after "hosts") ≫= list_identity
     = Some 7%nat.
Proof. by_computation. Qed.

(** The scenario of the specification: each Config reads back its own
    timeout and the default of the registered class is still 30. *)
Lemma two_configs_keep_their_timeout :
  fst (Config_getattribute sample_system module_config "timeout" timeout_after)
    = Ok (Attr (Value (PInt 10)))
  /\ fst (Config_getattribute sample_system second_config "timeout" timeout_after)
    = Ok (Attr (Value (PInt 60)))
  /\ Setting.default <$> class_named timeout_after "timeout" = Some (PInt 30).
Proof. by_computation. Qed.

Lemma make_settings_loop_instantiable app include exclude known :
  forall settings w d w',
  make_settings_loop app include exclude known settings w = (Ok d, w') ->
  forallb instantiable known = true.
Proof.
  induction known as [|c known IH]; intros settings w d w' H; [reflexivity|].
  simpl in H. simpl.
  unfold mbind at 1, M_bind at 1 in H.
  destruct (init_value c) as [v|e] eqn:Hinit.
  - assert (Hc : instantiable c = true) by (unfold instantiable; now rewrite Hinit).
    rewrite Hc. simpl.
    rewrite (Setting_new_ok _ _ _ Hinit) in H.
    unfold mbind at 1, M_bind at 1, read at 1 in H. simpl in H.
    rewrite lookup_snoc in H. simpl in H.
    destruct (truthy_str (Setting.app c) && negb (bool_decide (Setting.app c = app)));
      [eapply IH; exact H|].
    destruct (truthy_names include
              && negb (name_in (Setting.name c) (default [] include))
              && negb (truthy_str (Setting.app c))); [eapply IH; exact H|].
    destruct (name_in (Setting.name c) exclude); [eapply IH; exact H|].
    unfold mbind at 1, M_bind at 1, Setting_copy in H. munfold. 
    unfold mbind at 1, M_bind at 1, read at 1, alloc in H. simpl in H.
    rewrite lookup_snoc in H. simpl in H. eapply IH; exact H.
  - destruct (Setting_new_raise c w e Hinit) as (w0 & Hr).
    rewrite Hr in H. discriminate.
Qed.

Lemma make_settings_instantiable app include exclude w d w' :
  make_settings app include exclude w = (Ok d, w') ->
  forallb instantiable (KNOWN_SETTINGS w) = true.
Proof.
  unfold make_settings, mbind, M_bind, get_world.
  apply make_settings_loop_instantiable.
Qed.

(** The locations a call hands out are new: they lie beyond the store
    the call started from, inside the store it leaves, which extends
    the old one. *)
Lemma make_settings_fresh app include exclude w d w' :
  make_settings app include exclude w = (Ok d, w') ->
  KNOWN_SETTINGS w' = KNOWN_SETTINGS w
  /\ (exists new, store w' = store w ++ new)
  /\ forall k l, dict_get k d = Some l ->
       (length (store w) <= l < length (store w'))%nat.
Proof.
  intros H. pose proof (make_settings_instantiable _ _ _ _ _ _ H) as Hall.
  rewrite (make_settings_ok _ _ _ _ Hall) in H. injection H as <- <-.
  split; [reflexivity|]. split; [eexists; reflexivity|].
  intros k l Hk.
  pose proof (loop_dict_get (selected app include (default [] exclude))
                (KNOWN_SETTINGS w) [] (store w) k) as Hg.
  cbv zeta in Hg. rewrite Hk in Hg.
  destruct Hg as [(c & Hl & _ & Hle) | (_ & Hget)]; [|discriminate].
  split; [exact Hle|]. eapply lookup_lt_Some; exact Hl.
Qed.

Lemma Setting_set_frame l raw w r w' :
  Setting_set l raw w = (r, w') ->
  KNOWN_SETTINGS w' = KNOWN_SETTINGS w
  /\ KNOWN_SETTINGS_SET w' = KNOWN_SETTINGS_SET w
  /\ forall l', l' <> l -> store w' !! l' = store w !! l'.
Proof.
  unfold Setting_set. munfold.
  destruct (store w !! l) as [o|]; [|intros [= <- <-]; auto].
  destruct (Setting.validator (Setting.cls o)) as [func|];
    [|intros [= <- <-]; auto].
  destruct (func raw) as [v|e]; intros [= <- <-]; [|auto].
  simpl. repeat split. intros l' Hl. now apply list_lookup_insert_ne.
Qed.

Lemma Config_set_frame self d name raw w r w' :
  self !! "settings" = Some (Settings d) ->
  Config_set self name raw w = (r, w') ->
  KNOWN_SETTINGS w' = KNOWN_SETTINGS w
  /\ KNOWN_SETTINGS_SET w' = KNOWN_SETTINGS_SET w
  /\ forall l', dict_get (Some name) d <> Some l' -> store w' !! l' = store w !! l'.
Proof.
  intros Hs. unfold Config_set, self_settings. munfold. rewrite Hs. simpl.
  destruct (bool_decide (Some name ∈ dict_keys d)); simpl;
    [|intros [= <- <-]; auto].
  destruct (dict_get (Some name) d) as [l|]; simpl; [|intros [= <- <-]; auto].
  intros H. apply Setting_set_frame in H as (HK & HS & Hst).
  repeat split; try assumption. intros l' Hl'. apply Hst. congruence.
Qed.

(** C5 (as amended): the objects two calls of [make_settings] hand out
    are distinct, and [set] on a Config built on one of the two
    dictionaries, in whatever state it is called, changes neither the
    registered classes nor any object of the other dictionary: what it
    rebinds is the [value] of its own object only. *)
Theorem make_settings_copies_independent (w w1 w2 : world)
    (app1 app2 : option string) (include1 exclude1 include2 exclude2 : option (list string))
    (d1 d2 : settings_dict) :
  make_settings app1 include1 exclude1 w = (Ok d1, w1) ->
  make_settings app2 include2 exclude2 w1 = (Ok d2, w2) ->
  KNOWN_SETTINGS w2 = KNOWN_SETTINGS w
  /\ (forall k1 l1 k2 l2,
        dict_get k1 d1 = Some l1 -> dict_get k2 d2 = Some l2 -> l1 <> l2)
  /\ (forall self1 name raw r w3 w4,
        self1 !! "settings" = Some (Settings d1) ->
        Config_set self1 name raw w3 = (r, w4) ->
        KNOWN_SETTINGS w4 = KNOWN_SETTINGS w3
        /\ forall k l, dict_get k d2 = Some l -> store w4 !! l = store w3 !! l)
  /\ (forall self2 name raw r w3 w4,
        self2 !! "settings" = Some (Settings d2) ->
        Config_set self2 name raw w3 = (r, w4) ->
        KNOWN_SETTINGS w4 = KNOWN_SETTINGS w3
        /\ forall k l, dict_get k d1 = Some l -> store w4 !! l = store w3 !! l).
Proof.
  intros H1 H2.
  apply make_settings_fresh in H1 as (HK1 & _ & Hd1).
  apply make_settings_fresh in H2 as (HK2 & _ & Hd2).
  assert (Hne : forall k1 l1 k2 l2,
             dict_get k1 d1 = Some l1 -> dict_get k2 d2 = Some l2 -> l1 <> l2).
  { intros k1 l1 k2 l2 Ha Hb. apply Hd1 in Ha. apply Hd2 in Hb. lia. }
  split; [congruence|]. split; [exact Hne|]. split.
  - intros self1 name raw r w3 w4 Hs Hset.
    apply (Config_set_frame _ _ _ _ _ _ _ Hs) in Hset as (HK & _ & Hst).
    split; [exact HK|]. intros k l Hk. apply Hst.
    intros Hl. exact (Hne _ _ _ _ Hl Hk eq_refl).
  - intros self2 name raw r w3 w4 Hs Hset.
    apply (Config_set_frame _ _ _ _ _ _ _ Hs) in Hset as (HK & _ & Hst).
    split; [exact HK|]. intros k l Hk. apply Hst.
    intros Hl. exact (Hne _ _ _ _ Hk Hl eq_refl).
Qed.

Lemma run_returns {A} (r : result A * world) (a : A) :
  fst r = Ok a -> r = (Ok a, snd r).
Proof. destruct r as [x w]. simpl. now intros ->. Qed.

Lemma make_settings_copies_independent_witness :
  KNOWN_SETTINGS hosts_after = KNOWN_SETTINGS hosts_world
  /\ (forall k1 l1 k2 l2,
        dict_get k1 hosts_first = Some l1 -> dict_get k2 hosts_second = Some l2 ->
        l1 <> l2)
  /\ (forall self1 name raw r w3 w4,
        self1 !! "settings" = Some (Settings hosts_first) ->
        Config_set self1 name raw w3 = (r, w4) ->
        KNOWN_SETTINGS w4 = KNOWN_SETTINGS w3
        /\ forall k l, dict_get k hosts_second = Some l ->
             store w4 !! l = store w3 !! l)
  /\ (forall self2 name raw r w3 w4,
        self2 !! "settings" = Some (Settings hosts_second) ->
        Config_set self2 name raw w3 = (r, w4) ->
        KNOWN_SETTINGS w4 = KNOWN_SETTINGS w3
        /\ forall k l, dict_get k hosts_first = Some l ->
             store w4 !! l = store w3 !! l).
Proof.
  apply (make_settings_copies_independent hosts_world
           (snd (make_settings None None None hosts_world)) hosts_after
           None None None None None None hosts_first hosts_second).
  - apply run_returns. vm_compute. reflexivity.
  - apply (run_returns (make_settings None None None
                          (snd (make_settings None None None hosts_world)))).
    vm_compute. reflexivity.
Defined.

(** ** Registration *)

Lemma attrs_get_snoc {A} (sel : attr -> option A) (attrs : list attr) (a : attr) :
  attrs_get sel (attrs ++ [a])
  = match sel a with Some v => Some v | None => attrs_get sel attrs end.
Proof. unfold attrs_get. rewrite fold_left_app. reflexivity. Qed.

Lemma last_filter_snoc {A} (P : A -> bool) (l : list A) (x : A) :
  P x = true -> last (List.filter P (l ++ [x])) = Some x.
Proof.
  intros H. rewrite List.filter_app. simpl. rewrite H. apply last_snoc.
Qed.

Lemma SettingMeta_new_ok dedent w classname base attrs d :
  not_virtual attrs = true ->
  attrs_get sel_desc attrs = Some d ->
  exists c,
    SettingMeta_new dedent classname base attrs w
    = (Ok c, snd (register c w))
    /\ KNOWN_SETTINGS (snd (register c w)) = KNOWN_SETTINGS w ++ [c]
    /\ store (snd (register c w)) = store w
    /\ Setting.order c = length (KNOWN_SETTINGS w)
    /\ Setting.name c = inherit sel_name attrs (Setting.name base).
Proof.
  unfold not_virtual, SettingMeta_new. intros Hv Hd.
  apply negb_true_iff in Hv. rewrite Hv.
  unfold mbind, M_bind, get_world.
  rewrite !attrs_get_snoc. cbn [sel_desc]. rewrite Hd.
  unfold mbind, M_bind, mret, M_ret.
  eexists. split; [reflexivity|].
  repeat split.
  - simpl. unfold inherit. rewrite !attrs_get_snoc. reflexivity.
  - simpl. unfold inherit. rewrite !attrs_get_snoc. reflexivity.
Qed.

(** C1 (as amended): a class statement of the family that is not virtual
    and has a [desc] is registered whatever its name: the statement
    returns, the new class is appended to [KNOWN_SETTINGS] behind the
    classes already there with the next order, and no check on the name
    is made.  When the new class is selected by a later call of
    [make_settings], the mapping holds the new class under its name,
    also when an earlier class has the same name. *)
Theorem SettingMeta_new_accepts_any_name (dedent : string -> string) (w : world)
    (classname : string) (base : Setting.class) (attrs : list attr)
    (d : option string) :
  not_virtual attrs = true ->
  attrs_get sel_desc attrs = Some d ->
  exists c w',
    SettingMeta_new dedent classname base attrs w = (Ok c, w')
    /\ KNOWN_SETTINGS w' = KNOWN_SETTINGS w ++ [c]
    /\ store w' = store w
    /\ Setting.order c = length (KNOWN_SETTINGS w)
    /\ Setting.name c = inherit sel_name attrs (Setting.name base)
    /\ forall app include exclude,
         forallb instantiable (KNOWN_SETTINGS w) = true ->
         instantiable c = true ->
         selected app include (default [] exclude) c = true ->
         exists dct l w2,
           make_settings app include exclude w' = (Ok dct, w2)
           /\ dict_get (Setting.name c) dct = Some l
           /\ store w2 !! l = Some (initialised c).
Proof.
  intros Hv Hd.
  destruct (SettingMeta_new_ok dedent w classname base attrs d Hv Hd)
    as (c & Hnew & HK & Hst & Hord & Hname).
  exists c, (snd (register c w)).
  split; [exact Hnew|]. split; [exact HK|]. split; [exact Hst|].
  split; [exact Hord|]. split; [exact Hname|].
  intros app include exclude Hall Hc Hsel.
  assert (Hall' : forallb instantiable (KNOWN_SETTINGS (snd (register c w))) = true).
  { rewrite HK, forallb_app, Hall. simpl. now rewrite Hc. }
  destruct (make_settings_entries _ app include exclude Hall')
    as (dct & w2 & Hm & _ & Hk).
  specialize (Hk (Setting.name c)). rewrite HK in Hk.
  unfold last_selected in Hk.
  rewrite last_filter_snoc in Hk
    by (rewrite Hsel; simpl; now apply bool_decide_eq_true).
  destruct (dict_get (Setting.name c) dct) as [l|] eqn:Hget; [|discriminate].
  destruct Hk as (c' & Hl & [= <-]).
  exists dct, l, w2. split; [exact Hm|]. split; [exact Hget | exact Hl].
Qed.

Lemma SettingMeta_new_accepts_any_name_witness :
  exists c w',
    SettingMeta_new (fun s => s) "Workers2" Setting_class Workers2_attrs sample_world
      = (Ok c, w')
    /\ KNOWN_SETTINGS w' = KNOWN_SETTINGS sample_world ++ [c]
    /\ store w' = store sample_world
    /\ Setting.order c = length (KNOWN_SETTINGS sample_world)
    /\ Setting.name c = inherit sel_name Workers2_attrs (Setting.name Setting_class)
    /\ forall app include exclude,
         forallb instantiable (KNOWN_SETTINGS sample_world) = true ->
         instantiable c = true ->
         selected app include (default [] exclude) c = true ->
         exists dct l w2,
           make_settings app include exclude w' = (Ok dct, w2)
           /\ dict_get (Setting.name c) dct = Some l
           /\ store w2 !! l = Some (initialised c).
Proof.
  apply (SettingMeta_new_accepts_any_name (fun s => s) sample_world "Workers2"
           Setting_class Workers2_attrs (Some "A second declaration of workers."));
    reflexivity.
Defined.

(** C1 (counterexample): after the module's own [Workers], a second class
    that declares the name ["workers"] is registered without an error,
    with order 26; both classes are in the registry, and [make_settings]
    binds ["workers"] to an instance of the second one (value 8): the
    first one is replaced without a word. *)
Lemma duplicate_name_is_registered :
  classes_named sample_world "workers" = ["Workers"]
  /\ declared redeclared = Some ("Workers2", Some "workers", 26%nat)
  /\ classes_named (snd redeclared) "workers" = ["Workers"; "Workers2"]
  /\ bound_class_value (snd (make_settings None None None (snd redeclared)))
       (returned [] (make_settings None None None (snd redeclared))) "workers"
     = Some ("Workers2", PInt 8).
Proof. by_computation. Qed.

(** ** Attribute reads and writes on a Config *)

Lemma contains_unbound name d :
  dict_get (Some name) d = None -> contains name (Settings d) = Ok false.
Proof.
  intros H. simpl. f_equal. apply bool_decide_eq_false.
  now apply dict_get_None_keys.
Qed.

Lemma Config_getattr_bound w self d name l o :
  self !! "settings" = Some (Settings d) ->
  dict_get (Some name) d = Some l ->
  store w !! l = Some o ->
  Config_getattr self name w = (Ok (Setting.get_value o), w).
Proof.
  intros Hs Hd Ho. unfold Config_getattr, self_settings. munfold.
  rewrite Hs, (contains_bound _ _ _ Hd). simpl. rewrite Hd.
  now apply Setting_get_ok.
Qed.

Lemma Config_getattr_unbound w self d name :
  self !! "settings" = Some (Settings d) ->
  dict_get (Some name) d = None ->
  Config_getattr self name w
  = if bool_decide (name ∈ KNOWN_SETTINGS_SET w) then (Ok PNone, w)
    else (Raise (Exn AttributeError "No configuration setting for: %s" [PStr name]), w).
Proof.
  intros Hs Hd. unfold Config_getattr, self_settings. munfold.
  rewrite Hs, (contains_unbound _ _ Hd). simpl.
  destruct (bool_decide (name ∈ KNOWN_SETTINGS_SET w)); reflexivity.
Qed.

Lemma Config_getattribute_fallback system w self name :
  Config_class name = None -> self !! name = None ->
  Config_getattribute system self name w
  = (v ← Config_getattr self name; mret (Attr (Value v))) w.
Proof. intros Hc Hn. unfold Config_getattribute. now rewrite Hc, Hn. Qed.

(** C2 (as amended): for a Config instance and an attribute name that
    the normal lookup does not resolve (the class provides nothing under
    the name, neither a property such as [workers] or [proc_name] nor a
    method, and the instance [__dict__] has no such entry): a name in
    the bound settings reads as that setting's [get()] value; a name
    outside them that is in [KNOWN_SETTINGS_SET] reads as [None]; any
    other name raises [AttributeError]. *)
Theorem Config_read_three_ways (system : System) (w : world) (self : instance)
    (d : settings_dict) (name : string) :
  self !! "settings" = Some (Settings d) ->
  Config_class name = None ->
  self !! name = None ->
  (forall l o,
     dict_get (Some name) d = Some l -> store w !! l = Some o ->
     Config_getattribute system self name w
     = (Ok (Attr (Value (Setting.get_value o))), w))
  /\ (dict_get (Some name) d = None -> name ∈ KNOWN_SETTINGS_SET w ->
      Config_getattribute system self name w = (Ok (Attr (Value PNone)), w))
  /\ (dict_get (Some name) d = None -> name ∉ KNOWN_SETTINGS_SET w ->
      Config_getattribute system self name w
      = (Raise (Exn AttributeError "No configuration setting for: %s" [PStr name]),
         w)).
Proof.
  intros Hs Hc Hn. rewrite (Config_getattribute_fallback _ _ _ _ Hc Hn).
  unfold mbind, M_bind. split; [|split].
  - intros l o Hd Ho. now rewrite (Config_getattr_bound _ _ _ _ _ _ Hs Hd Ho).
  - intros Hd Hk. rewrite (Config_getattr_unbound _ _ _ _ Hs Hd).
    now rewrite bool_decide_eq_true_2.
  - intros Hd Hk. rewrite (Config_getattr_unbound _ _ _ _ Hs Hd).
    now rewrite bool_decide_eq_false_2.
Qed.

Lemma Config_read_three_ways_witness :
  (forall l o,
     dict_get (Some "debug") excluded_settings = Some l ->
     store excluded_config_world !! l = Some o ->
     Config_getattribute sample_system excluded_config "debug" excluded_config_world
     = (Ok (Attr (Value (Setting.get_value o))), excluded_config_world))
  /\ (dict_get (Some "debug") excluded_settings = None ->
      "debug" ∈ KNOWN_SETTINGS_SET excluded_config_world ->
      Config_getattribute sample_system excluded_config "debug" excluded_config_world
      = (Ok (Attr (Value PNone)), excluded_config_world))
  /\ (dict_get (Some "debug") excluded_settings = None ->
      "debug" ∉ KNOWN_SETTINGS_SET excluded_config_world ->
      Config_getattribute sample_system excluded_config "debug" excluded_config_world
      = (Raise (Exn AttributeError "No configuration setting for: %s" [PStr "debug"]),
         excluded_config_world)).
Proof.
  apply (Config_read_three_ways sample_system excluded_config_world
           excluded_config excluded_settings "debug").
  - vm_compute. reflexivity.
  - reflexivity.
  - vm_compute. reflexivity.
Defined.

(** C2 (counterexample): on [Config(exclude=["workers", "debug"])] the
    name ["workers"] is registered and not bound, yet reading it does
    not give [None]: the property [workers] of the class answers first
    and raises [KeyError]. *)
Lemma excluded_workers_read_raises :
  bool_decide ("workers" ∈ KNOWN_SETTINGS_SET excluded_config_world) = true
  /\ dict_get (Some "workers") excluded_settings = None
  /\ excluded_config !! "settings" = Some (Settings excluded_settings)
  /\ fst (Config_getattribute sample_system excluded_config "workers"
            excluded_config_world)
     = Raise (Exn KeyError "%r" [PStr "workers"]).
Proof. by_computation. Qed.

Lemma Config_setattr_stores w self d name raw :
  self !! "settings" = Some (Settings d) ->
  dict_get (Some name) d = None ->
  no_data_descriptor name = true ->
  Config_setattr self name raw w = (Ok (<[name := Value raw]> self), w).
Proof.
  intros Hs Hd Hn. unfold Config_setattr, self_settings. munfold.
  assert (Hobj : object_setattr self name raw = Ok (<[name := Value raw]> self)).
  { unfold object_setattr. unfold no_data_descriptor in Hn.
    destruct (Config_class name) as [[p | | ]|]; try discriminate; reflexivity. }
  destruct (negb (String.eqb name "settings")).
  - rewrite Hs, (contains_unbound _ _ Hd). simpl. now rewrite Hobj.
  - simpl. now rewrite Hobj.
Qed.

Lemma Config_getattribute_own system self name v w :
  no_data_descriptor name = true ->
  self !! name = Some (Value v) ->
  Config_getattribute system self name w = (Ok (Attr (Value v)), w).
Proof.
  intros Hn Hv. unfold Config_getattribute. unfold no_data_descriptor in Hn.
  destruct (Config_class name) as [[p | | ]|]; try discriminate;
    now rewrite Hv.
Qed.

(** C9 (as amended): for a name that is registered, is not among the
    bound settings of a Config, and under which the class has no data
    descriptor (so not [workers], [proc_name] or another property):
    attribute assignment is accepted, no validator runs and the state is
    untouched, the raw value goes into the instance [__dict__], and
    reading the name on the instance afterwards returns that raw value,
    in whatever state. *)
Theorem Config_setattr_unbound (system : System) (w : world) (self : instance)
    (d : settings_dict) (name : string) (raw : pyval) :
  self !! "settings" = Some (Settings d) ->
  name ∈ KNOWN_SETTINGS_SET w ->
  dict_get (Some name) d = None ->
  no_data_descriptor name = true ->
  Config_setattr self name raw w = (Ok (<[name := Value raw]> self), w)
  /\ forall w',
       Config_getattribute system (<[name := Value raw]> self) name w'
       = (Ok (Attr (Value raw)), w').
Proof.
  intros Hs _ Hd Hn. split.
  - now apply (Config_setattr_stores w self d).
  - intros w'. apply Config_getattribute_own; [exact Hn|].
    apply lookup_insert_eq.
Qed.

Lemma Config_setattr_unbound_witness :
  Config_setattr excluded_config "debug" (PStr "yes") excluded_config_world
    = (Ok (<["debug" := Value (PStr "yes")]> excluded_config), excluded_config_world)
  /\ forall w',
       Config_getattribute sample_system
         (<["debug" := Value (PStr "yes")]> excluded_config) "debug" w'
       = (Ok (Attr (Value (PStr "yes"))), w').
Proof.
  apply (Config_setattr_unbound sample_system excluded_config_world
           excluded_config excluded_settings "debug" (PStr "yes")).
  - vm_compute. reflexivity.
  - apply (proj1 (bool_decide_eq_true
                    ("debug" ∈ KNOWN_SETTINGS_SET excluded_config_world))).
    vm_compute. reflexivity.
  - vm_compute. reflexivity.
  - reflexivity.
Defined.

(** C9 (counterexample): on [Config(exclude=["workers", "debug"])] the
    name ["workers"] is registered and not bound, and assigning to it is
    rejected: the class has the read-only property [workers]. *)
Lemma excluded_workers_write_rejected :
  bool_decide ("workers" ∈ KNOWN_SETTINGS_SET excluded_config_world) = true
  /\ dict_get (Some "workers") excluded_settings = None
  /\ excluded_config !! "settings" = Some (Settings excluded_settings)
  /\ fst (Config_setattr excluded_config "workers" (PInt 5) excluded_config_world)
     = Raise (Exn AttributeError "can't set attribute" []).
Proof. by_computation. Qed.

(** ** make_options *)

Lemma dict_keys_get k (d : settings_dict) :
  k ∈ dict_keys d -> exists l, dict_get k d = Some l.
Proof.
  intros H. destruct (dict_get k d) as [l|] eqn:E; [eauto|].
  now apply dict_get_None_keys in E.
Qed.

Lemma make_options_loop_raises (d : settings_dict) (w : world) keys :
  forall opts,
  (forall k, k ∈ keys ->
     exists l o, dict_get k d = Some l /\ store w !! l = Some o) ->
  (exists k l o, k ∈ keys /\ dict_get k d = Some l /\ store w !! l = Some o
                 /\ truthy_cli (Setting.cli (Setting.cls o)) = true) ->
  foldM (fun opts k =>
           l ← lift (dict_getitem k d);
           setting ← read l;
           if negb (truthy_cli (Setting.cli (Setting.cls setting))) then mret opts
           else
             match module_optparse with
             | None =>
                 raise (Exn NameError "name '%s' is not defined" [PStr "optparse"])
             | Some make_option =>
                 opt ← lift (make_option (make_option_call setting));
                 mret (opts ++ [opt])
             end) keys opts w
  = (Raise NameError_optparse, w).
Proof.
  induction keys as [|k keys IH]; intros opts Hvalid Hex.
  - destruct Hex as (k & _ & _ & Hin & _). inversion Hin.
  - destruct (Hvalid k) as (l & o & Hl & Ho); [apply list_elem_of_here|].
    cbn [foldM]. unfold dict_getitem. munfold. rewrite Hl, Ho.
    destruct (truthy_cli (Setting.cli (Setting.cls o))) eqn:Hcli; simpl.
    + reflexivity.
    + apply IH.
      * intros k' Hk'. apply Hvalid. now apply list_elem_of_further.
      * destruct Hex as (k' & l' & o' & Hin & Hl' & Ho' & Hc').
        inversion Hin; subst.
        -- rewrite Hl in Hl'. injection Hl' as <-.
           rewrite Ho in Ho'. injection Ho' as <-. congruence.
        -- exists k', l', o'. auto.
Qed.

Lemma make_options_NameError (w : world) :
  forallb instantiable (KNOWN_SETTINGS w) = true ->
  (exists k, kept_with_flags w k = true) ->
  exists w',
    make_options module_optparse w = (Raise NameError_optparse, w').
Proof.
  intros Hall (k & Hk).
  destruct (make_settings_entries w None None (Some ["version"]) Hall)
    as (d & w' & Hm & _ & Hent).
  exists w'. unfold make_options. unfold mbind at 1, M_bind at 1. rewrite Hm.
  apply make_options_loop_raises.
  - intros k' Hk'. apply dict_keys_get in Hk' as (l & Hl).
    specialize (Hent k'). rewrite Hl in Hent. destruct Hent as (c & Hc & _).
    eauto.
  - unfold kept_with_flags in Hk. specialize (Hent k). simpl in Hent.
    destruct (last_selected None None ["version"] k (KNOWN_SETTINGS w)) as [c|];
      [|discriminate].
    destruct (dict_get k d) as [l|] eqn:Hl; [|discriminate].
    destruct Hent as (c' & Hc' & Heq). injection Heq as ->.
    exists k, l, (initialised c').
    split; [eapply dict_get_Some_keys; eauto|].
    split; [exact Hl|]. split; [exact Hc' | exact Hk].
Qed.

(** C10: whenever the registry can be instantiated and the settings
    that [make_options] collects include one with command-line flags,
    the call raises [NameError]: the module never binds the name
    [optparse].  The module's own registry is such a registry (its
    setting ["config"] has flags), whatever the server name and
    [textwrap.dedent] are, so [make_options] returns no value. *)
Theorem make_options_raises_NameError :
  (forall w,
     forallb instantiable (KNOWN_SETTINGS w) = true ->
     (exists k, kept_with_flags w k = true) ->
     exists w',
       make_options module_optparse w
       = (Raise (Exn NameError "name '%s' is not defined" [PStr "optparse"]), w'))
  /\ (forall dedent SERVER_NAME,
        fst (make_options module_optparse (module_world dedent SERVER_NAME))
        = Raise (Exn NameError "name '%s' is not defined" [PStr "optparse"])).
Proof.
  split; [exact make_options_NameError|].
  intros dedent SERVER_NAME.
  destruct (make_options_NameError (module_world dedent SERVER_NAME)) as (w' & H).
  - vm_compute. reflexivity.
  - exists (Some "config"). vm_compute. reflexivity.
  - now rewrite H.
Qed.

Lemma make_options_raises_NameError_witness :
  exists w',
    make_options module_optparse sample_world
    = (Raise (Exn NameError "name '%s' is not defined" [PStr "optparse"]), w').
Proof.
  apply (proj1 make_options_raises_NameError sample_world).
  - vm_compute. reflexivity.
  - exists (Some "config"). vm_compute. reflexivity.
Defined.

(** ** Sorting by (section, order) *)

Lemma key_le_total a b : key_le a b = false -> key_le b a = true.
Proof.
  unfold key_le. destruct a as [[s|] n], b as [[t|] m]; simpl;
    try (intros H; apply Nat.leb_gt in H; apply Nat.leb_le; lia).
  rewrite (String.compare_antisym s t).
  destruct (String.compare t s); simpl; try discriminate.
  - intros H; apply Nat.leb_gt in H; apply Nat.leb_le; lia.
  - reflexivity.
Qed.

Section SortByKey.

Context {A : Type}.

Lemma insert_by_key_perm (x : sort_key * A) l :
  Permutation (insert_by_key x l) (x :: l).
Proof.
  induction l as [|y l IH]; simpl; [reflexivity|].
  destruct (key_le (fst x) (fst y)); [reflexivity|].
  rewrite IH. apply perm_swap.
Qed.

Lemma sort_by_key_perm (l : list (sort_key * A)) : Permutation (sort_by_key l) l.
Proof.
  induction l as [|x l IH]; simpl; [reflexivity|].
  rewrite insert_by_key_perm. now constructor.
Qed.

Lemma insert_by_key_hd (x y : sort_key * A) l :
  (@le_by_key A) y x -> HdRel (@le_by_key A) y l -> HdRel (@le_by_key A) y (insert_by_key x l).
Proof.
  intros Hyx Hy. destruct l as [|z l]; simpl.
  - now constructor.
  - destruct (key_le (fst x) (fst z)); constructor; [exact Hyx|].
    now inversion Hy.
Qed.

Lemma insert_by_key_sorted (x : sort_key * A) l :
  Sorted (@le_by_key A) l -> Sorted (@le_by_key A) (insert_by_key x l).
Proof.
  induction 1 as [|y l Hs IH Hhd]; simpl.
  - repeat constructor.
  - destruct (key_le (fst x) (fst y)) eqn:E.
    + constructor; [now constructor|]. now constructor.
    + constructor; [exact IH|].
      apply insert_by_key_hd; [|exact Hhd]. now apply key_le_total.
Qed.

Lemma sort_by_key_sorted (l : list (sort_key * A)) : Sorted (@le_by_key A) (sort_by_key l).
Proof.
  induction l as [|x l IH]; simpl; [constructor|].
  now apply insert_by_key_sorted.
Qed.

End SortByKey.

(** ** Config.parser *)

Lemma mapM_pure {A B} (f : A -> M B) (g : A -> B) (l : list A) (w : world) :
  (forall x, x ∈ l -> f x w = (Ok (g x), w)) ->
  mapM f l w = (Ok (map g l), w).
Proof.
  induction l as [|x l IH]; intros H; simpl; [reflexivity|].
  unfold mbind, M_bind. rewrite (H x) by apply list_elem_of_here.
  rewrite IH by (intros y Hy; apply H; now apply list_elem_of_further).
  reflexivity.
Qed.

Lemma foldM_pure {A B} (f : B -> A -> M B) (h : B -> A -> B) (l : list A) (w : world) :
  forall b,
  (forall b x, x ∈ l -> f b x w = (Ok (h b x), w)) ->
  foldM f l b w = (Ok (fold_left h l b), w).
Proof.
  induction l as [|x l IH]; intros b H; simpl; [reflexivity|].
  unfold mbind, M_bind. rewrite (H b x) by apply list_elem_of_here.
  apply IH. intros b' y Hy. apply H. now apply list_elem_of_further.
Qed.

Lemma offer_accepted (argparse : argparse_library) (calls : list cli_argument) :
  forall accepted,
    (forall before call after,
       calls = before ++ call :: after ->
       argparse (accepted ++ before) call = Ok tt) ->
    offer argparse accepted calls = Ok (accepted ++ calls).
Proof.
  induction calls as [|c calls IH]; intros accepted H; simpl.
  - now rewrite app_nil_r.
  - rewrite <- (app_nil_r accepted) at 1. rewrite (H [] c calls eq_refl). simpl.
    rewrite IH.
    + now rewrite <- app_assoc.
    + intros before call after ->. rewrite <- app_assoc.
      apply (H (c :: before) call after). reflexivity.
Qed.

Lemma offer_refused (argparse : argparse_library) (calls : list cli_argument) :
  forall accepted before call after e,
    calls = before ++ call :: after ->
    (forall b c a, before = b ++ c :: a -> argparse (accepted ++ b) c = Ok tt) ->
    argparse (accepted ++ before) call = Raise e ->
    offer argparse accepted calls = Raise e.
Proof.
  induction calls as [|c calls IH]; intros accepted before call after e Hc Hok He.
  - now destruct before.
  - destruct before as [|b before]; simpl in Hc; injection Hc as -> ->; simpl.
    + rewrite app_nil_r in He. now rewrite He.
    + rewrite <- (app_nil_r accepted) at 1. rewrite (Hok [] b before eq_refl). simpl.
      apply (IH (accepted ++ [b]) before call after e eq_refl).
      * intros b' c' a' ->. rewrite <- app_assoc. apply (Hok (b :: b') c' a').
        reflexivity.
      * now rewrite <- app_assoc.
Qed.

Lemma parser_fold_offer (argparse : argparse_library) (w : world)
    (d : settings_dict) (call : option string -> option cli_argument)
    (ks : list (option string)) :
  (forall k, k ∈ ks ->
     exists l o, dict_get k d = Some l /\ store w !! l = Some o
                 /\ call k = add_argument_call o) ->
  forall p,
    foldM (fun p k =>
             l ← lift (dict_getitem k d);
             o ← read l;
             lift (parser_add_argument argparse p (add_argument_call o))) ks p w
    = (match offer argparse (parser_arguments p) (omap call ks) with
       | Ok calls => Ok (Parser (parser_description p) (parser_epilog p) calls)
       | Raise e => Raise e
       end, w).
Proof.
  induction ks as [|k ks IH]; intros Hks p.
  - simpl. now destruct p.
  - destruct (Hks k) as (l & o & Hl & Ho & Hcall); [apply list_elem_of_here|].
    cbn [foldM]. unfold dict_getitem. munfold. rewrite Hl, Ho.
    cbn [omap list_omap]. rewrite Hcall.
    destruct (add_argument_call o) as [c|]; simpl.
    + destruct (argparse (parser_arguments p) c) as [[]|e]; simpl; [|reflexivity].
      rewrite IH by (intros k' Hk'; apply Hks; now apply list_elem_of_further).
      reflexivity.
    + apply IH. intros k' Hk'. apply Hks. now apply list_elem_of_further.
Qed.

Lemma sorted_map_snd {A} (f : A -> sort_key) (l : list (sort_key * A)) :
  Sorted le_by_key l ->
  Forall (fun x => fst x = f (snd x)) l ->
  Sorted (fun a b => key_le (f a) (f b) = true) (map snd l).
Proof.
  induction 1 as [|x l Hs IH Hhd]; intros Hall; simpl; [constructor|].
  inversion Hall as [|? ? Hx Hl]; subst.
  constructor; [now apply IH|].
  destruct Hhd as [|y l' Hxy]; simpl; constructor.
  inversion Hl as [|? ? Hy _]; subst.
  unfold le_by_key in Hxy. now rewrite Hx, Hy in Hxy.
Qed.

Lemma existsb_decorated {A} (f : A -> sort_key) (P : option string -> bool) (l : list A) :
  existsb (fun x : sort_key * A => P (fst (fst x))) (map (fun k => (f k, k)) l)
  = existsb (fun k => P (fst (f k))) l.
Proof. induction l as [|x l IH]; simpl; [reflexivity | now rewrite IH]. Qed.

Lemma bound_object_lookup w d k o :
  bound_object w d k = Some o ->
  exists l, dict_get k d = Some l /\ store w !! l = Some o.
Proof.
  unfold bound_object. destruct (dict_get k d) as [l|]; [eauto | discriminate].
Qed.

Lemma Config_parser_offers system argparse version w self d sd se :
  self !! "settings" = Some (Settings d) ->
  self !! "description" = Some sd ->
  self !! "epilog" = Some se ->
  (forall k, k ∈ dict_keys d -> is_Some (bound_object w d k)) ->
  sections_comparable w d = true ->
  exists ks,
    Permutation ks (dict_keys d)
    /\ Sorted (keys_le w d) ks
    /\ Config_parser system argparse version self w
       = (match offer argparse []
                  (version_call version :: omap (bound_argument w d) ks) with
          | Ok calls => Ok (Parser (Attr sd) (Attr se) calls)
          | Raise e => Raise e
          end, w).
Proof.
  intros Hs Hde Hep Hobj Hsec.
  set (decorated := map (fun k => (bound_key w d k, k)) (dict_keys d)).
  set (ks := map snd (sort_by_key decorated)).
  assert (Hperm : Permutation ks (dict_keys d)).
  { unfold ks. rewrite (sort_by_key_perm decorated). unfold decorated.
    rewrite map_map. simpl. now rewrite map_id. }
  assert (Hbody : forall k, k ∈ dict_keys d ->
            exists l o, dict_get k d = Some l /\ store w !! l = Some o
                        /\ bound_key w d k = sorter_of o
                        /\ bound_argument w d k = add_argument_call o).
  { intros k Hk. destruct (Hobj k Hk) as (o & Ho).
    destruct (bound_object_lookup _ _ _ _ Ho) as (l & Hl & Hst).
    exists l, o. unfold bound_key, bound_argument. rewrite Ho. auto. }
  exists ks. split; [exact Hperm|]. split.
  - unfold ks, keys_le. apply sorted_map_snd; [apply sort_by_key_sorted|].
    apply List.Forall_forall. intros x Hx.
    apply (Permutation_in _ (sort_by_key_perm decorated)) in Hx.
    unfold decorated in Hx. apply in_map_iff in Hx as (k & <- & _). reflexivity.
  - unfold Config_parser, Config_getattribute. simpl.
    rewrite Hde, Hep.
    unfold mbind at 1, M_bind at 1, mret at 1, M_ret at 1.
    unfold mbind at 1, M_bind at 1, mret at 1, M_ret at 1.
    unfold mbind at 1, M_bind at 1, lift at 1.
    unfold version_call.
    destruct (argparse [] _) as [[]|e]; simpl; [|reflexivity].
    unfold self_settings. rewrite Hs.
    unfold mbind at 1, M_bind at 1, lift at 1.
    unfold mbind at 1, M_bind at 1.
    rewrite (mapM_pure _ (fun k => (bound_key w d k, k))).
    2:{ intros k Hk. destruct (Hbody k Hk) as (l & o & Hl & Ho & Hkey & _).
        unfold dict_getitem. munfold. now rewrite Hl, Ho, Hkey. }
    fold decorated.
    unfold mbind at 1, M_bind at 1, lift at 1, sorted.
    unfold has_none_section, has_str_section, decorated.
    rewrite (existsb_decorated (bound_key w d)
               (fun s => match s with None => true | Some _ => false end)).
    rewrite (existsb_decorated (bound_key w d)
               (fun s => match s with None => false | Some _ => true end)).
    unfold sections_comparable in Hsec. apply negb_true_iff in Hsec.
    rewrite Hsec. fold decorated. fold ks.
    rewrite (parser_fold_offer argparse w d (bound_argument w d) ks).
    + reflexivity.
    + intros k Hk.
      assert (Hin : k ∈ dict_keys d).
      { apply list_elem_of_In. apply (Permutation_in _ Hperm).
        now apply list_elem_of_In. }
      destruct (Hbody k Hin) as (l & o & Hl & Ho & _ & Harg). eauto.
Qed.

Lemma objects_in_store_bound w d :
  objects_in_store w d = true ->
  forall k, k ∈ dict_keys d -> is_Some (bound_object w d k).
Proof.
  unfold objects_in_store. intros H k Hk.
  rewrite forallb_forall in H. apply list_elem_of_In in Hk.
  specialize (H k Hk). destruct (bound_object w d k); [eauto | discriminate].
Qed.

Lemma add_argument_call_surface o :
  is_Some (add_argument_call o) <-> has_cli_surface o = true.
Proof.
  unfold add_argument_call, has_cli_surface.
  destruct (truthy_cli (Setting.cli (Setting.cls o))); simpl.
  - split; [reflexivity | eauto].
  - destruct (truthy (Setting.nargs (Setting.cls o))
              && truthy_str (Setting.name (Setting.cls o))).
    + split; [reflexivity | eauto].
    + split; [intros [x Hx]; discriminate | discriminate].
Qed.

(** C6 (as amended): on a Config whose bound settings have comparable
    sections, [parser()] offers to the parser, after the version flag,
    the arguments of the bound settings taken in (section, order)
    order; a setting with flags, or with an arity and a name, gives one
    argument and any other setting gives none.  [parser()] returns the
    parser, with these arguments, when [argparse] accepts every one of
    the calls in its turn; otherwise it raises the failure of the first
    call [argparse] refuses (a repeated option string, say), and the
    state is the same either way. *)
Theorem Config_parser_order (system : System) (argparse : argparse_library)
    (version : string) (w : world) (self : instance) (d : settings_dict)
    (sd se : slot) :
  self !! "settings" = Some (Settings d) ->
  self !! "description" = Some sd ->
  self !! "epilog" = Some se ->
  objects_in_store w d = true ->
  sections_comparable w d = true ->
  (exists ks,
     Permutation ks (dict_keys d)
     /\ Sorted (keys_le w d) ks
     /\ Config_parser system argparse version self w
        = (match offer argparse []
                   (version_call version :: omap (bound_argument w d) ks) with
           | Ok calls => Ok (Parser (Attr sd) (Attr se) calls)
           | Raise e => Raise e
           end, w)
     /\ (accepts_all argparse
           (version_call version :: omap (bound_argument w d) ks) ->
         exists p,
           Config_parser system argparse version self w = (Ok p, w)
           /\ parser_arguments p
              = version_call version :: omap (bound_argument w d) ks)
     /\ (forall before call after e,
           version_call version :: omap (bound_argument w d) ks
           = before ++ call :: after ->
           accepts_all argparse before ->
           argparse before call = Raise e ->
           Config_parser system argparse version self w = (Raise e, w)))
  /\ (forall k o,
        bound_object w d k = Some o ->
        (is_Some (bound_argument w d k) <-> has_cli_surface o = true)).
Proof.
  intros Hs Hde Hep Hobj Hsec. split.
  - destruct (Config_parser_offers system argparse version w self d sd se
                Hs Hde Hep (objects_in_store_bound _ _ Hobj) Hsec)
      as (ks & Hperm & Hsorted & Hrun).
    exists ks. split; [exact Hperm|]. split; [exact Hsorted|].
    split; [exact Hrun|]. split.
    + intros Hall. rewrite Hrun, offer_accepted by exact Hall.
      eexists. split; reflexivity.
    + intros before call after e Hcalls Hbefore He. rewrite Hrun.
      now rewrite (offer_refused argparse _ [] before call after e Hcalls Hbefore He).
  - intros k o Ho. unfold bound_argument. rewrite Ho.
    apply add_argument_call_surface.
Qed.

Lemma Config_parser_order_witness :
  (exists ks,
     Permutation ks (dict_keys module_settings)
     /\ Sorted (keys_le module_config_world module_settings) ks
     /\ Config_parser sample_system sample_argparse "0.1" module_config
          module_config_world
        = (match offer sample_argparse []
                   (version_call "0.1"
                    :: omap (bound_argument module_config_world module_settings)
                         ks) with
           | Ok calls =>
               Ok (Parser (Attr (Value (PStr "Pulsar server")))
                     (Attr (Value (PStr "Have fun!"))) calls)
           | Raise e => Raise e
           end, module_config_world))
  /\ (forall k o,
        bound_object module_config_world module_settings k = Some o ->
        (is_Some (bound_argument module_config_world module_settings k)
         <-> has_cli_surface o = true)).
Proof.
  pose proof (Config_parser_order sample_system sample_argparse "0.1"
                module_config_world module_config module_settings
                (Value (PStr "Pulsar server")) (Value (PStr "Have fun!"))) as H.
  do 5 (match type of H with
        | ?A -> _ =>
            let h := fresh in
            assert (h : A) by (vm_compute; reflexivity); specialize (H h); clear h
        end).
  destruct H as ((ks & Hperm & Hsorted & Hrun & _) & Hsurface).
  split; [|exact Hsurface].
  exists ks. split; [exact Hperm|]. split; [exact Hsorted | exact Hrun].
Defined.

(** C6 (counterexample): [Config()] on the module's registry binds 26
    settings and its parser receives 17 calls, the version flag and 16
    arguments: ten settings add none.  [make_options] raises
    [NameError]; were [optparse] bound, it would emit the options in
    the order of declaration, not in the (section, order) order the
    parser follows. *)
Lemma parser_skips_settings_and_make_options_fails :
  length (dict_keys module_settings) = 26%nat
  /\ length <$> parser_calls sample_system sample_argparse "0.1" module_config
                  module_config_world
     = Some 17%nat
  /\ fst (make_options module_optparse sample_world) = Raise NameError_optparse
  /\ first_flags (returned [] (make_options recording_optparse sample_world))
     = ["-c"; "-w"; "--concurrency"; "--max-requests"; "-t"; "--keep-alive";
        "--http-proxy"; "--debug"; "-D"; "-p"; "-u"; "-g"; "-m";
        "--log-level"; "--log-every"; "-n"]
  /\ first_flags <$> parser_calls sample_system sample_argparse "0.1" module_config
                  module_config_world
     = Some ["--version"; "-c"; "--debug"; "--http-proxy"; "--log-level";
             "--log-every"; "-n"; "-D"; "-p"; "-u"; "-g"; "-m"; "-w";
             "--concurrency"; "--max-requests"; "-t"; "--keep-alive"].
Proof. by_computation. Qed.

(* ===================================================================== *)
(** * Further properties *)
(* ===================================================================== *)

(** ** Validators *)

Lemma lstrip_chars_split cs :
  exists pre, cs = pre ++ lstrip_chars cs /\ forallb is_space pre = true.
Proof.
  induction cs as [|c cs (pre & Hcs & Hpre)]; simpl.
  - exists []. auto.
  - destruct (is_space c) eqn:E.
    + exists (c :: pre). simpl. rewrite E, Hpre. split; [now f_equal | reflexivity].
    + exists []. auto.
Qed.

Lemma lstrip_chars_head_not_space cs c r :
  lstrip_chars cs = c :: r -> is_space c = false.
Proof.
  induction cs as [|c' cs IH]; simpl; [discriminate|].
  destruct (is_space c') eqn:E; [exact IH|]. now intros [= <- <-].
Qed.

Lemma strip_chars_trimmed cs : trimmed_chars (strip_chars cs) = true.
Proof.
  unfold strip_chars, trimmed_chars. rewrite rev_involutive.
  set (a := lstrip_chars cs).
  destruct (lstrip_chars_split (rev a)) as (pre & Hrev & Hpre).
  set (b := lstrip_chars (rev a)) in *.
  apply andb_true_iff. split.
  - destruct b as [|x b'] eqn:Eb; [reflexivity|].
    assert (Ha : a = rev (x :: b') ++ rev pre).
    { rewrite <- rev_app_distr, <- Hrev. now rewrite rev_involutive. }
    destruct (rev (x :: b')) as [|y r] eqn:Er.
    + apply (f_equal (@length _)) in Er. rewrite length_rev in Er. discriminate.
    + simpl in Ha. apply lstrip_chars_head_not_space in Ha. now rewrite Ha.
  - destruct b as [|x b'] eqn:Eb; [reflexivity|].
    apply lstrip_chars_head_not_space in Eb. now rewrite Eb.
Qed.

Lemma strip_chars_of_trimmed cs : trimmed_chars cs = true -> strip_chars cs = cs.
Proof.
  unfold trimmed_chars, strip_chars. intros H.
  apply andb_true_iff in H as [Hh Hl].
  assert (H1 : lstrip_chars cs = cs).
  { destruct cs as [|c r]; [reflexivity|]. simpl in *.
    apply negb_true_iff in Hh. now rewrite Hh. }
  rewrite H1.
  assert (H2 : lstrip_chars (rev cs) = rev cs).
  { destruct (rev cs) as [|c r]; [reflexivity|]. simpl.
    apply negb_true_iff in Hl. now rewrite Hl. }
  rewrite H2. apply rev_involutive.
Qed.

Lemma strip_trimmed s : trimmed (strip s) = true.
Proof.
  unfold trimmed, strip. rewrite list_ascii_of_string_of_list_ascii.
  apply strip_chars_trimmed.
Qed.

Lemma strip_idempotent s : strip (strip s) = strip s.
Proof.
  unfold strip at 1. unfold strip at 1.
  rewrite list_ascii_of_string_of_list_ascii.
  now rewrite (strip_chars_of_trimmed _ (strip_chars_trimmed _)).
Qed.

Lemma module_validator_idempotent func raw v :
  module_validator func -> func raw = Ok v -> func v = Ok v.
Proof.
  intros Hf H. destruct Hf.
  - unfold validate_bool in H. destruct raw; try discriminate.
    + now injection H as <-.
    + destruct (String.eqb _ _); [now injection H as <-|].
      destruct (String.eqb _ _); [now injection H as <-|discriminate].
  - unfold validate_pos_int in *.
    destruct (pos_int_convert raw) as [z|e]; simpl in H; [|discriminate].
    destruct (z <? 0) eqn:E; [discriminate|]. injection H as <-.
    simpl. now rewrite E.
  - unfold validate_string in H. destruct raw; try discriminate.
    + now injection H as <-.
    + injection H as <-. simpl. now rewrite strip_idempotent.
  - unfold validate_list in *.
    destruct (truthy raw && negb (isinstance_list raw)) eqn:E; [discriminate|].
    injection H as <-. now rewrite E.
  - unfold validate_callable in *. destruct raw; try discriminate.
    destruct (negb _) eqn:E; [discriminate|]. injection H as <-. now rewrite E.
Qed.

(** X1: what a validator of the module returns passes the same
    validator again unchanged; so after a successful [set(raw)],
    [set(get())] returns and leaves the whole state as it is. *)
Theorem set_of_stored_value_is_noop (w w' : world) (self : loc)
    (o : Setting.object) (func : pyval -> result pyval) (raw : pyval) :
  store w !! self = Some o ->
  Setting.validator (Setting.cls o) = Some func ->
  module_validator func ->
  Setting_set self raw w = (Ok tt, w') ->
  exists v, func raw = Ok v
            /\ func v = Ok v
            /\ Setting_get self w' = (Ok v, w')
            /\ Setting_set self v w' = (Ok tt, w').
Proof.
  intros Ho Hf Hm Hset.
  destruct (func raw) as [v|e] eqn:Hv.
  - rewrite (Setting_set_ok _ _ _ _ _ _ Ho Hf Hv) in Hset.
    injection Hset as <-. exists v.
    pose proof (module_validator_idempotent _ _ _ Hm Hv) as Hvv.
    assert (Hlt : (self < length (store w))%nat) by (eapply lookup_lt_Some; eauto).
    assert (Ho' : store (World (KNOWN_SETTINGS w) (KNOWN_SETTINGS_SET w)
                           (<[self := Setting.with_value o v]> (store w))) !! self
                  = Some (Setting.with_value o v))
      by (simpl; now apply list_lookup_insert_eq).
    split; [reflexivity|]. split; [exact Hvv|]. split.
    + now rewrite (Setting_get_ok _ _ _ Ho').
    + rewrite (Setting_set_ok _ _ (Setting.with_value o v) func v v Ho' Hf Hvv).
      simpl. f_equal. f_equal. rewrite list_insert_insert_eq. reflexivity.
  - rewrite (Setting_set_raise _ _ _ _ _ _ Ho Hf Hv) in Hset. discriminate.
Qed.

Lemma set_of_stored_value_is_noop_witness :
  exists v, validate_pos_int (PStr "0x10") = Ok v
            /\ validate_pos_int v = Ok v
            /\ Setting_get 1%nat
                 (snd (Setting_set 1%nat (PStr "0x10") workers_config_world))
               = (Ok v, snd (Setting_set 1%nat (PStr "0x10") workers_config_world))
            /\ Setting_set 1%nat v
                 (snd (Setting_set 1%nat (PStr "0x10") workers_config_world))
               = (Ok tt, snd (Setting_set 1%nat (PStr "0x10") workers_config_world)).
Proof.
  apply (set_of_stored_value_is_noop workers_config_world
           (snd (Setting_set 1%nat (PStr "0x10") workers_config_world))
           1%nat workers_object validate_pos_int (PStr "0x10")).
  - reflexivity.
  - reflexivity.
  - constructor.
  - reflexivity.
Defined.

(** X2: [validate_string] lets [None] through and returns a string
    trimmed at both ends; on what is neither it raises [TypeError] with
    the value as operand. *)
Theorem validate_string_trims (val : pyval) :
  match validate_string val with
  | Ok v =>
      (val = PNone /\ v = PNone)
      \/ (exists s t, val = PStr s /\ v = PStr t /\ t = strip s
                      /\ trimmed t = true /\ strip t = t)
  | Raise e =>
      exn_class e = TypeError /\ exn_operands e = [val]
      /\ val <> PNone /\ forall s, val <> PStr s
  end.
Proof.
  destruct val; simpl; try (repeat split; congruence).
  - left. auto.
  - right. exists s, (strip s). repeat split.
    + apply strip_trimmed.
    + apply strip_idempotent.
Qed.

(** ** The registry *)

Lemma register_names c w :
  KNOWN_SETTINGS_SET (snd (register c w))
  = match Setting.name c with
    | Some n => if String.eqb n "" then KNOWN_SETTINGS_SET w
                else set_add n (KNOWN_SETTINGS_SET w)
    | None => KNOWN_SETTINGS_SET w
    end.
Proof.
  unfold register, set_add, truthy_str. simpl.
  destruct (Setting.name c) as [n|]; [|reflexivity].
  destruct (String.eqb n ""); reflexivity.
Qed.

Lemma registered_names_snoc known c :
  registered_names (known ++ [c])
  = match Setting.name c with
    | Some n => if String.eqb n "" then registered_names known
                else set_add n (registered_names known)
    | None => registered_names known
    end.
Proof. unfold registered_names. now rewrite fold_left_app. Qed.

Lemma registered_names_spec known n :
  n ∈ registered_names known
  <-> n <> "" /\ exists c, In c known /\ Setting.name c = Some n.
Proof.
  induction known as [|c known IH] using rev_ind.
  - simpl. split; [intros H; inversion H | intros (_ & c & [] & _)].
  - rewrite registered_names_snoc.
    assert (Hadd : forall m, n ∈ set_add m (registered_names known)
                             <-> n = m \/ n ∈ registered_names known).
    { intros m. unfold set_add. case_bool_decide as E.
      - split; [auto | intros [->|H]; assumption].
      - rewrite elem_of_app, list_elem_of_singleton. tauto. }
    destruct (Setting.name c) as [m|] eqn:Hn.
    + destruct (String.eqb m "") eqn:Em.
      * apply String.eqb_eq in Em. subst m. rewrite IH. split.
        -- intros (Hne & c' & Hin & Hc'). split; [exact Hne|].
           exists c'. split; [apply in_or_app; auto | exact Hc'].
        -- intros (Hne & c' & Hin & Hc'). split; [exact Hne|].
           apply in_app_or in Hin as [Hin|[<-|[]]]; [eauto|congruence].
      * apply String.eqb_neq in Em. rewrite Hadd, IH. split.
        -- intros [->|(Hne & c' & Hin & Hc')].
           ++ split; [exact Em|]. exists c. split; [apply in_or_app; simpl; auto|exact Hn].
           ++ split; [exact Hne|]. exists c'. split; [apply in_or_app; auto|exact Hc'].
        -- intros (Hne & c' & Hin & Hc').
           apply in_app_or in Hin as [Hin|[<-|[]]]; [right; eauto|left; congruence].
    + rewrite IH. split.
      * intros (Hne & c' & Hin & Hc'). split; [exact Hne|].
        exists c'. split; [apply in_or_app; auto | exact Hc'].
      * intros (Hne & c' & Hin & Hc'). split; [exact Hne|].
        apply in_app_or in Hin as [Hin|[<-|[]]]; [eauto|congruence].
Qed.

Lemma registry_wf_parts w :
  registry_wf w = true <->
  map Setting.order (KNOWN_SETTINGS w) = seq 0 (length (KNOWN_SETTINGS w))
  /\ forallb (fun c => is_some (Setting.validator c)
                       && is_some (Setting.desc c)
                       && is_some (Setting.short c)) (KNOWN_SETTINGS w) = true
  /\ KNOWN_SETTINGS_SET w = registered_names (KNOWN_SETTINGS w).
Proof.
  unfold registry_wf. rewrite !andb_true_iff, !bool_decide_eq_true. tauto.
Qed.

Lemma registry_wf_register c w :
  registry_wf w = true ->
  Setting.order c = length (KNOWN_SETTINGS w) ->
  is_some (Setting.validator c) && is_some (Setting.desc c)
    && is_some (Setting.short c) = true ->
  registry_wf (snd (register c w)) = true.
Proof.
  rewrite !registry_wf_parts. intros (Ho & Hv & Hs) Hc Hcv.
  split; [|split].
  - simpl. rewrite map_app, length_app. simpl. rewrite Nat.add_1_r, seq_S.
    simpl. now rewrite Ho, Hc.
  - simpl. rewrite forallb_app, Hv. simpl. now rewrite Hcv.
  - rewrite register_names.
    change (KNOWN_SETTINGS (snd (register c w))) with (KNOWN_SETTINGS w ++ [c]).
    rewrite registered_names_snoc, Hs. reflexivity.
Qed.

Lemma SettingMeta_new_cases dedent classname base attrs w :
  (not_virtual attrs = false
   /\ SettingMeta_new dedent classname base attrs w
      = (Ok (super_new classname base attrs), w))
  \/ (not_virtual attrs = true /\ attrs_get sel_desc attrs = None
      /\ SettingMeta_new dedent classname base attrs w
         = (Raise (Exn KeyError "%r" [PStr "desc"]), w))
  \/ (not_virtual attrs = true
      /\ exists c,
           SettingMeta_new dedent classname base attrs w = (Ok c, snd (register c w))
           /\ Setting.order c = length (KNOWN_SETTINGS w)
           /\ Setting.name c = inherit sel_name attrs (Setting.name base)
           /\ is_some (Setting.validator c) && is_some (Setting.desc c)
                && is_some (Setting.short c) = true).
Proof.
  destruct (not_virtual attrs) eqn:Hv.
  - right. destruct (attrs_get sel_desc attrs) as [d|] eqn:Hd.
    + right. split; [reflexivity|].
      unfold not_virtual in Hv. apply negb_true_iff in Hv.
      unfold SettingMeta_new. rewrite Hv.
      unfold mbind, M_bind, get_world.
      rewrite !attrs_get_snoc. cbn [sel_desc]. rewrite Hd.
      unfold mbind, M_bind, mret, M_ret.
      eexists. split; [reflexivity|].
      split; [|split].
      * simpl. unfold inherit. rewrite !attrs_get_snoc. reflexivity.
      * simpl. unfold inherit. rewrite !attrs_get_snoc. reflexivity.
      * simpl. rewrite !attrs_get_snoc. reflexivity.
    + left. split; [reflexivity|]. split; [reflexivity|].
      unfold not_virtual in Hv. apply negb_true_iff in Hv.
      unfold SettingMeta_new. rewrite Hv.
      unfold mbind, M_bind, get_world.
      rewrite !attrs_get_snoc. cbn [sel_desc]. rewrite Hd. reflexivity.
  - left. split; [reflexivity|].
    unfold not_virtual in Hv. apply negb_false_iff in Hv.
    unfold SettingMeta_new. now rewrite Hv.
Qed.

(** X3: a class statement keeps the registry well formed, whatever it
    declares and whether it returns or raises: afterwards the order of
    every registered class is its position in [KNOWN_SETTINGS], every
    registered class has a callable validator, [KNOWN_SETTINGS_SET]
    holds exactly the non-empty names of the registered classes, the
    classes registered before are still there, in place, at most one
    class has been added, and the store is untouched. *)
Theorem class_statement_keeps_registry (dedent : string -> string)
    (classname : string) (base : Setting.class) (attrs : list attr)
    (w w' : world) (r : result Setting.class) :
  registry_wf w = true ->
  SettingMeta_new dedent classname base attrs w = (r, w') ->
  registry_wf w' = true
  /\ store w' = store w
  /\ (exists new, KNOWN_SETTINGS w' = KNOWN_SETTINGS w ++ new
                  /\ (length new <= 1)%nat)
  /\ (forall i c, KNOWN_SETTINGS w' !! i = Some c ->
        Setting.order c = i /\ is_some (Setting.validator c) = true)
  /\ (forall n, n ∈ KNOWN_SETTINGS_SET w'
                <-> n <> "" /\ exists c, In c (KNOWN_SETTINGS w')
                                         /\ Setting.name c = Some n).
Proof.
  intros Hwf Hnew.
  assert (Hwf' : registry_wf w' = true
                 /\ store w' = store w
                 /\ exists new, KNOWN_SETTINGS w' = KNOWN_SETTINGS w ++ new
                                /\ (length new <= 1)%nat).
  { destruct (SettingMeta_new_cases dedent classname base attrs w)
      as [(_ & H) | [(_ & _ & H) | (_ & c & H & Hord & _ & Hcv)]];
      rewrite H in Hnew; injection Hnew as <- <-.
    - split; [exact Hwf|]. split; [reflexivity|].
      exists []. rewrite app_nil_r. simpl. auto.
    - split; [exact Hwf|]. split; [reflexivity|].
      exists []. rewrite app_nil_r. simpl. auto.
    - split; [now apply registry_wf_register|]. split; [reflexivity|].
      exists [c]. simpl. auto. }
  destruct Hwf' as (Hw' & Hst & Hpre).
  split; [exact Hw'|]. split; [exact Hst|]. split; [exact Hpre|].
  apply registry_wf_parts in Hw' as (Ho & Hv & Hs). split.
  - intros i c Hi. split.
    + assert (Hm : map Setting.order (KNOWN_SETTINGS w') !! i = Some (Setting.order c))
        by (rewrite list_lookup_fmap, Hi; reflexivity).
      rewrite Ho in Hm. apply lookup_seq in Hm as [Hm _]. simpl in Hm. congruence.
    + rewrite forallb_forall in Hv.
      assert (Hin : In c (KNOWN_SETTINGS w')).
      { apply list_elem_of_In. eapply list_elem_of_lookup_2; eauto. }
      specialize (Hv c Hin). apply andb_true_iff in Hv as [Hv _].
      now apply andb_true_iff in Hv as [Hv _].
  - intros n. rewrite Hs. apply registered_names_spec.
Qed.

Lemma class_statement_keeps_registry_witness :
  registry_wf (snd redeclared) = true
  /\ store (snd redeclared) = store sample_world
  /\ (exists new, KNOWN_SETTINGS (snd redeclared) = KNOWN_SETTINGS sample_world ++ new
                  /\ (length new <= 1)%nat)
  /\ (forall i c, KNOWN_SETTINGS (snd redeclared) !! i = Some c ->
        Setting.order c = i /\ is_some (Setting.validator c) = true)
  /\ (forall n, n ∈ KNOWN_SETTINGS_SET (snd redeclared)
                <-> n <> "" /\ exists c, In c (KNOWN_SETTINGS (snd redeclared))
                                         /\ Setting.name c = Some n).
Proof.
  apply (class_statement_keeps_registry (fun s => s) "Workers2" Setting_class
           Workers2_attrs sample_world (snd redeclared) (fst redeclared)).
  - vm_compute. reflexivity.
  - unfold redeclared. apply surjective_pairing.
Defined.

(** ** make_settings and classes that cannot be instantiated *)

Lemma Setting_new_raise_world c w e :
  init_value c = Raise e ->
  Setting_new c w
  = (Raise e, with_store w (store w ++ [Setting.Object c None None None])).
Proof.
  unfold init_value, Setting_new, Setting_init, Setting_set, with_store.
  munfold. simpl. intros H.
  rewrite lookup_snoc. simpl.
  destruct (is_none (Setting.default c)); simpl; [discriminate|].
  rewrite lookup_snoc. simpl.
  destruct (Setting.validator c) as [func|].
  - destruct (func (Setting.default c)) as [v'|e']; simpl in H; [discriminate|].
    now injection H as <-.
  - now injection H as <-.
Qed.

Lemma make_settings_loop_fails app include exclude c post e pre :
  forall settings w,
  forallb instantiable pre = true ->
  init_value c = Raise e ->
  exists w',
    make_settings_loop app include exclude (pre ++ c :: post) settings w
    = (Raise e, w')
    /\ KNOWN_SETTINGS w' = KNOWN_SETTINGS w
    /\ KNOWN_SETTINGS_SET w' = KNOWN_SETTINGS_SET w
    /\ exists new, store w' = store w ++ new.
Proof.
  induction pre as [|a pre IH]; intros settings w Hall Hc.
  - simpl. unfold mbind at 1, M_bind at 1.
    rewrite (Setting_new_raise_world _ _ _ Hc).
    eexists. split; [reflexivity|]. simpl. eauto.
  - simpl in Hall. apply andb_true_iff in Hall as [Ha Hall].
    assert (Hstep : forall s' w1,
              KNOWN_SETTINGS w1 = KNOWN_SETTINGS w ->
              KNOWN_SETTINGS_SET w1 = KNOWN_SETTINGS_SET w ->
              (exists new, store w1 = store w ++ new) ->
              exists w',
                make_settings_loop app include exclude (pre ++ c :: post) s' w1
                = (Raise e, w')
                /\ KNOWN_SETTINGS w' = KNOWN_SETTINGS w
                /\ KNOWN_SETTINGS_SET w' = KNOWN_SETTINGS_SET w
                /\ exists new, store w' = store w ++ new).
    { intros s' w1 HK HS (new & Hst).
      destruct (IH s' w1 Hall Hc) as (w' & Hl & HK' & HS' & new' & Hst').
      exists w'. split; [exact Hl|]. split; [congruence|]. split; [congruence|].
      exists (new ++ new'). rewrite Hst', Hst. now rewrite app_assoc. }
    cbn [List.app make_settings_loop].
    unfold mbind at 1, M_bind at 1.
    rewrite (Setting_new_ok _ _ _ (instantiable_init _ Ha)).
    fold (initialised a).
    unfold mbind at 1, M_bind at 1, read at 1. simpl.
    rewrite lookup_snoc. simpl.
    destruct (truthy_str (Setting.app a) && negb (bool_decide (Setting.app a = app)));
      [apply Hstep; simpl; eauto|].
    destruct (truthy_names include
              && negb (name_in (Setting.name a) (default [] include))
              && negb (truthy_str (Setting.app a))); [apply Hstep; simpl; eauto|].
    destruct (name_in (Setting.name a) exclude); [apply Hstep; simpl; eauto|].
    unfold mbind at 1, M_bind at 1, Setting_copy.
    unfold mbind at 1, M_bind at 1, read at 1, alloc. simpl.
    rewrite lookup_snoc. simpl.
    apply Hstep; simpl; [reflexivity | reflexivity |].
    eexists. rewrite <- app_assoc. reflexivity.
Qed.

(** X4: [make_settings] instantiates every registered class before it
    looks at the filters, so one class whose default its validator
    rejects makes every call fail, whatever [app], [include] and
    [exclude] are, also when that class is excluded: the call raises the
    failure of the first such class, the registry is as before, and the
    objects that existed before are untouched (the store has only
    grown). *)
Theorem make_settings_fails_on_first_bad_class (w : world) (app : option string)
    (include exclude : option (list string))
    (pre post : list Setting.class) (c : Setting.class) (e : exn) :
  KNOWN_SETTINGS w = pre ++ c :: post ->
  forallb instantiable pre = true ->
  init_value c = Raise e ->
  exists w',
    make_settings app include exclude w = (Raise e, w')
    /\ KNOWN_SETTINGS w' = KNOWN_SETTINGS w
    /\ KNOWN_SETTINGS_SET w' = KNOWN_SETTINGS_SET w
    /\ exists new, store w' = store w ++ new.
Proof.
  intros HK Hall Hc. unfold make_settings.
  unfold mbind, M_bind, get_world.
  destruct (make_settings_loop_fails app include
              (if truthy_names exclude then default [] exclude else [])
              c post e pre [] w Hall Hc) as (w' & Hl & H).
  exists w'. split; [now rewrite HK | exact H].
Qed.

Lemma make_settings_fails_on_first_bad_class_witness :
  exists w',
    make_settings None None (Some ["broken"]) broken_world
    = (Raise (Exn ValueError "Value must be positive: %s" [PInt (-1)]), w')
    /\ KNOWN_SETTINGS w' = KNOWN_SETTINGS broken_world
    /\ KNOWN_SETTINGS_SET w' = KNOWN_SETTINGS_SET broken_world
    /\ exists new, store w' = store broken_world ++ new.
Proof.
  apply (make_settings_fails_on_first_bad_class broken_world None None
           (Some ["broken"]) (KNOWN_SETTINGS sample_world) [] broken_class).
  - reflexivity.
  - vm_compute. reflexivity.
  - reflexivity.
Defined.

(** ** Config.set, attribute assignment and construction *)

Lemma Config_set_unbound w self d name raw :
  self !! "settings" = Some (Settings d) ->
  dict_get (Some name) d = None ->
  Config_set self name raw w
  = (Raise (Exn AttributeError "No configuration setting for: %s" [PStr name]), w).
Proof.
  intros Hs Hd. unfold Config_set, self_settings. munfold.
  now rewrite Hs, (contains_unbound _ _ Hd).
Qed.

Lemma Setting_set_raise_same l raw w e w' :
  Setting_set l raw w = (Raise e, w') -> w' = w.
Proof.
  unfold Setting_set. munfold.
  destruct (store w !! l) as [o|]; [|now intros [= _ <-]].
  destruct (Setting.validator (Setting.cls o)) as [func|]; [|now intros [= _ <-]].
  destruct (func raw) as [v|e']; [discriminate | now intros [= _ <-]].
Qed.

Lemma Config_set_raise_same self name raw w e w' :
  Config_set self name raw w = (Raise e, w') -> w' = w.
Proof.
  unfold Config_set. munfold.
  destruct (self_settings self) as [s|e0]; [|now intros [= _ <-]].
  destruct (contains name s) as [[|]|e0]; simpl; try now intros [= _ <-].
  destruct (getitem name s) as [l|e0]; [|now intros [= _ <-]].
  apply Setting_set_raise_same.
Qed.

(** X5: a [Config.set] that raises leaves the whole state as it was,
    whatever the instance, the name and the value; and for a name that
    is not among the bound settings it raises [AttributeError] naming
    it, also when the name is registered (where an attribute read
    yields [None]). *)
Theorem Config_set_fails_cleanly (w : world) (self : instance) (name : string)
    (raw : pyval) :
  (forall e w', Config_set self name raw w = (Raise e, w') -> w' = w)
  /\ (forall d,
        self !! "settings" = Some (Settings d) ->
        dict_get (Some name) d = None ->
        Config_set self name raw w
        = (Raise (Exn AttributeError "No configuration setting for: %s" [PStr name]),
           w)).
Proof.
  split.
  - intros e w'. apply Config_set_raise_same.
  - intros d. apply Config_set_unbound.
Qed.

Lemma Config_set_fails_cleanly_witness :
  (forall e w',
     Config_set excluded_config "debug" (PStr "yes") excluded_config_world
     = (Raise e, w') -> w' = excluded_config_world)
  /\ Config_set excluded_config "debug" (PStr "yes") excluded_config_world
     = (Raise (Exn AttributeError "No configuration setting for: %s" [PStr "debug"]),
        excluded_config_world).
Proof.
  destruct (Config_set_fails_cleanly excluded_config_world excluded_config
              "debug" (PStr "yes")) as [Ha Hb].
  split; [exact Ha|].
  apply (Hb excluded_settings); vm_compute; reflexivity.
Defined.

Lemma Config_setattr_bound w self d name l raw :
  self !! "settings" = Some (Settings d) ->
  name <> "settings" ->
  dict_get (Some name) d = Some l ->
  Config_setattr self name raw w
  = (Raise (Exn AttributeError "Invalid access!" []), w).
Proof.
  intros Hs Hn Hd. unfold Config_setattr, self_settings. munfold.
  apply String.eqb_neq in Hn. rewrite Hn. simpl.
  now rewrite Hs, (contains_bound _ _ _ Hd).
Qed.

Lemma Config_setattr_settings_accepted w self raw :
  Config_setattr self "settings" raw w
  = (Ok (<["settings" := Value raw]> self), w).
Proof. reflexivity. Qed.

(** X6: attribute assignment on a Config is refused for every bound
    setting name, with [AttributeError("Invalid access!")] and no
    change; the one name the guard lets through is ["settings"] itself,
    which is always accepted and replaces the settings dictionary by
    the assigned value.  After [cfg.settings = v] with [v] a value that
    is no container ([None], a boolean, an integer or a plain
    function) the test [name not in self.settings] cannot be made, and
    every [set] raises [TypeError], leaving the state as it is. *)
Theorem Config_setattr_guard (w : world) (self : instance) (d : settings_dict) :
  self !! "settings" = Some (Settings d) ->
  (forall name l raw,
     name <> "settings" ->
     dict_get (Some name) d = Some l ->
     Config_setattr self name raw w
     = (Raise (Exn AttributeError "Invalid access!" []), w))
  /\ (forall raw,
        Config_setattr self "settings" raw w
        = (Ok (<["settings" := Value raw]> self), w))
  /\ (forall raw name v w1,
        not_a_container raw = true ->
        exists e,
          Config_set (<["settings" := Value raw]> self) name v w1 = (Raise e, w1)
          /\ exn_class e = TypeError).
Proof.
  intros Hs. split; [|split].
  - intros name l raw Hn Hd. now apply (Config_setattr_bound w self d name l).
  - intros raw. apply Config_setattr_settings_accepted.
  - intros raw name v w1 Hraw.
    unfold Config_set, self_settings. munfold.
    rewrite !(lookup_insert_eq self "settings" (Value raw)).
    destruct raw as [| | | | |[|] n]; try discriminate;
      (eexists; split; reflexivity).
Qed.

Lemma Config_setattr_guard_witness :
  (forall name l raw,
     name <> "settings" ->
     dict_get (Some name) module_settings = Some l ->
     Config_setattr module_config name raw module_config_world
     = (Raise (Exn AttributeError "Invalid access!" []), module_config_world))
  /\ (forall raw,
        Config_setattr module_config "settings" raw module_config_world
        = (Ok (<["settings" := Value raw]> module_config), module_config_world))
  /\ (forall raw name v w1,
        not_a_container raw = true ->
        exists e,
          Config_set (<["settings" := Value raw]> module_config) name v w1
          = (Raise e, w1)
          /\ exn_class e = TypeError).
Proof.
  apply (Config_setattr_guard module_config_world module_config module_settings).
  vm_compute. reflexivity.
Defined.

Lemma Config_setattr_fresh w self d name raw :
  self !! "settings" = Some (Settings d) ->
  name <> "settings" ->
  Config_class name = None ->
  dict_get (Some name) d = None ->
  Config_setattr self name raw w = (Ok (<[name := Value raw]> self), w).
Proof.
  intros Hs Hn Hc Hd. unfold Config_setattr, self_settings, object_setattr. munfold.
  apply String.eqb_neq in Hn. rewrite Hn. simpl.
  now rewrite Hs, (contains_unbound _ _ Hd), Hc.
Qed.

Lemma Config_init_result w description epilog app include exclude d w' :
  make_settings app include exclude w = (Ok d, w') ->
  Config_init description epilog app include exclude w
  = if is_some (dict_get (Some "description") d)
       || is_some (dict_get (Some "epilog") d)
    then (Raise (Exn AttributeError "Invalid access!" []), w')
    else (Ok (<["epilog" := Value (if truthy epilog then epilog
                                   else PStr "Have fun!")]>
               (<["description" := Value (if truthy description
                                          then description
                                          else PStr "Pulsar server")]>
                  (<["settings" := Settings d]> ∅))),
          w').
Proof.
  intros Hm. unfold Config_init. unfold mbind at 1, M_bind at 1.
  rewrite Hm. unfold Config_setattr_settings.
  set (self := <["settings" := Settings d]> (∅ : instance)).
  assert (Hs : self !! "settings" = Some (Settings d))
    by apply (lookup_insert_eq (∅ : instance)).
  destruct (dict_get (Some "description") d) as [l|] eqn:Hd; simpl.
  { unfold mbind, M_bind.
    now rewrite (Config_setattr_bound w' self d "description" l _ Hs). }
  unfold mbind, M_bind.
  rewrite (Config_setattr_fresh w' self d "description" _ Hs) by (easy || reflexivity).
  set (self' := <["description" := _]> self).
  assert (Hs' : self' !! "settings" = Some (Settings d)).
  { unfold self'. rewrite (lookup_insert_ne (M:=gmap string) self "description" "settings") by easy. exact Hs. }
  destruct (dict_get (Some "epilog") d) as [l|] eqn:He; simpl.
  { now rewrite (Config_setattr_bound w' self' d "epilog" l _ Hs'). }
  now rewrite (Config_setattr_fresh w' self' d "epilog" _ Hs').
Qed.


(** X7: [Config.__init__] builds its settings first and then assigns
    [description] and [epilog] as ordinary attributes, so the guard of
    [__setattr__] applies to them: when the settings just built bind a
    setting named ["description"] or ["epilog"], construction fails with
    [AttributeError("Invalid access!")] (after the setting objects have
    been created); otherwise it yields an instance holding exactly the
    three entries, a falsy description or epilog being replaced by its
    default text.  A failure of [make_settings] is passed on. *)
Theorem Config_init_cases (w : world) (description epilog : pyval)
    (app : option string) (include exclude : option (list string)) :
  (forall e w',
     make_settings app include exclude w = (Raise e, w') ->
     Config_init description epilog app include exclude w = (Raise e, w'))
  /\ (forall d w',
        make_settings app include exclude w = (Ok d, w') ->
        Config_init description epilog app include exclude w
        = if is_some (dict_get (Some "description") d)
             || is_some (dict_get (Some "epilog") d)
          then (Raise (Exn AttributeError "Invalid access!" []), w')
          else (Ok (<["epilog" := Value (if truthy epilog then epilog
                                         else PStr "Have fun!")]>
                     (<["description" := Value (if truthy description
                                                then description
                                                else PStr "Pulsar server")]>
                        (<["settings" := Settings d]> ∅))),
                w')).
Proof.
  split.
  - intros e w' Hm. unfold Config_init. munfold. now rewrite Hm.
  - intros d w'. apply Config_init_result.
Qed.

Lemma Config_init_cases_witness :
  Config_init PNone PNone None None None description_world
  = (Raise (Exn AttributeError "Invalid access!" []),
     snd (make_settings None None None description_world)).
Proof.
  destruct (Config_init_cases description_world PNone PNone None None None)
    as [_ H].
  assert (Hm : make_settings None None None description_world
               = (Ok description_settings,
                  snd (make_settings None None None description_world))).
  { apply run_returns. vm_compute. reflexivity. }
  rewrite (H _ _ Hm). reflexivity.
Defined.

(** ** Stored values are validator output *)

Lemma keeps_ret {A} (Q : A -> Prop) (a : A) : Q a -> keeps Q (mret a).
Proof. intros H w Hw. split; [exact Hw|]. now intros a' [= <-]. Qed.

Lemma keeps_raise {A} (Q : A -> Prop) (e : exn) : keeps Q (raise e).
Proof. intros w Hw. split; [exact Hw|]. discriminate. Qed.

Lemma keeps_lift {A} (Q : A -> Prop) (r : result A) :
  (forall a, r = Ok a -> Q a) -> keeps Q (lift r).
Proof. intros H w Hw. split; [exact Hw|]. exact H. Qed.

Lemma keeps_bind {A B} (Q : A -> Prop) (R : B -> Prop) (m : M A) (k : A -> M B) :
  keeps Q m -> (forall a, Q a -> keeps R (k a)) -> keeps R (m ≫= k).
Proof.
  intros Hm Hk w Hw. unfold mbind, M_bind.
  destruct (Hm w Hw) as [Hv Hq]. destruct (m w) as [[a|e] w1]; simpl in *.
  - apply (Hk a (Hq a eq_refl) w1 Hv).
  - split; [exact Hv|]. discriminate.
Qed.

Lemma keeps_weaken {A} (Q R : A -> Prop) (m : M A) :
  keeps Q m -> (forall a, Q a -> R a) -> keeps R m.
Proof.
  intros Hm H w Hw. destruct (Hm w Hw) as [Hv Hq].
  split; [exact Hv|]. intros a Ha. apply H, Hq, Ha.
Qed.

Lemma keeps_if {A} (Q : A -> Prop) (b : bool) (m1 m2 : M A) :
  keeps Q m1 -> keeps Q m2 -> keeps Q (if b then m1 else m2).
Proof. now destruct b. Qed.

Lemma keeps_get_world : keeps anything get_world.
Proof. intros w Hw. split; [exact Hw|]. easy. Qed.

Lemma keeps_read l : keeps validated_value (read l).
Proof.
  intros w Hw. unfold read. destruct (store w !! l) as [o|] eqn:E; simpl.
  - split; [exact Hw|]. intros a [= <-].
    exact (proj1 (List.Forall_forall _ _) Hw o (proj1 (list_elem_of_In _ _)
             (list_elem_of_lookup_2 _ _ _ E))).
  - split; [exact Hw|]. discriminate.
Qed.

Lemma keeps_write l o : validated_value o -> keeps anything (write l o).
Proof.
  intros Ho w Hw. split; [|easy]. unfold write, validated. simpl.
  now apply Forall_insert.
Qed.

Lemma keeps_alloc o : validated_value o -> keeps anything (alloc o).
Proof.
  intros Ho w Hw. split; [|easy]. unfold alloc, validated. simpl.
  apply Forall_app. split; [exact Hw|]. now constructor.
Qed.

Lemma keeps_Setting_set self val : keeps anything (Setting_set self val).
Proof.
  unfold Setting_set. eapply keeps_bind; [apply keeps_read|].
  intros o Ho. destruct (Setting.validator (Setting.cls o)) as [func|] eqn:Ev.
  - eapply (keeps_bind (fun v => func val = Ok v)).
    + now apply keeps_lift.
    + intros v Hv. apply keeps_write. unfold validated_value. simpl.
      now exists func, val.
  - apply keeps_raise.
Qed.

Lemma keeps_Setting_get self : keeps anything (Setting_get self).
Proof.
  unfold Setting_get. eapply keeps_bind; [apply keeps_read|].
  intros o _. now apply keeps_ret.
Qed.

Lemma keeps_Setting_init self : keeps anything (Setting_init self).
Proof.
  unfold Setting_init. eapply keeps_bind; [apply keeps_read|].
  intros o _. eapply (keeps_bind anything).
  { apply keeps_if; [apply keeps_Setting_set | now apply keeps_ret]. }
  intros _ _. eapply keeps_bind; [apply keeps_read|].
  intros o1 Ho1. eapply (keeps_bind anything).
  { apply keeps_write. exact Ho1. }
  intros _ _. eapply keeps_bind; [apply keeps_read|].
  intros o2 Ho2. apply keeps_write. exact Ho2.
Qed.

Lemma keeps_Setting_new s : keeps anything (Setting_new s).
Proof.
  unfold Setting_new. eapply (keeps_bind anything).
  { apply keeps_alloc. exact I. }
  intros self _. eapply (keeps_bind anything); [apply keeps_Setting_init|].
  intros _ _. now apply keeps_ret.
Qed.

Lemma keeps_Setting_copy self : keeps anything (Setting_copy self).
Proof.
  unfold Setting_copy. eapply keeps_bind; [apply keeps_read|].
  intros o Ho. now apply keeps_alloc.
Qed.

Lemma keeps_make_settings_loop app include exclude known settings :
  keeps anything (make_settings_loop app include exclude known settings).
Proof.
  revert settings. induction known as [|s known IH]; intros settings; simpl.
  - now apply keeps_ret.
  - eapply (keeps_bind anything); [apply keeps_Setting_new|].
    intros setting _. eapply keeps_bind; [apply keeps_read|].
    intros o _. repeat (apply keeps_if; [apply IH|]).
    eapply (keeps_bind anything); [apply keeps_Setting_copy|].
    intros copied _. apply IH.
Qed.

Lemma keeps_make_settings app include exclude :
  keeps anything (make_settings app include exclude).
Proof.
  unfold make_settings. eapply (keeps_bind anything); [apply keeps_get_world|].
  intros w _. apply keeps_make_settings_loop.
Qed.

Lemma keeps_Config_set self name raw : keeps anything (Config_set self name raw).
Proof.
  unfold Config_set. eapply (keeps_bind anything); [now apply keeps_lift|].
  intros s _. eapply (keeps_bind anything); [now apply keeps_lift|].
  intros known _. apply keeps_if; [apply keeps_raise|].
  eapply (keeps_bind anything); [now apply keeps_lift|].
  intros s' _. eapply (keeps_bind anything); [now apply keeps_lift|].
  intros l _. apply keeps_Setting_set.
Qed.

Lemma keeps_Config_setattr self name value :
  keeps anything (Config_setattr self name value).
Proof.
  unfold Config_setattr. eapply (keeps_bind anything).
  { apply keeps_if; [|now apply keeps_ret].
    eapply (keeps_bind anything); [now apply keeps_lift|].
    intros s _. now apply keeps_lift. }
  intros taken _. apply keeps_if; [now apply keeps_lift | apply keeps_raise].
Qed.

Lemma keeps_Config_init description epilog app include exclude :
  keeps anything (Config_init description epilog app include exclude).
Proof.
  unfold Config_init. eapply (keeps_bind anything); [apply keeps_make_settings|].
  intros d _. eapply (keeps_bind anything); [apply keeps_Config_setattr|].
  intros self _. apply keeps_Config_setattr.
Qed.

(** X8: a value a Setting instance holds of its own is always one its
    validator returned, never raw input.  From a state where this holds
    (the state before any instance exists is one), [Config(...)] and
    [Config.set] lead to a state where it holds, whether they return or
    raise; and there the read of a bound setting returns the [value]
    attribute of the class or a value the validator of the setting has
    returned. *)
Theorem stored_values_are_validator_output (w : world) :
  validated w ->
  (forall description epilog app include exclude,
     validated (snd (Config_init description epilog app include exclude w)))
  /\ (forall self name raw, validated (snd (Config_set self name raw w)))
  /\ (forall self d name l o,
        self !! "settings" = Some (Settings d) ->
        dict_get (Some name) d = Some l ->
        store w !! l = Some o ->
        Config_getattr self name w = (Ok (Setting.get_value o), w)
        /\ (Setting.get_value o = Setting.value (Setting.cls o)
            \/ exists func raw,
                 Setting.validator (Setting.cls o) = Some func
                 /\ func raw = Ok (Setting.get_value o))).
Proof.
  intros Hw. split; [|split].
  - intros. now apply keeps_Config_init.
  - intros. now apply keeps_Config_set.
  - intros self d name l o Hs Hd Ho. split.
    + now apply (Config_getattr_bound w self d name l o).
    + assert (Hv : validated_value o).
      { exact (proj1 (List.Forall_forall _ _) Hw o
                 (proj1 (list_elem_of_In _ _) (list_elem_of_lookup_2 _ _ _ Ho))). }
      unfold validated_value in Hv. unfold Setting.get_value.
      destruct (Setting.own_value o) as [v|]; [now right | now left].
Qed.

Lemma stored_values_are_validator_output_witness :
  validated workers_world /\ validated workers_config_world.
Proof.
  assert (E : store workers_world = []) by (vm_compute; reflexivity).
  assert (H : validated workers_world).
  { unfold validated. rewrite E. constructor. }
  split; [exact H|].
  exact (proj1 (stored_values_are_validator_output workers_world H)
           PNone PNone None None None).
Defined.

(** ** Pickling *)

Lemma Config_setstate_ok self state s a b :
  state !! "settings" = Some s ->
  state !! "description" = Some a ->
  state !! "epilog" = Some b ->
  Config_setstate self state
  = (Ok tt, <["epilog" := b]> (<["description" := a]> (<["settings" := s]> self))).
Proof.
  intros Hs Ha Hb. unfold Config_setstate, state_getitem.
  now rewrite Hs, Ha, Hb.
Qed.

Lemma Config_init_entries w description epilog app include exclude self w' :
  Config_init description epilog app include exclude w = (Ok self, w') ->
  exists d a b,
    self = <["epilog" := b]> (<["description" := a]> (<["settings" := Settings d]> ∅)).
Proof.
  intros H.
  destruct (make_settings app include exclude w) as [[d|e] w1] eqn:Hm.
  - rewrite (Config_init_result _ _ _ _ _ _ _ _ Hm) in H.
    destruct (is_some _ || is_some _); [discriminate|].
    injection H as <- _. eauto.
  - unfold Config_init in H. unfold mbind at 1, M_bind at 1 in H.
    rewrite Hm in H. discriminate.
Qed.

(** X9: [__setstate__] applied to what [__getstate__] returns restores
    the three entries [settings], [description] and [epilog] and nothing
    else: on a new blank instance it gives back an instance built by
    [Config(...)] unchanged, while an attribute stored under any other
    name is not carried over; and when the state lacks [description]
    the call raises [KeyError] after it has already replaced
    [settings]. *)
Theorem Config_setstate_getstate (self : instance) :
  (forall w description epilog app include exclude w',
     Config_init description epilog app include exclude w = (Ok self, w') ->
     Config_setstate blank (Config_getstate self) = (Ok tt, self))
  /\ (forall s a b name,
        self !! "settings" = Some s ->
        self !! "description" = Some a ->
        self !! "epilog" = Some b ->
        name ∉ state_keys ->
        exists self',
          Config_setstate blank (Config_getstate self) = (Ok tt, self')
          /\ self' !! name = None
          /\ Forall (fun k => self' !! k = self !! k) state_keys)
  /\ (forall target s,
        self !! "settings" = Some s ->
        self !! "description" = None ->
        Config_setstate target (Config_getstate self)
        = (Raise (Exn KeyError "%r" [PStr "description"]),
           <["settings" := s]> target)).
Proof.
  split; [|split].
  - intros w description epilog app include exclude w' H.
    destruct (Config_init_entries _ _ _ _ _ _ _ _ H) as (d & a & b & ->).
    reflexivity.
  - intros s a b name Hs Ha Hb Hn.
    exists (<["epilog" := b]> (<["description" := a]> (<["settings" := s]> blank))).
    split; [|split].
    + apply (Config_setstate_ok _ _ s a b); assumption.
    + unfold blank, state_keys in *.
      unfold instance.
      rewrite !lookup_insert_ne; [apply lookup_empty| | |];
        intros <-; apply Hn; set_solver.
    + unfold state_keys. repeat constructor; rewrite ?Hs, ?Ha, ?Hb; reflexivity.
  - intros target s Hs Ha. unfold Config_setstate, Config_getstate, state_getitem.
    now rewrite Hs, Ha.
Qed.

Lemma Config_setstate_getstate_witness :
  Config_setstate blank (Config_getstate workers_config) = (Ok tt, workers_config).
Proof.
  apply (proj1 (Config_setstate_getstate workers_config)
           workers_world PNone PNone None None None workers_config_world).
  apply (run_returns (Config_init PNone PNone None None None workers_world)
           workers_config).
  vm_compute. reflexivity.
Defined.

(** ** The derived views *)

Lemma getitem_unbound name d :
  dict_get (Some name) d = None ->
  getitem name (Settings d) = Raise (Exn KeyError "%r" [PStr name]).
Proof. intros H. simpl. now rewrite H. Qed.

Lemma settings_get_value_unbound name d w :
  dict_get (Some name) d = None ->
  settings_get_value name (Settings d) w = (Ok None, w).
Proof. intros H. unfold settings_get_value. munfold. simpl. now rewrite H. Qed.

Lemma settings_get_value_bound name d l o w :
  dict_get (Some name) d = Some l ->
  store w !! l = Some o ->
  settings_get_value name (Settings d) w = (Ok (Some (Setting.get_value o)), w).
Proof.
  intros H Ho. unfold settings_get_value. munfold. simpl. rewrite H.
  now rewrite (Setting_get_ok _ _ _ Ho).
Qed.

(** X10: what the derived views do when the setting they read is not
    bound.  [address], [worker_class] and [workers] subscript the
    dictionary and raise [KeyError] (which is not turned into the
    [None] that [__getattr__] gives for registered names), whatever the
    collaborators are; [uid] and [gid] use [dict.get] and return
    [None]; [proc_name] returns [None] when neither [proc_name] nor
    [default_proc_name] is bound. *)
Theorem Config_views_unbound (system : System) (w : world) (self : instance)
    (d : settings_dict) :
  self !! "settings" = Some (Settings d) ->
  (dict_get (Some "bind") d = None ->
   Config_getattribute system self "address" w
   = (Raise (Exn KeyError "%r" [PStr "bind"]), w))
  /\ (dict_get (Some "worker_class") d = None ->
      Config_getattribute system self "worker_class" w
      = (Raise (Exn KeyError "%r" [PStr "worker_class"]), w))
  /\ (dict_get (Some "workers") d = None ->
      Config_getattribute system self "workers" w
      = (Raise (Exn KeyError "%r" [PStr "workers"]), w))
  /\ (dict_get (Some "user") d = None ->
      Config_getattribute system self "uid" w = (Ok (Attr (Value PNone)), w))
  /\ (dict_get (Some "group") d = None ->
      Config_getattribute system self "gid" w = (Ok (Attr (Value PNone)), w))
  /\ (dict_get (Some "proc_name") d = None ->
      dict_get (Some "default_proc_name") d = None ->
      Config_getattribute system self "proc_name" w
      = (Ok (Attr (Value PNone)), w)).
Proof.
  intros Hs.
  assert (Hself : self_settings self = Ok (Settings d))
    by (unfold self_settings; now rewrite Hs).
  repeat match goal with |- _ /\ _ => split end.
  - intros H. unfold Config_getattribute. simpl. munfold.
    now rewrite Hself, (getitem_unbound _ _ H).
  - intros H. unfold Config_getattribute. simpl. munfold.
    now rewrite Hself, (getitem_unbound _ _ H).
  - intros H. unfold Config_getattribute. simpl. munfold.
    now rewrite Hself, (getitem_unbound _ _ H).
  - intros H. unfold Config_getattribute. simpl. munfold.
    now rewrite Hself, (settings_get_value_unbound _ _ _ H).
  - intros H. unfold Config_getattribute. simpl. munfold.
    now rewrite Hself, (settings_get_value_unbound _ _ _ H).
  - intros H H'. unfold Config_getattribute. simpl. munfold.
    rewrite Hself, (settings_get_value_unbound _ _ _ H). simpl.
    now rewrite (settings_get_value_unbound _ _ _ H').
Qed.

Lemma Config_views_unbound_witness :
  Config_getattribute sample_system workers_config "address" workers_config_world
  = (Raise (Exn KeyError "%r" [PStr "bind"]), workers_config_world)
  /\ Config_getattribute sample_system workers_config "uid" workers_config_world
     = (Ok (Attr (Value PNone)), workers_config_world).
Proof.
  destruct (Config_views_unbound sample_system workers_config_world
              workers_config [(Some "workers", 1%nat)])
    as (Ha & _ & _ & Hu & _); [vm_compute; reflexivity|].
  split; [apply Ha | apply Hu]; reflexivity.
Defined.

Lemma lookup_value w l v :
  option_map Setting.get_value (store w !! l) = Some v ->
  exists o, store w !! l = Some o /\ Setting.get_value o = v.
Proof.
  destruct (store w !! l) as [o|]; [|discriminate].
  intros [= <-]. eauto.
Qed.

(** X11: what [uid], [gid] and [proc_name] do when their setting is
    bound.  [uid] hands the stored value of [user] to [get_uid], also
    when that value is [None], and returns what the collaborator
    returns; an exception of the collaborator other than
    [AttributeError] is passed on, while an [AttributeError] is
    replaced by the outcome of [__getattr__] for the name [uid] itself
    (for a name that is neither bound nor registered: a different
    [AttributeError]).  [gid] does the same with [group] and [get_gid].
    [proc_name] returns the stored value of [proc_name] when it is not
    [None], and else that of [default_proc_name]. *)
Theorem Config_views_bound (system : System) (w : world) (self : instance)
    (d : settings_dict) :
  self !! "settings" = Some (Settings d) ->
  (forall l o,
     dict_get (Some "user") d = Some l -> store w !! l = Some o ->
     match get_uid system (Setting.get_value o) with
     | Ok v => Config_getattribute system self "uid" w = (Ok (Attr (Value v)), w)
     | Raise e =>
         match exn_class e with
         | AttributeError =>
             dict_get (Some "uid") d = None ->
             "uid" ∉ KNOWN_SETTINGS_SET w ->
             Config_getattribute system self "uid" w
             = (Raise (Exn AttributeError "No configuration setting for: %s"
                         [PStr "uid"]), w)
         | _ => Config_getattribute system self "uid" w = (Raise e, w)
         end
     end)
  /\ (forall l o,
        dict_get (Some "group") d = Some l -> store w !! l = Some o ->
        match get_gid system (Setting.get_value o) with
        | Ok v => Config_getattribute system self "gid" w = (Ok (Attr (Value v)), w)
        | Raise e =>
            match exn_class e with
            | AttributeError =>
                dict_get (Some "gid") d = None ->
                "gid" ∉ KNOWN_SETTINGS_SET w ->
                Config_getattribute system self "gid" w
                = (Raise (Exn AttributeError "No configuration setting for: %s"
                            [PStr "gid"]), w)
            | _ => Config_getattribute system self "gid" w = (Raise e, w)
            end
        end)
  /\ (forall l o,
        dict_get (Some "proc_name") d = Some l -> store w !! l = Some o ->
        Setting.get_value o <> PNone ->
        Config_getattribute system self "proc_name" w
        = (Ok (Attr (Value (Setting.get_value o))), w))
  /\ (forall l o l' o',
        dict_get (Some "proc_name") d = Some l -> store w !! l = Some o ->
        Setting.get_value o = PNone ->
        dict_get (Some "default_proc_name") d = Some l' -> store w !! l' = Some o' ->
        Config_getattribute system self "proc_name" w
        = (Ok (Attr (Value (Setting.get_value o'))), w)).
Proof.
  intros Hs.
  assert (Hself : self_settings self = Ok (Settings d))
    by (unfold self_settings; now rewrite Hs).
  repeat match goal with |- _ /\ _ => split end.
  - intros l o Hl Ho. unfold Config_getattribute. simpl. munfold.
    rewrite Hself, (settings_get_value_bound _ _ _ _ _ Hl Ho).
    destruct (get_uid system (Setting.get_value o)) as [v|e]; [reflexivity|].
    destruct (exn_class e); try reflexivity.
    intros Hd Hk. rewrite (Config_getattr_unbound _ _ _ _ Hs Hd).
    now rewrite bool_decide_eq_false_2.
  - intros l o Hl Ho. unfold Config_getattribute. simpl. munfold.
    rewrite Hself, (settings_get_value_bound _ _ _ _ _ Hl Ho).
    destruct (get_gid system (Setting.get_value o)) as [v|e]; [reflexivity|].
    destruct (exn_class e); try reflexivity.
    intros Hd Hk. rewrite (Config_getattr_unbound _ _ _ _ Hs Hd).
    now rewrite bool_decide_eq_false_2.
  - intros l o Hl Ho Hv. unfold Config_getattribute. simpl. munfold.
    rewrite Hself, (settings_get_value_bound _ _ _ _ _ Hl Ho). simpl.
    now destruct (Setting.get_value o).
  - intros l o l' o' Hl Ho Hv Hl' Ho'. unfold Config_getattribute. simpl. munfold.
    rewrite Hself, (settings_get_value_bound _ _ _ _ _ Hl Ho). simpl.
    rewrite Hv. simpl.
    now rewrite (settings_get_value_bound _ _ _ _ _ Hl' Ho').
Qed.

Lemma Config_views_bound_witness :
  Config_getattribute sample_system module_config "proc_name" module_config_world
  = (Ok (Attr (Value (PStr "pulsar"))), module_config_world).
Proof.
  assert (Hs : module_config !! "settings" = Some (Settings module_settings))
    by (vm_compute; reflexivity).
  destruct (lookup_value module_config_world 35 PNone) as (o & Ho & Hv);
    [vm_compute; reflexivity|].
  destruct (lookup_value module_config_world 37 (PStr "pulsar")) as (o' & Ho' & Hv');
    [vm_compute; reflexivity|].
  rewrite <- Hv'.
  apply (proj2 (proj2 (proj2 (Config_views_bound sample_system module_config_world
                                module_config module_settings Hs))) 35%nat o 37%nat o');
    try assumption; vm_compute; reflexivity.
Defined.

(** ** Config on the module's own registry *)

Lemma last_selected_name app include exclude k known c :
  last_selected app include exclude k known = Some c ->
  In c known /\ Setting.name c = k.
Proof.
  unfold last_selected. intros H. apply last_filter_Some in H as [Hin Hp].
  split; [exact Hin|]. apply andb_true_iff in Hp as [_ Hp].
  now apply bool_decide_eq_true in Hp.
Qed.

Lemma unregistered_unbound w app include exclude d w' n :
  forallb instantiable (KNOWN_SETTINGS w) = true ->
  make_settings app include exclude w = (Ok d, w') ->
  Some n ∉ map Setting.name (KNOWN_SETTINGS w) ->
  dict_get (Some n) d = None.
Proof.
  intros Hall Hm Hn. destruct (dict_get (Some n) d) as [l|] eqn:Hd; [|reflexivity].
  destruct (make_settings_sound _ _ _ _ _ _ _ _ Hall Hm Hd) as (c & _ & Hin & Hc & _).
  exfalso. apply Hn. rewrite <- Hc. apply list_elem_of_In. now apply in_map.
Qed.

Lemma Config_address_unbound system w self d :
  self !! "settings" = Some (Settings d) ->
  dict_get (Some "bind") d = None ->
  Config_getattribute system self "address" w
  = (Raise (Exn KeyError "%r" [PStr "bind"]), w).
Proof.
  intros Hs H. unfold Config_getattribute. simpl. munfold. unfold self_settings.
  now rewrite Hs, (getitem_unbound _ _ H).
Qed.

Lemma Config_worker_class_unbound system w self d :
  self !! "settings" = Some (Settings d) ->
  dict_get (Some "worker_class") d = None ->
  Config_getattribute system self "worker_class" w
  = (Raise (Exn KeyError "%r" [PStr "worker_class"]), w).
Proof.
  intros Hs H. unfold Config_getattribute. simpl. munfold. unfold self_settings.
  now rewrite Hs, (getitem_unbound _ _ H).
Qed.

Lemma settings_get_value_is w d name :
  (forall l, dict_get (Some name) d = Some l -> is_Some (store w !! l)) ->
  settings_get_value name (Settings d) w = (Ok (setting_value w d name), w).
Proof.
  intros H. unfold setting_value.
  destruct (dict_get (Some name) d) as [l|] eqn:Hd.
  - destruct (H l eq_refl) as [o Ho].
    rewrite (settings_get_value_bound _ _ _ _ _ Hd Ho). now rewrite Ho.
  - now apply settings_get_value_unbound.
Qed.

Lemma Config_proc_name_read system w self d :
  self !! "settings" = Some (Settings d) ->
  (forall k l, dict_get k d = Some l -> is_Some (store w !! l)) ->
  Config_getattribute system self "proc_name" w
  = (Ok (Attr (Value
       (if is_none (default PNone (setting_value w d "proc_name"))
        then default PNone (setting_value w d "default_proc_name")
        else default PNone (setting_value w d "proc_name")))), w).
Proof.
  intros Hs Hst. unfold Config_getattribute. simpl. munfold. unfold self_settings.
  rewrite Hs, settings_get_value_is by (intros l; apply Hst).
  destruct (is_none (default PNone (setting_value w d "proc_name"))); simpl;
    [|reflexivity].
  now rewrite settings_get_value_is by (intros l; apply Hst).
Qed.

Lemma module_registry_instantiable dedent SERVER_NAME :
  forallb instantiable (KNOWN_SETTINGS (module_world dedent SERVER_NAME)) = true.
Proof. vm_compute. reflexivity. Qed.

Lemma module_registry_names dedent SERVER_NAME :
  map Setting.name (KNOWN_SETTINGS (module_world dedent SERVER_NAME))
  = map Some ["config"; "workers"; "concurrency"; "max_requests"; "timeout";
              "keepalive"; "http_proxy"; "debug"; "daemon"; "pidfile"; "user";
              "group"; "umask"; "tmp_upload_dir"; "loglevel"; "logevery";
              "logconfig"; "proc_name"; "default_proc_name"; "when_ready";
              "pre_fork"; "post_fork"; "pre_exec"; "pre_request";
              "post_request"; "worker_exit"].
Proof. vm_compute. reflexivity. Qed.

Lemma class_at (known : list Setting.class) c n i :
  In c known ->
  Setting.name c = Some n ->
  (forall j, map Setting.name known !! j = Some (Some n) -> j = i) ->
  known !! i = Some c.
Proof.
  intros Hin Hn Huniq.
  apply list_elem_of_In, list_elem_of_lookup in Hin as [j Hj].
  assert (j = i) as <-; [|exact Hj].
  apply Huniq. rewrite list_lookup_fmap, Hj. cbn [fmap option_fmap option_map].
  now rewrite Hn.
Qed.

Lemma Config_on_registry system w description epilog app include exclude dpn :
  forallb instantiable (KNOWN_SETTINGS w) = true ->
  Forall (fun n => Some n ∉ map Setting.name (KNOWN_SETTINGS w))
         ["description"; "epilog"; "bind"; "worker_class"] ->
  (forall c, In c (KNOWN_SETTINGS w) -> Setting.name c = Some "proc_name" ->
             Setting.get_value (initialised c) = PNone) ->
  (forall c, In c (KNOWN_SETTINGS w) -> Setting.name c = Some "default_proc_name" ->
             Setting.get_value (initialised c) = dpn) ->
  exists self d w',
    Config_init description epilog app include exclude w = (Ok self, w')
    /\ self !! "settings" = Some (Settings d)
    /\ Config_getattribute system self "address" w'
       = (Raise (Exn KeyError "%r" [PStr "bind"]), w')
    /\ Config_getattribute system self "worker_class" w'
       = (Raise (Exn KeyError "%r" [PStr "worker_class"]), w')
    /\ Config_getattribute system self "proc_name" w'
       = (Ok (Attr (Value (if is_some (dict_get (Some "default_proc_name") d)
                           then dpn else PNone))), w').
Proof.
  intros Hall Hnames Hpn Hdpn.
  destruct (make_settings_entries w app include exclude Hall)
    as (d & w' & Hm & _ & Hent).
  inversion_clear Hnames as [|? ? Hn1 Hnames'].
  inversion_clear Hnames' as [|? ? Hn2 Hnames].
  inversion_clear Hnames as [|? ? Hn3 Hnames'].
  inversion_clear Hnames' as [|? ? Hn4 _].
  pose proof (unregistered_unbound _ _ _ _ _ _ _ Hall Hm Hn1) as Hd1.
  pose proof (unregistered_unbound _ _ _ _ _ _ _ Hall Hm Hn2) as Hd2.
  pose proof (unregistered_unbound _ _ _ _ _ _ _ Hall Hm Hn3) as Hd3.
  pose proof (unregistered_unbound _ _ _ _ _ _ _ Hall Hm Hn4) as Hd4.
  pose proof (Config_init_result w description epilog _ _ _ _ _ Hm) as Hinit.
  rewrite Hd1, Hd2 in Hinit. cbn [is_some orb] in Hinit.
  match type of Hinit with _ = (Ok ?s, _) => set (self := s) in * end.
  assert (Hs : self !! "settings" = Some (Settings d)).
  { unfold self, instance. rewrite !lookup_insert_ne by discriminate.
    apply lookup_insert_eq. }
  exists self, d, w'. split; [exact Hinit|]. split; [exact Hs|].
  split; [now apply (Config_address_unbound _ _ _ d)|].
  split; [now apply (Config_worker_class_unbound _ _ _ d)|].
  rewrite (Config_proc_name_read system w' self d Hs).
  2:{ intros k l Hk. specialize (Hent k). rewrite Hk in Hent.
      destruct Hent as (c & Hc & _). eauto. }
  assert (H1 : default PNone (setting_value w' d "proc_name") = PNone).
  { unfold setting_value. pose proof (Hent (Some "proc_name")) as H.
    destruct (dict_get (Some "proc_name") d) as [l|]; [|reflexivity].
    destruct H as (c & Hc & Hl). rewrite Hc.
    apply last_selected_name in Hl as [Hin Hn].
    cbn [option_map default]. now apply Hpn. }
  rewrite H1. cbn [is_none].
  unfold setting_value. pose proof (Hent (Some "default_proc_name")) as H.
  destruct (dict_get (Some "default_proc_name") d) as [l|]; [|reflexivity].
  destruct H as (c & Hc & Hl). rewrite Hc.
  apply last_selected_name in Hl as [Hin Hn].
  cbn [option_map default from_option is_some]. now rewrite (Hdpn c Hin Hn).
Qed.

Lemma module_names_missing dedent SERVER_NAME :
  Forall (fun n => Some n ∉ map Setting.name
                      (KNOWN_SETTINGS (module_world dedent SERVER_NAME)))
         ["description"; "epilog"; "bind"; "worker_class"].
Proof.
  rewrite module_registry_names.
  repeat constructor; apply (proj1 (bool_decide_eq_false _)); vm_compute; reflexivity.
Qed.

Ltac name_index Hj j :=
  do 26 (destruct j as [|j];
         [first [reflexivity | vm_compute in Hj; discriminate]|]);
  vm_compute in Hj; discriminate.

Lemma module_proc_name dedent SERVER_NAME c :
  In c (KNOWN_SETTINGS (module_world dedent SERVER_NAME)) ->
  Setting.name c = Some "proc_name" ->
  Setting.get_value (initialised c) = PNone.
Proof.
  intros Hin Hn.
  pose proof (class_at _ c "proc_name" 17 Hin Hn) as H.
  assert (E : option_map (fun c => Setting.get_value (initialised c))
                (KNOWN_SETTINGS (module_world dedent SERVER_NAME) !! 17%nat)
              = Some PNone) by (vm_compute; reflexivity).
  rewrite H in E; [injection E as E'; exact E'|].
  intros j Hj. rewrite module_registry_names in Hj. name_index Hj j.
Qed.

Lemma module_default_proc_name dedent SERVER_NAME c :
  In c (KNOWN_SETTINGS (module_world dedent SERVER_NAME)) ->
  Setting.name c = Some "default_proc_name" ->
  Setting.get_value (initialised c) = PStr (strip SERVER_NAME).
Proof.
  intros Hin Hn.
  pose proof (class_at _ c "default_proc_name" 18 Hin Hn) as H.
  assert (E : option_map (fun c => Setting.get_value (initialised c))
                (KNOWN_SETTINGS (module_world dedent SERVER_NAME) !! 18%nat)
              = Some (PStr (strip SERVER_NAME))) by (vm_compute; reflexivity).
  rewrite H in E; [injection E as E'; exact E'|].
  intros j Hj. rewrite module_registry_names in Hj. name_index Hj j.
Qed.

(** X12: on the registry the module itself declares, whatever the
    server name, [textwrap.dedent], the collaborators and the five
    arguments are, [Config(...)] returns an instance; on it the views
    [address] and [worker_class] raise [KeyError], since the module
    declares no setting named [bind] or [worker_class]; and
    [proc_name] is the trimmed server name when the setting
    [default_proc_name] was kept by the filter, and [None] when it was
    not. *)
Theorem module_Config_views (dedent : string -> string) (SERVER_NAME : string)
    (system : System) (description epilog : pyval) (app : option string)
    (include exclude : option (list string)) :
  exists self d w',
    Config_init description epilog app include exclude
      (module_world dedent SERVER_NAME) = (Ok self, w')
    /\ self !! "settings" = Some (Settings d)
    /\ Config_getattribute system self "address" w'
       = (Raise (Exn KeyError "%r" [PStr "bind"]), w')
    /\ Config_getattribute system self "worker_class" w'
       = (Raise (Exn KeyError "%r" [PStr "worker_class"]), w')
    /\ Config_getattribute system self "proc_name" w'
       = (Ok (Attr (Value (if is_some (dict_get (Some "default_proc_name") d)
                           then PStr (strip SERVER_NAME) else PNone))), w').
Proof.
  apply Config_on_registry.
  - apply module_registry_instantiable.
  - apply module_names_missing.
  - apply module_proc_name.
  - apply module_default_proc_name.
Qed.

(** ** The keyword arguments of add_argument *)

Ltac split_all := repeat match goal with |- _ /\ _ => split end.

(** X13: the keyword arguments [Setting.add_argument] passes.  For a
    setting with flags the positional arguments are the flags; [dest]
    is the setting's name, [action] is the setting's action or
    ["store"], the parser's [default] is always [None] (the setting's
    default only appears in the help text), and [type] is passed
    exactly when the setting's type is truthy, is not ['string'] and
    the action is ["store"].  For a setting without flags that has an
    arity and a name, the name is the one positional argument, [type]
    is passed whatever the action is, and there is no [dest], [action]
    or [default]. *)
Theorem add_argument_keywords (o : Setting.object) :
  let c := Setting.cls o in
  (truthy_cli (Setting.cli c) = true ->
   exists kw,
     add_argument_call o = Some (default [] (Setting.cli c), kw)
     /\ kwargs_get "dest" kw = Some (kw_str (Setting.name c))
     /\ kwargs_get "action" kw
        = Some (kw_str (or_str (Setting.action c) (Some "store")))
     /\ kwargs_get "default" kw = Some (kw_val PNone)
     /\ kwargs_get "help" kw
        = Some (kw_fmt "%s [%s]" [str_val (Setting.get_short o); Setting.default c])
     /\ kwargs_get "type" kw
        = (if is_store (or_str (Setting.action c) (Some "store"))
           then type_keyword c else None)
     /\ map fst kw
        = (if is_some (kwargs_get "type" kw) then ["type"] else [])
          ++ ["dest"; "action"; "default"; "help"])
  /\ (truthy_cli (Setting.cli c) = false ->
      truthy (Setting.nargs c) && truthy_str (Setting.name c) = true ->
      exists kw,
        add_argument_call o = Some ([default "" (Setting.name c)], kw)
        /\ kwargs_get "nargs" kw = Some (kw_val (Setting.nargs c))
        /\ kwargs_get "metavar" kw = Some (kw_str (or_str (Setting.meta c) None))
        /\ kwargs_get "help" kw = Some (kw_str (Setting.get_short o))
        /\ kwargs_get "type" kw = type_keyword c
        /\ map fst kw
           = (if is_some (kwargs_get "type" kw) then ["type"] else [])
             ++ ["nargs"; "metavar"; "help"]).
Proof.
  intros c. subst c. split.
  - intros Hcli. unfold add_argument_call, type_keyword. rewrite Hcli.
    eexists. split; [reflexivity|].
    destruct (Setting.type (Setting.cls o)) as [[|s]|];
      destruct (Setting.action (Setting.cls o)) as [a|];
      unfold or_str, truthy_str, is_store; cbn;
      repeat (match goal with
              | |- context [String.eqb ?x ?y] => destruct (String.eqb x y) eqn:?
              end; cbn);
      split_all; reflexivity.
  - intros Hcli Hpos. unfold add_argument_call, type_keyword. rewrite Hcli, Hpos.
    eexists. split; [reflexivity|].
    destruct (Setting.type (Setting.cls o)) as [[|s]|];
      unfold or_str, truthy_str; cbn;
      repeat (match goal with
              | |- context [String.eqb ?x ?y] => destruct (String.eqb x y) eqn:?
              end; cbn);
      split_all; reflexivity.
Qed.

Lemma add_argument_keywords_witness :
  exists kw,
    add_argument_call workers_object
    = Some (default [] (Setting.cli (Setting.cls workers_object)), kw)
    /\ kwargs_get "dest" kw = Some (kw_str (Setting.name (Setting.cls workers_object)))
    /\ kwargs_get "default" kw = Some (kw_val PNone).
Proof.
  destruct (proj1 (add_argument_keywords workers_object))
    as (kw & Hcall & Hdest & _ & Hdefault & _); [vm_compute; reflexivity|].
  exists kw. split; [exact Hcall|]. split; [exact Hdest | exact Hdefault].
Defined.

(** ** One object per bound name *)

Lemma Config_init_settings w description epilog app include exclude self w' :
  Config_init description epilog app include exclude w = (Ok self, w') ->
  exists d,
    make_settings app include exclude w = (Ok d, w')
    /\ self !! "settings" = Some (Settings d).
Proof.
  intros H.
  destruct (make_settings app include exclude w) as [[d|e] w1] eqn:Hm.
  - rewrite (Config_init_result _ _ _ _ _ _ _ _ Hm) in H.
    destruct (is_some _ || is_some _); [discriminate|].
    injection H as <- <-. exists d. split; [reflexivity|].
    unfold instance. rewrite !lookup_insert_ne by discriminate.
    apply lookup_insert_eq.
  - unfold Config_init in H. unfold mbind at 1, M_bind at 1 in H.
    rewrite Hm in H. discriminate.
Qed.

Lemma initialised_cls c : Setting.cls (initialised c) = c.
Proof. reflexivity. Qed.

Lemma make_settings_injective w app include exclude d w' k1 k2 l :
  make_settings app include exclude w = (Ok d, w') ->
  dict_get k1 d = Some l -> dict_get k2 d = Some l -> k1 = k2.
Proof.
  intros Hm H1 H2.
  pose proof (make_settings_instantiable _ _ _ _ _ _ Hm) as Hall.
  destruct (make_settings_sound _ _ _ _ _ _ _ _ Hall Hm H1) as (c1 & Hc1 & _ & Hn1 & _).
  destruct (make_settings_sound _ _ _ _ _ _ _ _ Hall Hm H2) as (c2 & Hc2 & _ & Hn2 & _).
  assert (Hc : initialised c1 = initialised c2) by congruence.
  apply (f_equal Setting.cls) in Hc. rewrite !initialised_cls in Hc.
  congruence.
Qed.

(** X14: the settings of a Config instance built by [Config(...)] hold
    one object per name (no two names are bound to the same object),
    so [set] on one name, whether it returns or raises, changes what
    no other name reads: for every other name that the class does not
    define, the attribute read gives the same outcome after as
    before. *)
Theorem Config_set_leaves_other_names (system : System) (w w1 w2 : world)
    (description epilog : pyval) (app : option string)
    (include exclude : option (list string)) (self : instance)
    (name : string) (raw : pyval) (r : result unit) :
  Config_init description epilog app include exclude w = (Ok self, w1) ->
  Config_set self name raw w1 = (r, w2) ->
  forall other,
    other <> name ->
    Config_class other = None ->
    fst (Config_getattribute system self other w2)
    = fst (Config_getattribute system self other w1).
Proof.
  intros Hinit Hset other Hne Hc.
  destruct (Config_init_settings _ _ _ _ _ _ _ _ Hinit) as (d & Hm & Hs).
  destruct (Config_set_frame _ _ _ _ _ _ _ Hs Hset) as (_ & HS & Hst).
  unfold Config_getattribute. rewrite Hc.
  destruct (self !! other) as [s|]; [reflexivity|].
  munfold. destruct (dict_get (Some other) d) as [l|] eqn:Hd.
  - pose proof (make_settings_instantiable _ _ _ _ _ _ Hm) as Hall.
    destruct (make_settings_sound _ _ _ _ _ _ _ _ Hall Hm Hd) as (c & Ho & _).
    assert (Ho2 : store w2 !! l = Some (initialised c)).
    { rewrite Hst; [exact Ho|]. intros Hl.
      apply Hne. pose proof (make_settings_injective _ _ _ _ _ _ _ _ _ Hm Hl Hd).
      congruence. }
    now rewrite (Config_getattr_bound w2 self d other l _ Hs Hd Ho2),
      (Config_getattr_bound w1 self d other l _ Hs Hd Ho).
  - rewrite !(Config_getattr_unbound _ self d other Hs Hd), HS.
    now destruct (bool_decide _).
Qed.

Lemma Config_set_leaves_other_names_witness :
  fst (Config_getattribute sample_system module_config "debug"
         (snd (Config_set module_config "workers" (PStr "4") module_config_world)))
  = fst (Config_getattribute sample_system module_config "debug" module_config_world).
Proof.
  apply (Config_set_leaves_other_names sample_system sample_world
           module_config_world _ PNone PNone None None None module_config
           "workers" (PStr "4") (fst (Config_set module_config "workers" (PStr "4")
                                        module_config_world))).
  - apply (run_returns (Config_init PNone PNone None None None sample_world)
             module_config).
    vm_compute. reflexivity.
  - apply surjective_pairing.
  - discriminate.
  - reflexivity.
Defined.

(** ** The help texts of a registered class *)

Lemma is_linebreak_space c : is_linebreak c = true -> is_space c = true.
Proof.
  unfold is_linebreak, is_space. cbv zeta. intros H.
  apply orb_true_iff in H as [H|H]; apply andb_true_iff in H as [H1 H2];
    apply Nat.leb_le in H1, H2; apply orb_true_iff; [left|right];
    apply andb_true_iff; split; apply Nat.leb_le; lia.
Qed.

Lemma splitlines_chars_first cur cs :
  exists p rest,
    cs = p ++ rest
    /\ forallb (fun c => negb (is_linebreak c)) p = true
    /\ (rest = [] \/ exists c r, rest = c :: r /\ is_linebreak c = true)
    /\ list_ascii_of_string
         (match splitlines_chars cur cs with [] => "" | l :: _ => l end)
       = rev cur ++ p.
Proof.
  revert cur. induction cs as [|c cs IH]; intros cur.
  - exists [], []. split; [reflexivity|]. split; [reflexivity|].
    split; [now left|]. simpl. rewrite app_nil_r.
    destruct cur as [|a cur]; [reflexivity|].
    unfold line_of. apply list_ascii_of_string_of_list_ascii.
  - assert (Hbreak : is_linebreak c = true ->
                     exists p rest,
                       c :: cs = p ++ rest
                       /\ forallb (fun c => negb (is_linebreak c)) p = true
                       /\ (rest = [] \/ exists c r, rest = c :: r /\ is_linebreak c = true)
                       /\ list_ascii_of_string (line_of cur) = rev cur ++ p).
    { intros Hc. exists [], (c :: cs). split; [reflexivity|]. split; [reflexivity|].
      split; [right; eauto|]. rewrite app_nil_r. unfold line_of.
      apply list_ascii_of_string_of_list_ascii. }
    cbn [splitlines_chars].
    destruct (Ascii.eqb c "013") eqn:Ecr.
    + apply Ascii.eqb_eq in Ecr. subst c.
      destruct cs as [|c' cs']; [now apply Hbreak|].
      destruct (Ascii.eqb c' "010"); now apply Hbreak.
    + destruct (is_linebreak c) eqn:Elb; [now apply Hbreak|].
      destruct (IH (c :: cur)) as (p & rest & Hcs & Hp & Hrest & Hline).
      exists (c :: p), rest. split; [now rewrite Hcs|].
      split; [simpl; now rewrite Elb|]. split; [exact Hrest|].
      rewrite Hline. simpl. now rewrite <- app_assoc.
Qed.

Lemma first_line_prefix s :
  exists rest,
    s = (first_line s ++ rest)%string
    /\ no_linebreak (first_line s) = true
    /\ (rest = ""%string
        \/ exists c r, rest = String c r /\ is_linebreak c = true).
Proof.
  unfold first_line, splitlines, no_linebreak.
  destruct (splitlines_chars_first [] (list_ascii_of_string s))
    as (p & rest & Hs & Hp & Hrest & Hline).
  simpl in Hline. exists (string_of_list_ascii rest).
  set (fl := match splitlines_chars [] (list_ascii_of_string s) with
             | [] => ""%string
             | l :: _ => l
             end) in *.
  assert (Hfl : fl = string_of_list_ascii p)
    by (now rewrite <- (string_of_list_ascii_of_string fl), Hline).
  split; [|split].
  - rewrite Hfl. rewrite <- (string_of_list_ascii_of_string s) at 1. rewrite Hs.
    clear. induction p as [|a p IH]; simpl; [reflexivity | now rewrite IH].
  - now rewrite Hline.
  - destruct Hrest as [-> | (c & r & -> & Hc)]; [now left|].
    right. exists c, (string_of_list_ascii r). auto.
Qed.

Lemma first_line_empty s :
  trimmed s = true -> (first_line s = ""%string <-> s = ""%string).
Proof.
  intros Ht. split.
  - intros He. destruct (first_line_prefix s) as (rest & Hs & _ & Hrest).
    rewrite He in Hs. simpl in Hs.
    destruct Hrest as [-> | (c & r & -> & Hc)]; [exact Hs|].
    exfalso. subst s. unfold trimmed, trimmed_chars in Ht. simpl in Ht.
    apply is_linebreak_space in Hc. now rewrite Hc in Ht.
  - now intros ->.
Qed.

Lemma or_empty d0 :
  (if truthy_str d0 then default "" d0 else ""%string) = default ""%string d0.
Proof.
  destruct d0 as [s|]; [|reflexivity]. simpl.
  destruct (String.eqb s "") eqn:E; [|reflexivity].
  apply String.eqb_eq in E. now subst.
Qed.

(** X15: the help texts of a registered class come from the [desc] of
    its class body alone: after a class statement that registers a
    class, [desc] is that text ([''] for [None]) dedented and without
    white space at either end, and [short] is the first line of the new
    [desc], whatever [short] the class body declares: [short] has no
    line break, [desc] starts with it and goes on, if at all, with a
    line break, and [short] is empty only when [desc] is. *)
Theorem registered_class_help_texts (dedent : string -> string)
    (classname : string) (base : Setting.class) (attrs : list attr)
    (w w' : world) (c : Setting.class) :
  not_virtual attrs = true ->
  SettingMeta_new dedent classname base attrs w = (Ok c, w') ->
  exists declared d rest,
    attrs_get sel_desc attrs = Some declared
    /\ d = strip (dedent (default ""%string declared))
    /\ Setting.desc c = Some d
    /\ Setting.short c = Some (first_line d)
    /\ trimmed d = true
    /\ no_linebreak (first_line d) = true
    /\ d = (first_line d ++ rest)%string
    /\ (rest = ""%string \/ exists a r, rest = String a r /\ is_linebreak a = true)
    /\ (first_line d = ""%string <-> d = ""%string).
Proof.
  intros Hv Hnew. unfold not_virtual in Hv. apply negb_true_iff in Hv.
  unfold SettingMeta_new in Hnew. rewrite Hv in Hnew.
  unfold mbind, M_bind, get_world in Hnew.
  rewrite !attrs_get_snoc in Hnew. cbn [sel_desc] in Hnew.
  destruct (attrs_get sel_desc attrs) as [d0|]; [|discriminate].
  unfold mbind, M_bind, mret, M_ret, register in Hnew.
  injection Hnew as <- _. rewrite or_empty.
  set (d := strip (dedent (default ""%string d0))).
  destruct (first_line_prefix d) as (rest & Hd & Hnb & Hrest).
  exists d0, d, rest. split; [reflexivity|]. split; [reflexivity|].
  split; [reflexivity|]. split; [reflexivity|].
  split; [apply strip_trimmed|]. split; [exact Hnb|]. split; [exact Hd|].
  split; [exact Hrest|]. apply first_line_empty, strip_trimmed.
Qed.

Lemma registered_class_help_texts_witness :
  exists c declared d,
    fst (SettingMeta_new (fun s => s) "Workers" Setting_class Workers_attrs
           empty_world) = Ok c
    /\ attrs_get sel_desc Workers_attrs = Some declared
    /\ d = strip (default ""%string declared)
    /\ Setting.desc c = Some d
    /\ Setting.short c = Some (first_line d)
    /\ no_linebreak (first_line d) = true.
Proof.
  destruct (SettingMeta_new (fun s => s) "Workers" Setting_class Workers_attrs
              empty_world) as [[c|e] w'] eqn:E.
  - assert (Hv : not_virtual Workers_attrs = true) by (vm_compute; reflexivity).
    destruct (registered_class_help_texts _ _ _ _ _ _ c Hv E)
      as (declared & d & rest & Hdecl & Hdd & Hd & Hs & _ & Hnb & _).
    exists c, declared, d. split; [reflexivity|]. split; [exact Hdecl|].
    split; [exact Hdd|]. split; [exact Hd|]. split; [exact Hs | exact Hnb].
  - exfalso.
    assert (H : match fst (SettingMeta_new (fun s => s) "Workers" Setting_class
                             Workers_attrs empty_world) with
                | Ok _ => true
                | Raise _ => false
                end = true) by (vm_compute; reflexivity).
    rewrite E in H. discriminate.
Defined.

(** ** What the validators return *)

(** X16: what each validator of the module returns when it returns:
    [validate_bool] a boolean; [validate_pos_int] an integer that is
    not negative; [validate_string] [None] or a string without white
    space at either end; [validate_list] its argument, which is a list
    or any falsy value (not only [None]); the validator made by
    [validate_callable(arity)] its argument, a callable whose number of
    parameters, less one when it is not a plain function, is
    [arity]. *)
Theorem validator_results (val r : pyval) :
  (validate_bool val = Ok r -> exists b, r = PBool b)
  /\ (validate_pos_int val = Ok r -> exists n, r = PInt n /\ (0 <= n)%Z)
  /\ (validate_string val = Ok r ->
      r = PNone \/ exists s, r = PStr s /\ trimmed s = true)
  /\ (validate_list val = Ok r ->
      r = val /\ (truthy val = false \/ exists id items, val = PList id items))
  /\ (forall arity,
        validate_callable arity val = Ok r ->
        r = val
        /\ exists isfunction nparams,
             val = PFun isfunction nparams
             /\ arity = (Z.of_nat nparams - (if isfunction then 0 else 1))%Z).
Proof.
  split_all.
  - unfold validate_bool. destruct val; try discriminate.
    + intros [= <-]. eauto.
    + destruct (String.eqb _ "true"); [intros [= <-]; eauto|].
      destruct (String.eqb _ "false"); [intros [= <-]; eauto | discriminate].
  - unfold validate_pos_int, rbind.
    destruct (pos_int_convert val) as [z|e]; [|discriminate].
    destruct (z <? 0)%Z eqn:E; [discriminate|].
    intros [= <-]. exists z. split; [reflexivity|]. apply Z.ltb_ge in E. exact E.
  - unfold validate_string. destruct val; try discriminate.
    + intros [= <-]. now left.
    + intros [= <-]. right. eexists. split; [reflexivity | apply strip_trimmed].
  - unfold validate_list.
    destruct (truthy val) eqn:Et; simpl.
    + destruct val; simpl; try discriminate.
      intros [= <-]. split; [reflexivity|]. right. eauto.
    + intros [= <-]. split; [reflexivity|]. now left.
  - intros arity. unfold validate_callable. destruct val; try discriminate.
    match goal with
    | |- context [negb (?a =? ?b)%Z] => destruct (a =? b)%Z eqn:E
    end; simpl; [|discriminate].
    intros [= <-]. split; [reflexivity|]. do 2 eexists. split; [reflexivity|].
    now apply Z.eqb_eq in E.
Qed.

Lemma validator_results_witness :
  exists n, PInt 16 = PInt n /\ (0 <= n)%Z.
Proof.
  apply (proj1 (proj2 (validator_results (PStr "0x10") (PInt 16)))).
  vm_compute. reflexivity.
Defined.

(** ** Config.parser: sections that do not compare, and the module's own *)

Lemma Config_parser_mixed system argparse version w self d sd se :
  self !! "settings" = Some (Settings d) ->
  self !! "description" = Some sd ->
  self !! "epilog" = Some se ->
  (forall k, k ∈ dict_keys d -> is_Some (bound_object w d k)) ->
  sections_comparable w d = false ->
  Config_parser system argparse version self w
  = (match argparse [] (version_call version) with
     | Ok _ => Raise (Exn TypeError "'<' not supported between instances" [])
     | Raise e => Raise e
     end, w).
Proof.
  intros Hs Hde Hep Hobj Hsec.
  unfold Config_parser, Config_getattribute. simpl.
  rewrite Hde, Hep.
  unfold mbind at 1, M_bind at 1, mret at 1, M_ret at 1.
  unfold mbind at 1, M_bind at 1, mret at 1, M_ret at 1.
  unfold mbind at 1, M_bind at 1, lift at 1.
  unfold version_call.
  destruct (argparse [] _) as [[]|e]; simpl; [|reflexivity].
  unfold self_settings. rewrite Hs.
  unfold mbind at 1, M_bind at 1, lift at 1.
  unfold mbind at 1, M_bind at 1.
  rewrite (mapM_pure _ (fun k => (bound_key w d k, k))).
  2:{ intros k Hk. destruct (Hobj k Hk) as (o & Ho).
      destruct (bound_object_lookup _ _ _ _ Ho) as (l & Hl & Hst).
      unfold dict_getitem, bound_key. munfold. now rewrite Hl, Hst, Ho. }
  unfold mbind at 1, M_bind at 1, lift at 1, sorted.
  unfold has_none_section, has_str_section.
  rewrite (existsb_decorated (bound_key w d)
             (fun s => match s with None => true | Some _ => false end)).
  rewrite (existsb_decorated (bound_key w d)
             (fun s => match s with None => false | Some _ => true end)).
  unfold sections_comparable in Hsec. apply negb_false_iff in Hsec.
  now rewrite Hsec.
Qed.

(** X17: [Config.parser] sorts the names by [(section, order)], and a
    section that is [None] does not compare with a section that is a
    string: when the bound settings have both, [parser], once the
    parser has taken the version flag, raises [TypeError] before any
    argument of a setting is offered (were the version flag refused,
    that failure would be raised); the state is unchanged. *)
Theorem Config_parser_mixed_sections (system : System)
    (argparse : argparse_library) (version : string)
    (w : world) (self : instance) (d : settings_dict) (sd se : slot)
    (k1 k2 : option string) (o1 o2 : Setting.object) (s : string) :
  self !! "settings" = Some (Settings d) ->
  self !! "description" = Some sd ->
  self !! "epilog" = Some se ->
  (forall k, k ∈ dict_keys d -> is_Some (bound_object w d k)) ->
  bound_object w d k1 = Some o1 ->
  bound_object w d k2 = Some o2 ->
  Setting.section (Setting.cls o1) = None ->
  Setting.section (Setting.cls o2) = Some s ->
  Config_parser system argparse version self w
  = (match argparse [] (version_call version) with
     | Ok _ => Raise (Exn TypeError "'<' not supported between instances" [])
     | Raise e => Raise e
     end, w).
Proof.
  intros Hs Hde Hep Hobj H1 H2 Hs1 Hs2.
  apply (Config_parser_mixed system argparse version w self d sd se);
    try assumption.
  unfold sections_comparable. apply negb_false_iff. apply andb_true_iff.
  assert (Hk : forall k o, bound_object w d k = Some o -> In k (dict_keys d)).
  { intros k o Ho. destruct (bound_object_lookup _ _ _ _ Ho) as (l & Hl & _).
    apply list_elem_of_In. eapply dict_get_Some_keys; eauto. }
  split; apply existsb_exists.
  - exists k1. split; [eapply Hk; eauto|].
    unfold bound_key. rewrite H1. simpl. now rewrite Hs1.
  - exists k2. split; [eapply Hk; eauto|].
    unfold bound_key. rewrite H2. simpl. now rewrite Hs2.
Qed.

Lemma bound_section w d k s :
  option_map (fun o => Setting.section (Setting.cls o)) (bound_object w d k) = Some s ->
  exists o, bound_object w d k = Some o /\ Setting.section (Setting.cls o) = s.
Proof.
  destruct (bound_object w d k) as [o|]; [|discriminate].
  intros [= <-]. eauto.
Qed.

Lemma Config_parser_mixed_sections_witness :
  Config_parser sample_system sample_argparse "0.1" mixed_config mixed_config_world
  = (Raise (Exn TypeError "'<' not supported between instances" []),
     mixed_config_world).
Proof.
  destruct (bound_section mixed_config_world mixed_settings (Some "plain") None)
    as (o1 & H1 & Hs1); [vm_compute; reflexivity|].
  destruct (bound_section mixed_config_world mixed_settings (Some "workers")
              (Some "Worker Processes"))
    as (o2 & H2 & Hs2); [vm_compute; reflexivity|].
  apply (Config_parser_mixed_sections sample_system sample_argparse "0.1"
           mixed_config_world
           mixed_config mixed_settings (Value (PStr "Pulsar server"))
           (Value (PStr "Have fun!")) (Some "plain") (Some "workers") o1 o2
           "Worker Processes"); try assumption.
  - vm_compute. reflexivity.
  - vm_compute. reflexivity.
  - vm_compute. reflexivity.
  - apply objects_in_store_bound. vm_compute. reflexivity.
Defined.

Lemma dict_set_keys k v d :
  dict_keys (dict_set k v d)
  = if bool_decide (k ∈ dict_keys d) then dict_keys d else dict_keys d ++ [k].
Proof.
  induction d as [|[k' v'] d IH]; [reflexivity|].
  cbn [dict_set]. destruct (bool_decide (k' = k)) eqn:E.
  - apply bool_decide_eq_true in E. subst k'. cbn [dict_keys map fst].
    rewrite bool_decide_eq_true_2 by apply list_elem_of_here.
    reflexivity.
  - apply bool_decide_eq_false in E.
    change (dict_keys ((k', v') :: dict_set k v d))
      with (k' :: dict_keys (dict_set k v d)).
    change (dict_keys ((k', v') :: d)) with (k' :: dict_keys d).
    rewrite IH.
    destruct (bool_decide (k ∈ dict_keys d)) eqn:Ein.
    + apply bool_decide_eq_true in Ein.
      rewrite bool_decide_eq_true_2 by (now apply list_elem_of_further).
      reflexivity.
    + apply bool_decide_eq_false in Ein.
      rewrite bool_decide_eq_false_2; [reflexivity|].
      intros H. apply elem_of_cons in H as [H|H]; congruence.
Qed.

Lemma dict_set_NoDup k v d :
  NoDup (dict_keys d) -> NoDup (dict_keys (dict_set k v d)).
Proof.
  intros H. rewrite dict_set_keys. case_bool_decide as E; [exact H|].
  apply NoDup_app. split; [exact H|]. split.
  - intros x Hx Hk. apply list_elem_of_singleton in Hk. now subst.
  - apply NoDup_singleton.
Qed.

Lemma loop_dict_NoDup keep known : forall settings n,
  NoDup (dict_keys settings) -> NoDup (dict_keys (loop_dict keep known settings n)).
Proof.
  induction known as [|c known IH]; intros settings n H; simpl; [exact H|].
  destruct (keep c); apply IH; [now apply dict_set_NoDup | exact H].
Qed.

Lemma make_settings_keys_NoDup w app include exclude d w' :
  make_settings app include exclude w = (Ok d, w') -> NoDup (dict_keys d).
Proof.
  intros Hm. pose proof (make_settings_instantiable _ _ _ _ _ _ Hm) as Hall.
  rewrite (make_settings_ok app include exclude w Hall) in Hm.
  injection Hm as <- _. apply loop_dict_NoDup. constructor.
Qed.

Lemma flat_map_submseteq {A B} (f : A -> list B) (l1 l2 : list A) :
  l1 ⊆+ l2 -> flat_map f l1 ⊆+ flat_map f l2.
Proof.
  induction 1 as [|x l1 l2 _ IH|x y l|x l1 l2 _ IH|l1 l2 l3 _ IH1 _ IH2]; simpl.
  - constructor.
  - now apply submseteq_skips_l.
  - rewrite !app_assoc. apply submseteq_skips_r.
    apply Permutation_submseteq. apply Permutation_app_comm.
  - now apply submseteq_inserts_l.
  - now transitivity (flat_map f l2).
Qed.

Lemma submseteq_NoDup_l {A} (l1 l2 : list A) :
  l1 ⊆+ l2 -> NoDup l2 -> NoDup l1.
Proof.
  intros Hsub Hnd. apply submseteq_Permutation in Hsub as (k & Hk).
  rewrite Hk in Hnd. now apply NoDup_app in Hnd as (H & _).
Qed.

(** The parser accepts the calls of a sequence of flag calls whose
    option strings are all different and none of the help flags. *)
Lemma flag_calls_accepted argparse calls :
  accepts_flag_calls argparse ->
  forallb flag_call calls = true ->
  NoDup (help_flags ++ flat_map option_strings calls) ->
  accepts_all argparse calls.
Proof.
  intros Hacc Hflag Hnd before call after ->.
  rewrite forallb_app in Hflag. apply andb_true_iff in Hflag as [_ Hflag].
  simpl in Hflag. apply andb_true_iff in Hflag as [Hcall _].
  apply Hacc; [exact Hcall|].
  unfold fresh_flags. apply forallb_forall. intros a Ha.
  apply negb_true_iff, bool_decide_eq_false. intros Hin.
  rewrite flat_map_app in Hnd. cbn [flat_map] in Hnd.
  rewrite (app_assoc help_flags) in Hnd.
  apply NoDup_app in Hnd as (_ & Hdisj & _).
  apply (Hdisj a Hin). apply elem_of_app. left. now apply list_elem_of_In.
Qed.

Lemma bound_classes w d (known : list Setting.class) ks :
  (forall k, k ∈ ks ->
     exists c, bound_object w d k = Some (initialised c)
               /\ c ∈ known /\ Setting.name c = k) ->
  exists cs,
    map Setting.name cs = ks
    /\ (forall c, c ∈ cs -> c ∈ known)
    /\ omap (bound_argument w d) ks = omap class_call cs.
Proof.
  induction ks as [|k ks IH]; intros H.
  - exists []. split; [reflexivity|]. split; [|reflexivity].
    intros c Hc. inversion Hc.
  - destruct (H k) as (c & Hc & Hin & Hn); [apply list_elem_of_here|].
    destruct IH as (cs & Hnames & Hsub & Hcalls).
    { intros k' Hk'. apply H. now apply list_elem_of_further. }
    exists (c :: cs). split; [simpl; now rewrite Hn, Hnames|]. split.
    + intros c' Hc'. apply elem_of_cons in Hc' as [->|Hc']; auto.
    + cbn [omap list_omap]. unfold bound_argument at 1. rewrite Hc.
      fold (class_call c). now rewrite Hcalls.
Qed.

Lemma class_calls_flags cs :
  flat_map option_strings (omap class_call cs) = flat_map class_flags cs.
Proof.
  induction cs as [|c cs IH]; [reflexivity|].
  cbn [omap list_omap flat_map]. unfold class_flags at 1.
  destruct (class_call c) as [call|]; cbn [flat_map]; now rewrite IH.
Qed.

Lemma Config_parser_on_registry system argparse version w description epilog
    app include exclude :
  accepts_flag_calls argparse ->
  forallb instantiable (KNOWN_SETTINGS w) = true ->
  forallb (fun c => is_some (Setting.section c)) (KNOWN_SETTINGS w) = true ->
  Forall (fun n => Some n ∉ map Setting.name (KNOWN_SETTINGS w))
         ["description"; "epilog"] ->
  forallb (fun c => match class_call c with
                    | Some call => flag_call call
                    | None => true
                    end) (KNOWN_SETTINGS w) = true ->
  NoDup (map Setting.name (KNOWN_SETTINGS w)) ->
  NoDup (help_flags ++ option_strings (version_call version)
         ++ flat_map class_flags (KNOWN_SETTINGS w)) ->
  exists self d w' p ks,
    Config_init description epilog app include exclude w = (Ok self, w')
    /\ self !! "settings" = Some (Settings d)
    /\ Config_parser system argparse version self w' = (Ok p, w')
    /\ Permutation ks (dict_keys d)
    /\ Sorted (keys_le w' d) ks
    /\ parser_arguments p = version_call version :: omap (bound_argument w' d) ks.
Proof.
  intros Hacc Hall Hsec Hnames Hflag Hndn Hndf.
  destruct (make_settings_entries w app include exclude Hall)
    as (d & w' & Hm & _ & Hent).
  inversion_clear Hnames as [|? ? Hn1 Hnames'].
  inversion_clear Hnames' as [|? ? Hn2 _].
  pose proof (unregistered_unbound _ _ _ _ _ _ _ Hall Hm Hn1) as Hd1.
  pose proof (unregistered_unbound _ _ _ _ _ _ _ Hall Hm Hn2) as Hd2.
  pose proof (Config_init_result w description epilog _ _ _ _ _ Hm) as Hinit.
  rewrite Hd1, Hd2 in Hinit. cbn [is_some orb] in Hinit.
  match type of Hinit with _ = (Ok ?s, _) => set (self := s) in * end.
  assert (Hs : self !! "settings" = Some (Settings d)).
  { unfold self, instance. rewrite !lookup_insert_ne by discriminate.
    apply lookup_insert_eq. }
  assert (Hde : is_Some (self !! "description")).
  { unfold self, instance. rewrite lookup_insert_ne by discriminate.
    rewrite lookup_insert_eq. eauto. }
  assert (Hep : is_Some (self !! "epilog")).
  { unfold self, instance. rewrite lookup_insert_eq. eauto. }
  destruct Hde as (sd & Hde). destruct Hep as (se & Hep).
  assert (Hbound : forall k, k ∈ dict_keys d ->
            exists c, bound_object w' d k = Some (initialised c)
                      /\ c ∈ KNOWN_SETTINGS w /\ Setting.name c = k).
  { intros k Hk. apply dict_keys_get in Hk as (l & Hl).
    pose proof (Hent k) as H. rewrite Hl in H. destruct H as (c & Hc & Hlast).
    exists c. unfold bound_object. rewrite Hl. split; [exact Hc|].
    apply last_selected_name in Hlast as [Hin Hn].
    split; [now apply list_elem_of_In | exact Hn]. }
  destruct (Config_parser_offers system argparse version w' self d sd se
              Hs Hde Hep) as (ks & Hperm & Hsorted & Hrun).
  { intros k Hk. destruct (Hbound k Hk) as (c & Hc & _). rewrite Hc. eauto. }
  { unfold sections_comparable. apply negb_true_iff. apply andb_false_iff. left.
    destruct (existsb _ (dict_keys d)) eqn:E; [|reflexivity].
    apply existsb_exists in E as (k & Hk & Hnone). exfalso.
    apply list_elem_of_In in Hk. destruct (Hbound k Hk) as (c & Hc & Hin & _).
    unfold bound_key in Hnone. rewrite Hc in Hnone. simpl in Hnone.
    rewrite forallb_forall in Hsec. apply list_elem_of_In in Hin.
    specialize (Hsec c Hin). destruct (Setting.section c); discriminate. }
  destruct (bound_classes w' d (KNOWN_SETTINGS w) ks) as (cs & Hcsn & Hcsk & Hcalls).
  { intros k Hk. apply Hbound. now rewrite <- Hperm. }
  assert (Hks : NoDup ks).
  { rewrite Hperm. eapply make_settings_keys_NoDup; eauto. }
  assert (Hsub : cs ⊆+ KNOWN_SETTINGS w).
  { apply NoDup_submseteq; [|exact Hcsk].
    apply (NoDup_fmap_1 Setting.name). change (NoDup (map Setting.name cs)).
    now rewrite Hcsn. }
  assert (Hall_calls : accepts_all argparse
            (version_call version :: omap (bound_argument w' d) ks)).
  { apply flag_calls_accepted; [exact Hacc| |].
    - cbn [forallb]. apply andb_true_iff. split; [reflexivity|].
      rewrite Hcalls. apply forallb_forall. intros call Hcall.
      apply list_elem_of_In, list_elem_of_omap in Hcall as (c & Hc & Hcc).
      rewrite forallb_forall in Hflag.
      specialize (Hflag c (proj1 (list_elem_of_In _ _) (Hcsk c Hc))).
      now rewrite Hcc in Hflag.
    - cbn [flat_map]. rewrite Hcalls, class_calls_flags.
      eapply submseteq_NoDup_l; [|exact Hndf].
      do 2 apply submseteq_skips_l. now apply flat_map_submseteq. }
  rewrite (offer_accepted argparse _ [] Hall_calls) in Hrun.
  exists self, d, w'. eexists. exists ks.
  split; [exact Hinit|]. split; [exact Hs|]. split; [exact Hrun|].
  split; [exact Hperm|]. split; [exact Hsorted | reflexivity].
Qed.

Lemma module_sections dedent SERVER_NAME :
  forallb (fun c => is_some (Setting.section c))
          (KNOWN_SETTINGS (module_world dedent SERVER_NAME)) = true.
Proof. vm_compute. reflexivity. Qed.

Lemma module_flag_calls dedent SERVER_NAME :
  forallb (fun c => match class_call c with
                    | Some call => flag_call call
                    | None => true
                    end) (KNOWN_SETTINGS (module_world dedent SERVER_NAME)) = true.
Proof. vm_compute. reflexivity. Qed.

Lemma module_names_NoDup dedent SERVER_NAME :
  NoDup (map Setting.name (KNOWN_SETTINGS (module_world dedent SERVER_NAME))).
Proof.
  rewrite module_registry_names.
  apply (proj1 (bool_decide_eq_true _)). vm_compute. reflexivity.
Qed.

Lemma module_flags_NoDup dedent SERVER_NAME version :
  NoDup (help_flags ++ option_strings (version_call version)
         ++ flat_map class_flags (KNOWN_SETTINGS (module_world dedent SERVER_NAME))).
Proof.
  apply (proj1 (bool_decide_eq_true _)). vm_compute. reflexivity.
Qed.

Lemma filter_none {A} (P : A -> bool) (l : list A) :
  forallb (fun a => negb (P a)) l = true -> List.filter P l = [].
Proof.
  induction l as [|a l IH]; simpl; [reflexivity|].
  intros H. apply andb_true_iff in H as [Ha Hl].
  apply negb_true_iff in Ha. rewrite Ha. now apply IH.
Qed.

Lemma sample_argparse_accepts : accepts_flag_calls sample_argparse.
Proof.
  intros accepted call _ Hfresh. unfold sample_argparse, fresh_flags in *.
  rewrite flat_map_concat_map in Hfresh.
  now rewrite (filter_none _ _ Hfresh).
Qed.

(** X18: on the registry the module itself declares, every one of its
    classes gives a section, its option strings are flags that are all
    different and none of them a help flag or the version flag, and its
    types are [int] or none.  So with an [argparse] that accepts such a
    call when its option strings are new, [Config(...).parser()]
    returns for every choice of the arguments, the server name and
    [textwrap.dedent]: after the version flag the parser has received
    the arguments of the bound settings in [(section, order)] order. *)
Theorem module_Config_parser (dedent : string -> string) (SERVER_NAME : string)
    (system : System) (argparse : argparse_library) (version : string)
    (description epilog : pyval)
    (app : option string) (include exclude : option (list string)) :
  accepts_flag_calls argparse ->
  exists self d w' p ks,
    Config_init description epilog app include exclude
      (module_world dedent SERVER_NAME) = (Ok self, w')
    /\ self !! "settings" = Some (Settings d)
    /\ Config_parser system argparse version self w' = (Ok p, w')
    /\ Permutation ks (dict_keys d)
    /\ Sorted (keys_le w' d) ks
    /\ parser_arguments p = version_call version :: omap (bound_argument w' d) ks.
Proof.
  intros Hacc. apply Config_parser_on_registry.
  - exact Hacc.
  - apply module_registry_instantiable.
  - apply module_sections.
  - pose proof (module_names_missing dedent SERVER_NAME) as H.
    inversion_clear H as [|? ? H1 H']. inversion_clear H' as [|? ? H2 _].
    repeat constructor; assumption.
  - apply module_flag_calls.
  - apply module_names_NoDup.
  - apply module_flags_NoDup.
Qed.

Lemma module_Config_parser_witness :
  exists self d w' p ks,
    Config_init PNone PNone None None (Some ["debug"]) sample_world = (Ok self, w')
    /\ self !! "settings" = Some (Settings d)
    /\ Config_parser sample_system sample_argparse "0.1" self w' = (Ok p, w')
    /\ Permutation ks (dict_keys d)
    /\ Sorted (keys_le w' d) ks
    /\ parser_arguments p = version_call "0.1" :: omap (bound_argument w' d) ks.
Proof.
  apply (module_Config_parser (fun s => s) "pulsar" sample_system sample_argparse
           "0.1" PNone PNone None None (Some ["debug"])).
  exact sample_argparse_accepts.
Defined.
